(** * CDSirius: the Compound Discoverer node that drives a SIRIUS service

    A shallow embedding of [src/CDSirius/node.py] and [src/CDSirius/sirius.py]
    and the properties their specification states about them.

    Conventions of the embedding.
    - Python [str] is [string]; the JSON numbers that carry masses, retention
      times and intensities are binary64 floats ([float], the kernel's
      primitive floats, with Python's own rounding); counts, charges, ranks
      and identifiers are [Z].
    - A function that can raise returns an [outcome]; code that logs, sleeps
      or calls the remote service runs in the monad [M], which threads the
      object's state and keeps everything emitted before an exception.
    - The remote SIRIUS service (package PySirius) is not part of the
      repository: it appears as a record of the answers it gives.
    - pandas frames are lists of labelled rows; columns that the code only
      carries along, renames or drops are left out of the row records. *)

From Stdlib Require Import ZArith String Ascii List Sorted Bool Lia PeanoNat.
From Stdlib Require Import Floats.PrimFloat.
From Equations Require Import Equations.
Import ListNotations.

Set Warnings "-inexact-float".
Local Open Scope string_scope.

(** ** Python built-ins used by the node *)

Module Py.

(** [d in s] for two strings: [d] occurs in [s] as a contiguous block. *)
Fixpoint contains (d s : string) : bool :=
  match s with
  | EmptyString => prefix d EmptyString
  | String _ s' => prefix d s || contains d s'
  end.

(** [any(f(x) for x in xs)]. *)
Definition any {A : Type} (f : A -> bool) (xs : list A) : bool := existsb f xs.

(** [s[:-1]]: the slice from 0 to [len(s) - 1], clipped at 0. *)
Definition slice_to_minus1 (s : string) : string :=
  substring 0 (String.length s - 1) s.

(** [zip(xs, ys)]: stops at the end of the shorter argument. *)
Fixpoint zip {A B : Type} (xs : list A) (ys : list B) : list (A * B) :=
  match xs, ys with
  | x :: xs', y :: ys' => (x, y) :: zip xs' ys'
  | _, _ => []
  end.

(** [s.upper()] on ASCII letters. *)
Definition upper_char (c : ascii) : ascii :=
  let n := nat_of_ascii c in
  if (97 <=? n)%nat && (n <=? 122)%nat then ascii_of_nat (n - 32) else c.

Fixpoint upper (s : string) : string :=
  match s with
  | EmptyString => EmptyString
  | String c s' => String (upper_char c) (upper s')
  end.

(** The propositional reading of [d in s]. *)
Definition occurs_in (d s : string) : Prop :=
  exists pre post, s = pre ++ d ++ post.

Lemma prefix_append (d s : string) :
  prefix d s = true <-> exists post, s = d ++ post.
Proof.
  revert s; induction d as [|c d IH]; intros s.
  - split; [intros _; now exists s | now destruct s].
  - destruct s as [|c' s]; simpl; [split; [discriminate | intros [p Hp]; discriminate]|].
    destruct (ascii_dec c c') as [->|Hne].
    + rewrite IH. split; intros [p Hp]; exists p; [now rewrite Hp | now inversion Hp].
    + split; [discriminate | intros [p Hp]; simpl in Hp; congruence].
Qed.

Lemma contains_occurs_in (d s : string) :
  contains d s = true <-> occurs_in d s.
Proof.
  unfold occurs_in. induction s as [|c s IH]; cbn [contains].
  - rewrite prefix_append. split.
    + intros [post Hp]. now exists "", post.
    + intros [pre [post Hp]]. destruct pre; simpl in Hp; [now exists post | discriminate].
  - rewrite orb_true_iff, IH, prefix_append. split.
    + intros [[post Hp] | [pre [post Hp]]].
      * now exists "", post.
      * exists (String c pre), post. simpl. now rewrite Hp.
    + intros [pre [post Hp]]. destruct pre as [|c' pre]; simpl in Hp.
      * left. now exists post.
      * right. inversion Hp. now exists pre, post.
Qed.

Lemma substring_all_but_last (s : string) (c : ascii) :
  substring 0 (String.length s) (s ++ String c "") = s.
Proof.
  induction s as [|a s IH]; simpl; [reflexivity | now rewrite IH].
Qed.

Lemma length_snoc (s : string) (c : ascii) :
  String.length (s ++ String c "") = S (String.length s).
Proof.
  induction s as [|a s IH]; simpl; [reflexivity | now rewrite IH].
Qed.

(** [s[:-1]] removes the last character, and leaves the empty string empty. *)
Lemma slice_to_minus1_snoc (s : string) (c : ascii) :
  slice_to_minus1 (s ++ String c "") = s.
Proof.
  unfold slice_to_minus1. rewrite length_snoc. simpl.
  rewrite Nat.sub_0_r. apply substring_all_but_last.
Qed.

Lemma slice_to_minus1_empty : slice_to_minus1 "" = "".
Proof. reflexivity. Qed.

Lemma zip_length {A B : Type} (xs : list A) (ys : list B) :
  length (zip xs ys) = Nat.min (length xs) (length ys).
Proof.
  revert ys; induction xs as [|x xs IH]; intros [|y ys]; simpl; auto.
Qed.

Lemma zip_firstn {A B : Type} (xs : list A) (ys : list B) :
  let n := Nat.min (length xs) (length ys) in
  zip xs ys = zip (firstn n xs) (firstn n ys).
Proof.
  revert ys; induction xs as [|x xs IH]; intros [|y ys]; simpl; auto.
  f_equal. apply IH.
Qed.

End Py.

(** ** Outcomes of code that can raise *)

Inductive exn : Type :=
| RuntimeError (msg : string)
| TypeError (msg : string)
| KeyError (msg : string)
| IndexError (msg : string)
| AttributeError (msg : string)
| ValueError (msg : string)
| OverflowError (msg : string)
| ServiceError (msg : string).

Inductive outcome (A : Type) : Type :=
| Return (a : A)
| Raise (e : exn).
Arguments Return {A} a.
Arguments Raise {A} e.

Definition obind {A B : Type} (o : outcome A) (k : A -> outcome B) : outcome B :=
  match o with
  | Return a => k a
  | Raise e => Raise e
  end.

(** A [for] loop that builds a list and stops at the first exception. *)
Fixpoint omap {A B : Type} (f : A -> outcome B) (xs : list A) : outcome (list B) :=
  match xs with
  | [] => Return []
  | x :: xs' => obind (f x) (fun y => obind (omap f xs') (fun ys => Return (y :: ys)))
  end.

(** ** node.py: the feature normaliser *)

Module Node.

(** *** [_normalize_adduct] *)

Definition invalid_adducts : list string :=
  ["2M"; "+2"; "+3"; "-2"; "-3"; "MeOH"; "ACN"; "-e"; "+e"].

Definition proton_mass : float := 1.00727663%float.

Definition _normalize_adduct (mz mw : float) (z : Z) (adduct : string)
  : float * Z * string :=
  let '(mz, z, adduct) :=
    if Py.any (fun d => Py.contains d adduct) invalid_adducts then
      if (z <? 0)%Z then ((mw - proton_mass)%float, (-1)%Z, "[M-H]-1")
      else ((mw + proton_mass)%float, 1%Z, "[M+H]+1")
    else (mz, z, adduct) in
  (mz, z, Py.slice_to_minus1 adduct).

(** The adduct holds one of the unsupported tokens. *)
Definition blacklisted (adduct : string) : Prop :=
  exists d, In d invalid_adducts /\ Py.occurs_in d adduct.

Lemma any_invalid_blacklisted (adduct : string) :
  Py.any (fun d => Py.contains d adduct) invalid_adducts = true <-> blacklisted adduct.
Proof.
  unfold Py.any, blacklisted. rewrite existsb_exists.
  split; intros [d [Hin Hd]]; exists d; split; auto; now apply Py.contains_occurs_in.
Qed.

(** C1, as the code has it: for an adduct that holds a blacklisted token the
    normaliser returns mass [mw - 1.00727663], charge [-1] and the adduct
    ["[M-H]-"] when the input charge is negative, and mass [mw + 1.00727663],
    charge [+1] and the adduct ["[M+H]+"] otherwise. The labels ["[M-H]-1"]
    and ["[M+H]+1"] are assigned first and then lose their last character in
    the common [adduct[:-1]] of the return statement. *)
Theorem normalize_adduct_blacklisted (mz mw : float) (z : Z) (adduct : string) :
  blacklisted adduct ->
  ((z < 0)%Z ->
     _normalize_adduct mz mw z adduct = ((mw - 1.00727663)%float, (-1)%Z, "[M-H]-")) /\
  ((0 <= z)%Z ->
     _normalize_adduct mz mw z adduct = ((mw + 1.00727663)%float, 1%Z, "[M+H]+")).
Proof.
  intros Hb. apply any_invalid_blacklisted in Hb.
  unfold _normalize_adduct. rewrite Hb.
  split; intros Hz.
  - apply Z.ltb_lt in Hz. now rewrite Hz.
  - apply Z.ltb_ge in Hz. now rewrite Hz.
Qed.

Lemma normalize_adduct_blacklisted_witness :
  blacklisted "2M-H-1" /\
  _normalize_adduct 199.5%float 100.25%float (-1) "2M-H-1"
  = ((100.25 - 1.00727663)%float, (-1)%Z, "[M-H]-").
Proof.
  assert (Hb : blacklisted "2M-H-1").
  { exists "2M". split; [simpl; auto | now exists "", "-H-1"]. }
  split; [exact Hb|].
  apply (proj1 (normalize_adduct_blacklisted 199.5%float 100.25%float (-1) "2M-H-1" Hb)).
  lia.
Defined.

(** C1 as stated fails: on the specification's own example (charge -1, adduct
    ["2M-H-1"]) the returned adduct is ["[M-H]-"], which is neither
    ["[M-H]-1"] nor ["[M+H]+1"]; the same holds on the positive branch. *)
Lemma normalize_adduct_drops_charge_digit :
  blacklisted "2M-H-1" /\
  _normalize_adduct 199.5%float 100.25%float (-1) "2M-H-1"
  = ((100.25 - 1.00727663)%float, (-1)%Z, "[M-H]-") /\
  "[M-H]-" <> "[M-H]-1" /\ "[M-H]-" <> "[M+H]+1" /\
  _normalize_adduct 201.5%float 100.25%float 1 "2M+H+1"
  = ((100.25 + 1.00727663)%float, 1%Z, "[M+H]+") /\
  "[M+H]+" <> "[M-H]-1" /\ "[M+H]+" <> "[M+H]+1".
Proof.
  split.
  - exists "2M". split; [simpl; auto | now exists "", "-H-1"].
  - repeat split; try reflexivity; discriminate.
Qed.

(** Every string is empty or ends in a last character. *)
Lemma string_empty_or_snoc (s : string) :
  s = "" \/ exists s' c, s = s' ++ String c "".
Proof.
  induction s as [|a s IH]; [now left | right].
  destruct IH as [-> | [s' [c ->]]].
  - now exists "", a.
  - now exists (String a s'), c.
Qed.

(** C10: on an adduct without blacklisted token the normaliser returns the
    mass and the charge it was given and the adduct without its last
    character; the empty adduct comes back empty. The function is total: no
    input makes it raise. *)
Theorem normalize_adduct_passthrough (mz mw : float) (z : Z) (adduct : string) :
  ~ blacklisted adduct ->
  _normalize_adduct mz mw z adduct = (mz, z, Py.slice_to_minus1 adduct) /\
  (forall s c, adduct = s ++ String c "" -> Py.slice_to_minus1 adduct = s) /\
  (adduct = "" -> Py.slice_to_minus1 adduct = "").
Proof.
  intros Hb. repeat split.
  - unfold _normalize_adduct.
    destruct (Py.any _ invalid_adducts) eqn:Hany; [|reflexivity].
    apply any_invalid_blacklisted in Hany. contradiction.
  - intros s c ->. apply Py.slice_to_minus1_snoc.
  - now intros ->.
Qed.

Lemma not_blacklisted_by_test (adduct : string) :
  Py.any (fun d => Py.contains d adduct) invalid_adducts = false -> ~ blacklisted adduct.
Proof.
  intros Hf Hb. apply any_invalid_blacklisted in Hb. congruence.
Qed.

Lemma normalize_adduct_passthrough_witness :
  ~ blacklisted "[M+Na]+1" /\
  _normalize_adduct 123.5%float 100.25%float 1 "[M+Na]+1" = (123.5%float, 1%Z, "[M+Na]+") /\
  ~ blacklisted "" /\
  _normalize_adduct 123.5%float 100.25%float 1 "" = (123.5%float, 1%Z, "").
Proof.
  assert (H1 : ~ blacklisted "[M+Na]+1") by (apply not_blacklisted_by_test; reflexivity).
  assert (H2 : ~ blacklisted "") by (apply not_blacklisted_by_test; reflexivity).
  split; [exact H1|]. split.
  - exact (proj1 (normalize_adduct_passthrough 123.5%float 100.25%float 1 "[M+Na]+1" H1)).
  - split; [exact H2|].
    exact (proj1 (normalize_adduct_passthrough 123.5%float 100.25%float 1 "" H2)).
Defined.

(** *** The elemental constraints of [_load_params]

    [re.findall] scans the text from the left with a pattern of two groups:
    an upper-case letter [A-Z] followed by any number of lower-case letters
    [a-z], then any number of digits. A match starts at an upper-case letter,
    takes the longest run of lower-case letters and then the longest run of
    digits; it never backtracks, since whatever the two runs take, the
    pattern has matched. A character at which
    no match starts is skipped. Each match yields the pair of its two groups.
    Characters are ASCII here, so [\d] is [0-9]. *)

Definition is_upper (c : ascii) : bool :=
  let n := nat_of_ascii c in (65 <=? n)%nat && (n <=? 90)%nat.

Definition is_lower (c : ascii) : bool :=
  let n := nat_of_ascii c in (97 <=? n)%nat && (n <=? 122)%nat.

Definition is_digit (c : ascii) : bool :=
  let n := nat_of_ascii c in (48 <=? n)%nat && (n <=? 57)%nat.

(** Greedy [p*]: the longest prefix of [s] within the class [p], and the rest. *)
Fixpoint span (p : ascii -> bool) (s : string) : string * string :=
  match s with
  | EmptyString => ("", "")
  | String c s' =>
      if p c then (String c (fst (span p s')), snd (span p s')) else ("", s)
  end.

Lemma span_rest_length (p : ascii -> bool) (s : string) :
  (String.length (snd (span p s)) <= String.length s)%nat.
Proof.
  induction s as [|c s IH]; simpl; [lia|].
  destruct (p c); simpl; lia.
Qed.

Equations? findall (text : string) : list (string * string)
  by wf (String.length text) lt :=
findall EmptyString := [];
findall (String c rest) :=
  if is_upper c then
    (String c (fst (span is_lower rest)),
     fst (span is_digit (snd (span is_lower rest))))
      :: findall (snd (span is_digit (snd (span is_lower rest))))
  else findall rest.
Proof.
  all: pose proof (span_rest_length is_digit (snd (span is_lower rest)));
    pose proof (span_rest_length is_lower rest); lia.
Qed.

(** ["".join(f"{e}[{c}]" for e, c in constraints)]. *)
Definition join_constraints (constraints : list (string * string)) : string :=
  fold_right (fun ec acc => fst ec ++ "[" ++ snd ec ++ "]" ++ acc) "" constraints.

Definition elemental_constraints (text : string) : string :=
  join_constraints (findall text).

Fixpoint all_chars (p : ascii -> bool) (s : string) : bool :=
  match s with
  | EmptyString => true
  | String c s' => p c && all_chars p s'
  end.

(** An element symbol: an upper-case letter followed by lower-case letters. *)
Definition element_symbol (e : string) : bool :=
  match e with
  | EmptyString => false
  | String c lows => is_upper c && all_chars is_lower lows
  end.

(** An element with its optional count, as written in the free text. *)
Definition constraint_token (ec : string * string) : bool :=
  element_symbol (fst ec) && all_chars is_digit (snd ec).

Definition write_tokens (toks : list (string * string)) : string :=
  fold_right (fun ec acc => fst ec ++ snd ec ++ acc) "" toks.

(** [s] is empty or starts outside the class [p]. *)
Definition stops (p : ascii -> bool) (s : string) : bool :=
  match s with
  | EmptyString => true
  | String c _ => negb (p c)
  end.

Lemma span_append (p : ascii -> bool) (a b : string) :
  all_chars p a = true -> stops p b = true -> span p (a ++ b) = (a, b).
Proof.
  intros Ha Hb. induction a as [|c a IH]; simpl in *.
  - destruct b as [|c b]; simpl in *; [reflexivity|].
    now apply negb_true_iff in Hb as ->.
  - apply andb_true_iff in Ha as [Hc Ha]. rewrite Hc, (IH Ha). reflexivity.
Qed.

Lemma upper_not_lower (c : ascii) : is_upper c = true -> is_lower c = false.
Proof.
  unfold is_upper, is_lower. cbv zeta. intros H.
  apply andb_true_iff in H as [_ H]. apply Nat.leb_le in H.
  apply andb_false_iff. left. apply Nat.leb_gt. lia.
Qed.

Lemma upper_not_digit (c : ascii) : is_upper c = true -> is_digit c = false.
Proof.
  unfold is_upper, is_digit. cbv zeta. intros H.
  apply andb_true_iff in H as [H _]. apply Nat.leb_le in H.
  apply andb_false_iff. right. apply Nat.leb_gt. lia.
Qed.

Lemma digit_not_lower (c : ascii) : is_digit c = true -> is_lower c = false.
Proof.
  unfold is_digit, is_lower. cbv zeta. intros H.
  apply andb_true_iff in H as [_ H]. apply Nat.leb_le in H.
  apply andb_false_iff. left. apply Nat.leb_gt. lia.
Qed.

(** What is written for a list of tokens is empty or starts with an
    upper-case letter. *)
Lemma write_tokens_stops (toks : list (string * string)) :
  forallb constraint_token toks = true ->
  stops is_lower (write_tokens toks) = true /\
  stops is_digit (write_tokens toks) = true.
Proof.
  destruct toks as [|[e c] toks]; simpl; [auto|].
  intros H. apply andb_true_iff in H as [H _].
  apply andb_true_iff in H as [He _]. simpl in He.
  destruct e as [|u lows]; [discriminate|]. simpl.
  apply andb_true_iff in He as [Hu _].
  now rewrite (upper_not_lower _ Hu), (upper_not_digit _ Hu).
Qed.

Lemma digits_then_tokens_stop (ds rest : string) :
  all_chars is_digit ds = true -> stops is_lower rest = true ->
  stops is_lower (ds ++ rest) = true.
Proof.
  intros Hd Hr. destruct ds as [|d ds]; simpl in *; [assumption|].
  apply andb_true_iff in Hd as [Hd _]. now rewrite (digit_not_lower _ Hd).
Qed.

(** Scanning what was written for a list of tokens gives the tokens back. *)
Lemma findall_write_tokens (toks : list (string * string)) :
  forallb constraint_token toks = true -> findall (write_tokens toks) = toks.
Proof.
  induction toks as [|[e c] toks IH]; intros H; [reflexivity|].
  simpl in H. apply andb_true_iff in H as [Hec Htoks].
  apply andb_true_iff in Hec as [He Hc]. simpl in He, Hc.
  destruct e as [|u lows]; [discriminate|].
  simpl in He. apply andb_true_iff in He as [Hu Hl].
  destruct (write_tokens_stops toks Htoks) as [Hsl Hsd].
  simpl. simp findall. rewrite Hu.
  rewrite (span_append is_lower lows (c ++ write_tokens toks) Hl
             (digits_then_tokens_stop _ _ Hc Hsl)).
  simpl. rewrite (span_append is_digit c (write_tokens toks) Hc Hsd).
  simpl. now rewrite (IH Htoks).
Qed.




(** A character at which no element symbol starts is passed over. *)
Lemma findall_skips (c : ascii) (rest : string) :
  is_upper c = false -> findall (String c rest) = findall rest.
Proof.
  intros H. simp findall. now rewrite H.
Qed.

(** *** [_load_features]

    The records of [sirius_features.json], as the function reads them, and
    the feature-import dictionaries it builds. An MS1 spectrum is read for
    its name, level, scan number and the two arrays only. *)

Record raw_spectrum : Type := {
  Name : string;
  MSLevel : Z;
  ScanNumber : Z;
  CollisionEnergies : list float;
  PrecursorMass : float;
  Masses : list float;
  Intensities : list float
}.

Record raw_feature : Type := {
  Mass : float;
  MW : float;
  Charge : Z;
  Adduct : string;
  ApexRT : float;
  ExternalID : Z;
  LeftRT : float;
  RightRT : float;
  MS1Spectrum : raw_spectrum;
  MS2Spectra : list raw_spectrum
}.

Record peak : Type := { mz : float; intensity : float }.

(** [collisionEnergy] and [precursorMz] are keys of an MS2 entry only. *)
Record spectrum_input : Type := {
  sp_name : string;
  sp_msLevel : Z;
  sp_collisionEnergy : option string;
  sp_precursorMz : option float;
  sp_scanNumber : Z;
  sp_peaks : list peak
}.

Record feat_input : Type := {
  in_name : string;
  in_externalFeatureId : string;
  in_ionMass : float;
  in_charge : Z;
  in_detectedAdducts : list string;
  in_rtStartSeconds : float;
  in_rtEndSeconds : float;
  in_mergedMs1 : spectrum_input;
  in_ms2Spectra : list spectrum_input
}.

(** [[{'mz': d[0], 'intensity': d[1]} for d in zip(masses, intensities)]]. *)
Definition make_peaks (masses intensities : list float) : list peak :=
  map (fun d => {| mz := fst d; intensity := snd d |}) (Py.zip masses intensities).

Section LoadFeatures.

(** The decimal renderings of floats are left to Python: [format_fixed n x]
    stands for [f"{x:.nf}"], [str_float x] for [str(x)] and [str_int] for
    [str] of an integer. *)
Variable format_fixed : nat -> float -> string.
Variable str_float : float -> string.
Variable str_int : Z -> string.

Definition ms1_of (s : raw_spectrum) : spectrum_input :=
  {| sp_name := Name s;
     sp_msLevel := MSLevel s;
     sp_collisionEnergy := None;
     sp_precursorMz := None;
     sp_scanNumber := ScanNumber s;
     sp_peaks := make_peaks (Masses s) (Intensities s) |}.

(** One turn of the loop over [feat["MS2Spectra"]]; the subscript [[0]]
    raises on an empty list of collision energies. *)
Definition ms2_of (spectrum : raw_spectrum) : outcome spectrum_input :=
  match CollisionEnergies spectrum with
  | [] => Raise (IndexError "list index out of range")
  | energy :: _ =>
      Return {| sp_name := Name spectrum;
                sp_msLevel := MSLevel spectrum;
                sp_collisionEnergy := Some (str_float energy);
                sp_precursorMz := Some (PrecursorMass spectrum);
                sp_scanNumber := ScanNumber spectrum;
                sp_peaks := make_peaks (Masses spectrum) (Intensities spectrum) |}
  end.

Definition load_feature (feat : raw_feature) : outcome feat_input :=
  let '(mass, charge, adduct) :=
    _normalize_adduct (Mass feat) (MW feat) (Charge feat) (Adduct feat) in
  obind (omap ms2_of (MS2Spectra feat)) (fun ms2 =>
  Return {| in_name := format_fixed 5 (MW feat) ++ "@" ++ format_fixed 3 (ApexRT feat);
            in_externalFeatureId := str_int (ExternalID feat);
            in_ionMass := mass;
            in_charge := charge;
            in_detectedAdducts := [adduct];
            in_rtStartSeconds := (LeftRT feat * 60)%float;
            in_rtEndSeconds := (RightRT feat * 60)%float;
            in_mergedMs1 := ms1_of (MS1Spectrum feat);
            in_ms2Spectra := ms2 |}).

Definition _load_features (features_data : list raw_feature) : outcome (list feat_input) :=
  omap load_feature features_data.

(** [ps] pairs the two arrays position by position, as far as the shorter
    one goes. *)
Definition pairs_positionally (masses intensities : list float) (ps : list peak) : Prop :=
  length ps = Nat.min (length masses) (length intensities) /\
  forall k m i,
    nth_error masses k = Some m -> nth_error intensities k = Some i ->
    nth_error ps k = Some {| mz := m; intensity := i |}.

Definition peaks_of (s : raw_spectrum) (si : spectrum_input) : Prop :=
  pairs_positionally (Masses s) (Intensities s) (sp_peaks si).

Lemma make_peaks_pairs (masses intensities : list float) :
  pairs_positionally masses intensities (make_peaks masses intensities).
Proof.
  unfold pairs_positionally, make_peaks. split.
  - now rewrite length_map, Py.zip_length.
  - revert intensities. induction masses as [|m0 ms IH]; intros [|i0 ints] k m i Hm Hi;
      destruct k; simpl in *; try discriminate.
    + now inversion Hm; inversion Hi.
    + now apply IH.
Qed.

Lemma omap_Forall2 {A B : Type} (f : A -> outcome B) (R : A -> B -> Prop) (xs : list A) :
  (forall x, In x xs -> exists y, f x = Return y /\ R x y) ->
  exists ys, omap f xs = Return ys /\ Forall2 R xs ys.
Proof.
  induction xs as [|x xs IH]; intros H; simpl.
  - exists []. split; [reflexivity | constructor].
  - destruct (H x (or_introl eq_refl)) as [y [Hy HR]].
    destruct IH as [ys [Hys HF]]; [intros x' Hx'; apply H; now right|].
    exists (y :: ys). rewrite Hy; simpl. rewrite Hys; simpl.
    split; [reflexivity | now constructor].
Qed.

Lemma ms2_of_returns (s : raw_spectrum) :
  CollisionEnergies s <> [] -> exists si, ms2_of s = Return si /\ peaks_of s si.
Proof.
  intros H. unfold ms2_of. destruct (CollisionEnergies s) as [|e es]; [congruence|].
  eexists. split; [reflexivity|]. apply make_peaks_pairs.
Qed.

(** C5, as the code has it: the normaliser has no length check. Whatever the
    lengths of the mass and intensity arrays of a spectrum, it returns (the
    one exception it can raise is the subscript error for an MS2 spectrum
    without collision energy), and every peak list pairs the two arrays
    position by position up to the length of the shorter one, leaving out
    the surplus of the longer. *)
Theorem load_features_truncates_peaks (features_data : list raw_feature) :
  (forall feat s, In feat features_data -> In s (MS2Spectra feat) ->
                  CollisionEnergies s <> []) ->
  exists features,
    _load_features features_data = Return features /\
    Forall2 (fun feat fi =>
               peaks_of (MS1Spectrum feat) (in_mergedMs1 fi) /\
               Forall2 peaks_of (MS2Spectra feat) (in_ms2Spectra fi))
            features_data features.
Proof.
  intros H. apply omap_Forall2. intros feat Hfeat.
  unfold load_feature.
  destruct (_normalize_adduct _ _ _ _) as [[mass charge] adduct].
  destruct (omap_Forall2 ms2_of peaks_of (MS2Spectra feat)) as [ms2 [Hms2 HF]].
  { intros s Hs. apply ms2_of_returns. now apply (H feat). }
  rewrite Hms2. simpl. eexists. split; [reflexivity|]. simpl.
  split; [apply make_peaks_pairs | exact HF].
Qed.

End LoadFeatures.

(** A feature whose MS1 spectrum has two masses and one intensity, and
    whose MS2 spectrum has three masses and two intensities. *)
Definition lopsided_spectrum : raw_spectrum :=
  {| Name := "MS1"; MSLevel := 1; ScanNumber := 7;
     CollisionEnergies := []; PrecursorMass := 0%float;
     Masses := [100.5%float; 200.25%float];
     Intensities := [10%float] |}.

Definition lopsided_ms2 : raw_spectrum :=
  {| Name := "MS2"; MSLevel := 2; ScanNumber := 8;
     CollisionEnergies := [35%float]; PrecursorMass := 101.5%float;
     Masses := [50.5%float; 60.25%float; 70.125%float];
     Intensities := [1%float; 2%float] |}.

Definition lopsided_feature : raw_feature :=
  {| Mass := 101.5%float; MW := 100.5%float; Charge := 1; Adduct := "[M+H]+1";
     ApexRT := 1.75%float; ExternalID := 12; LeftRT := 1.5%float; RightRT := 2%float;
     MS1Spectrum := lopsided_spectrum; MS2Spectra := [lopsided_ms2] |}.

Lemma load_features_truncates_peaks_witness :
  exists features,
    _load_features (fun _ _ => "") (fun _ => "") (fun _ => "") [lopsided_feature]
    = Return features /\
    Forall2 (fun feat fi =>
               peaks_of (MS1Spectrum feat) (in_mergedMs1 fi) /\
               Forall2 peaks_of (MS2Spectra feat) (in_ms2Spectra fi))
            [lopsided_feature] features.
Proof.
  apply (load_features_truncates_peaks (fun _ _ => "") (fun _ => "") (fun _ => "")
           [lopsided_feature]).
  intros feat s [<- | []] [<- | []]. discriminate.
Defined.

(** C5 as stated fails: for an MS1 spectrum of two masses and one intensity
    and an MS2 spectrum of three masses and two intensities the normaliser
    raises nothing and returns peak lists of one and of two peaks, whatever
    the functions that render numbers are. *)
Lemma load_features_accepts_unequal_lengths :
  length (Masses lopsided_spectrum) <> length (Intensities lopsided_spectrum) /\
  length (Masses lopsided_ms2) <> length (Intensities lopsided_ms2) /\
  (fun format_fixed str_float str_int =>
     _load_features format_fixed str_float str_int [lopsided_feature])
  = (fun format_fixed str_float str_int =>
       Return
         [ {| in_name := format_fixed 5%nat 100.5%float ++ "@" ++ format_fixed 3%nat 1.75%float;
              in_externalFeatureId := str_int 12%Z;
              in_ionMass := 101.5%float;
              in_charge := 1;
              in_detectedAdducts := ["[M+H]+"];
              in_rtStartSeconds := 90%float;
              in_rtEndSeconds := 120%float;
              in_mergedMs1 :=
                {| sp_name := "MS1"; sp_msLevel := 1;
                   sp_collisionEnergy := None; sp_precursorMz := None;
                   sp_scanNumber := 7;
                   sp_peaks := [ {| mz := 100.5%float; intensity := 10%float |} ] |};
              in_ms2Spectra :=
                [ {| sp_name := "MS2"; sp_msLevel := 2;
                     sp_collisionEnergy := Some (str_float 35%float);
                     sp_precursorMz := Some 101.5%float;
                     sp_scanNumber := 8;
                     sp_peaks := [ {| mz := 50.5%float; intensity := 1%float |};
                                   {| mz := 60.25%float; intensity := 2%float |} ] |} ] |} ]).
Proof.
  split; [simpl; lia|]. split; [simpl; lia | reflexivity].
Qed.

End Node.

(** ** sirius.py: the [Sirius] object

    What the object holds and what it does to the outside: its [_api]
    handle, the log lines it emits, the pauses it takes and the calls it
    makes to the service, in the order they happen. *)

Inductive handle : Type := SiriusApi.

Inductive event : Type :=
| Log (level message : string)
| Progress (progress progress_max : Z)
| Sleep (seconds : Z)
| Remote (call : string).

Record sirius : Type := {
  _api : option handle;
  job_queries : nat;
  trace : list event
}.

Definition new_sirius : sirius :=
  {| _api := None; job_queries := 0; trace := [] |}.

(** An object that holds a handle and has done nothing yet. *)
Definition attached_sirius : sirius :=
  {| _api := Some SiriusApi; job_queries := 0; trace := [] |}.

(** A computation on the object: it may return or raise, and either way
    leaves the object in a new state. *)
Definition M (A : Type) : Type := sirius -> outcome A * sirius.

Definition ret {A : Type} (a : A) : M A := fun s => (Return a, s).

Definition bind {A B : Type} (m : M A) (k : A -> M B) : M B :=
  fun s =>
    match m s with
    | (Return a, s') => k a s'
    | (Raise e, s') => (Raise e, s')
    end.

Definition raise {A : Type} (e : exn) : M A := fun s => (Raise e, s).

(** [try: body except Exception as err: handler(err)]. *)
Definition try_except {A : Type} (body : M A) (handler : exn -> M A) : M A :=
  fun s =>
    match body s with
    | (Return a, s') => (Return a, s')
    | (Raise e, s') => handler e s'
    end.

Declare Scope sirius_scope.
Delimit Scope sirius_scope with sirius.
Notation "x <- m ;; k" := (bind m (fun x => k))
  (at level 61, m at next level, right associativity) : sirius_scope.
Notation "m ;; k" := (bind m (fun _ => k))
  (at level 61, right associativity) : sirius_scope.
Local Open Scope sirius_scope.

Definition emit (e : event) : M unit :=
  fun s => (Return tt,
            {| _api := _api s; job_queries := job_queries s; trace := trace s ++ [e] |}).

(** The object after it has emitted [events]. *)
Definition emitted (s : sirius) (events : list event) : sirius :=
  {| _api := _api s; job_queries := job_queries s; trace := (trace s ++ events)%list |}.

(** [self.log(message, level)]. *)
Definition log (message level : string) : M unit := emit (Log level message).

(** [time.sleep(seconds)]. *)
Definition sleep (seconds : Z) : M unit := emit (Sleep seconds).

(** A call to the service that may come back with an exception. *)
Definition remote {A : Type} (call : string) (answer : outcome A) : M A :=
  emit (Remote call) ;;
  match answer with
  | Return a => ret a
  | Raise e => raise e
  end.

Definition set_api (h : option handle) : M unit :=
  fun s => (Return tt, {| _api := h; job_queries := job_queries s; trace := trace s |}).

Definition get_api : M (option handle) := fun s => (Return (_api s), s).

(** [if x:] on a string and on an optional handle. *)
Definition truthy (x : string) : bool := negb (x =? "")%string.

Definition held (h : option handle) : bool :=
  match h with Some _ => true | None => false end.

(** Runs the monad's own operations and the projections of the object, and
    nothing else. *)
Ltac run_M :=
  cbv beta iota delta
    [bind ret raise emit log sleep remote set_api get_api try_except held
     _api trace job_queries].

(** [SiriusConfig], as far as the session and the harvest read it. *)
Record SiriusConfig : Type := {
  service_path : string;
  service_port : Z;
  account_username : string;
  account_password : string;
  canopus_enabled : bool;
  structure_db_search_enabled : bool;
  structure_db_search_dbs : list string;
  structure_db_search_candidates : Z;
  ms_novelist_enabled : bool;
  ms_novelist_candidates : Z
}.

(** The state a job reports: [progress.state], [progress.current_progress]
    and [progress.max_progress], the two counters being integers. *)
Record job_progress : Type := {
  state : string;
  current_progress : Z;
  max_progress : Z
}.

(** The service as the object meets it: what attaching and starting give
    (a handle, nothing, or an exception), whether an account is logged in,
    how a login and a job submission end, and what the k-th query of the
    job reports. *)
Record service : Type := {
  attach_to_sirius : outcome (option handle);
  start_sirius : outcome (option handle);
  is_logged_in : bool;
  account_login : string -> string -> outcome unit;
  jobs_start_job : outcome Z;
  jobs_get_job : nat -> job_progress
}.

Module Session.

Section WithService.

Variable svc : service.
Variable config : SiriusConfig.

Definition connect : M bool :=
  log "Connecting to SIRIUS service..." "TEMP" ;;
  try_except
    (api <- remote "attach_to_sirius" (attach_to_sirius svc) ;;
     set_api api ;;
     if held api then
       log "Connected to running SIRIUS service." "VERBOSE" ;; ret true
     else
       log "Unable to find running SIRIUS service." "VERBOSE" ;; ret false)
    (fun err => log "Unable to connect to SIRIUS service!" "ERROR" ;; raise err).

Definition start : M bool :=
  log "Starting new SIRIUS service..." "TEMP" ;;
  try_except
    (api <- remote "start_sirius" (start_sirius svc) ;;
     set_api api ;;
     sleep 10 ;;
     if held api then
       log "SIRIUS service started." "VERBOSE" ;; ret true
     else
       log "Unable to start SIRIUS service." "VERBOSE" ;; ret false)
    (fun err => log "Unable to start SIRIUS service!" "ERROR" ;; raise err).

(** [self._api.account()]: an attribute error when no handle is held. *)
Definition account : M unit :=
  api <- get_api ;;
  if held api then ret tt
  else raise (AttributeError "'NoneType' object has no attribute 'account'").

Definition login : M bool :=
  log "Connecting to SIRIUS user account..." "TEMP" ;;
  account ;;
  logged_in <- remote "is_logged_in" (Return (is_logged_in svc)) ;;
  if logged_in then
    log "SIRIUS account already connected." "VERBOSE" ;; ret true
  else if negb (truthy (account_username config)) || negb (truthy (account_password config)) then
    log "SIRIUS account credentials not specified!" "WARNING" ;; ret false
  else
    try_except
      (account ;;
       remote "login" (account_login svc (account_username config) (account_password config)) ;;
       log "SIRIUS account connected." "VERBOSE" ;;
       ret true)
      (fun err => log "Unable to login to SIRIUS account!" "ERROR" ;; raise err).

(** The block of [__enter__], inside [with Silencer(stdout=False,
    stderr=True):]. The [Silencer] works on the descriptors of the process
    and not on the object; [SilencedSession.__enter__] below puts it around
    this block. *)
Definition __enter__ : M unit :=
  connected <- connect ;;
  (if connected then ret tt
   else
     started <- start ;;
     if started then ret tt
     else raise (RuntimeError "Unable to connect or start SIRIUS service!")) ;;
  logged <- login ;;
  if logged then ret tt
  else raise (RuntimeError "Unable to login to SIRIUS account!").

(** What [login] emits when it finds no credentials. *)
Definition login_skipped : list event :=
  [ Log "TEMP" "Connecting to SIRIUS user account...";
    Remote "is_logged_in";
    Log "WARNING" "SIRIUS account credentials not specified!" ].

Definition no_credentials : Prop :=
  account_username config = "" \/ account_password config = "".

(** The service can be reached: a running instance is found, or none is
    found and a new one starts. *)
Definition reachable : Prop :=
  (exists h, attach_to_sirius svc = Return (Some h)) \/
  (attach_to_sirius svc = Return None /\ exists h, start_sirius svc = Return (Some h)).

Lemma no_credentials_test :
  no_credentials ->
  negb (truthy (account_username config)) || negb (truthy (account_password config)) = true.
Proof.
  intros [H | H]; rewrite H; simpl; [reflexivity | apply orb_true_r].
Qed.

Lemma login_without_credentials (s : sirius) (h : handle) :
  no_credentials -> is_logged_in svc = false -> _api s = Some h ->
  login s = (Return false, emitted s login_skipped).
Proof.
  intros Hc Hl Ha. apply no_credentials_test in Hc.
  destruct s as [api q tr]. cbn [_api] in Ha. subst api.
  unfold login, account, emitted. run_M. rewrite Hl, Hc.
  unfold login_skipped. now repeat rewrite <- app_assoc.
Qed.

(** C3, as the code has it: without credentials (user name or password
    empty) and without an account already logged in, [login] issues no
    login call, logs a warning and returns [False]; [__enter__] takes that
    answer for a failure and raises [RuntimeError], so the session is not
    acquired. *)
Theorem enter_without_credentials :
  no_credentials -> is_logged_in svc = false ->
  (forall s h, _api s = Some h ->
     login s = (Return false, emitted s login_skipped)) /\
  (reachable ->
   forall s, exists s',
     __enter__ s = (Raise (RuntimeError "Unable to login to SIRIUS account!"), s') /\
     exists before, trace s' = (trace s ++ before ++ login_skipped)%list /\
                    ~ In (Remote "login") before).
Proof.
  intros Hc Hl. split.
  - intros s h Ha. now apply login_without_credentials with (h := h).
  - intros Hr [api q tr]. unfold __enter__.
    destruct Hr as [[h Hat] | [Hat [h Hst]]].
    + unfold bind at 1. unfold bind at 1.
      unfold connect. run_M. rewrite Hat.
      match goal with |- context [login ?s0] =>
        rewrite (login_without_credentials s0 h Hc Hl eq_refl) end.
      eexists. split; [reflexivity|]. unfold emitted. run_M.
      exists [ Log "TEMP" "Connecting to SIRIUS service...";
               Remote "attach_to_sirius";
               Log "VERBOSE" "Connected to running SIRIUS service." ].
      split; [now repeat rewrite <- app_assoc|].
      intros H. repeat (destruct H as [H | H]; [discriminate|]). exact H.
    + unfold bind at 1. unfold bind at 1.
      unfold connect, start. run_M. rewrite Hat, Hst.
      match goal with |- context [login ?s0] =>
        rewrite (login_without_credentials s0 h Hc Hl eq_refl) end.
      eexists. split; [reflexivity|]. unfold emitted. run_M.
      exists [ Log "TEMP" "Connecting to SIRIUS service...";
               Remote "attach_to_sirius";
               Log "VERBOSE" "Unable to find running SIRIUS service.";
               Log "TEMP" "Starting new SIRIUS service...";
               Remote "start_sirius";
               Sleep 10;
               Log "VERBOSE" "SIRIUS service started." ].
      split; [now repeat rewrite <- app_assoc|].
      intros H. repeat (destruct H as [H | H]; [discriminate|]). exact H.
Qed.

End WithService.

(** The values [SiriusConfig.__init__] sets: no account among them. *)
Definition default_config : SiriusConfig :=
  {| service_path := "C:\Program Files\Sirius\sirius.exe";
     service_port := 8080;
     account_username := "";
     account_password := "";
     canopus_enabled := true;
     structure_db_search_enabled := true;
     structure_db_search_dbs := ["DSSTOX"; "PUBCHEM"; "HMDB"; "KEGG"];
     structure_db_search_candidates := 10;
     ms_novelist_enabled := true;
     ms_novelist_candidates := 10 |}.

(** A service that is running, answers every call and has nobody logged in. *)
Definition anonymous_service : service :=
  {| attach_to_sirius := Return (Some SiriusApi);
     start_sirius := Return (Some SiriusApi);
     is_logged_in := false;
     account_login := fun _ _ => Return tt;
     jobs_start_job := Return 1%Z;
     jobs_get_job := fun _ => {| state := "DONE"; current_progress := 0; max_progress := 0 |} |}.

Lemma enter_without_credentials_witness :
  no_credentials default_config /\ is_logged_in anonymous_service = false /\
  reachable anonymous_service /\
  exists s',
    __enter__ anonymous_service default_config new_sirius
    = (Raise (RuntimeError "Unable to login to SIRIUS account!"), s') /\
    exists before, trace s' = (trace new_sirius ++ before ++ login_skipped)%list /\
                   ~ In (Remote "login") before.
Proof.
  assert (Hc : no_credentials default_config) by (left; reflexivity).
  assert (Hr : reachable anonymous_service) by (left; exists SiriusApi; reflexivity).
  split; [exact Hc|]. split; [reflexivity|]. split; [exact Hr|].
  exact (proj2 (enter_without_credentials anonymous_service default_config Hc eq_refl)
           Hr new_sirius).
Defined.

(** C3 as stated fails: with the default configuration (no credentials) and
    a running service on which nobody is logged in, acquiring the session
    ends in [RuntimeError] right after the warning. *)
Lemma enter_fails_without_credentials :
  __enter__ anonymous_service default_config new_sirius
  = (Raise (RuntimeError "Unable to login to SIRIUS account!"),
     {| _api := Some SiriusApi;
        job_queries := 0;
        trace := [ Log "TEMP" "Connecting to SIRIUS service...";
                   Remote "attach_to_sirius";
                   Log "VERBOSE" "Connected to running SIRIUS service.";
                   Log "TEMP" "Connecting to SIRIUS user account...";
                   Remote "is_logged_in";
                   Log "WARNING" "SIRIUS account credentials not specified!" ] |}).
Proof. reflexivity. Qed.

End Session.

(** *** [start_job]: submission and the polling loop *)

Module Job.

Section WithService.

Variable svc : service.

(** [self._api.jobs()]: an attribute error when no handle is held. *)
Definition jobs : M unit :=
  api <- get_api ;;
  if held api then ret tt
  else raise (AttributeError "'NoneType' object has no attribute 'jobs'").

(** [self._api.jobs().get_job(project_id, submission.id).progress]: one
    query of the job; the service's answer to the k-th query is
    [jobs_get_job svc k]. *)
Definition get_job : M job_progress :=
  jobs ;;
  fun s =>
    (Return (jobs_get_job svc (job_queries s)),
     {| _api := _api s;
        job_queries := S (job_queries s);
        trace := (trace s ++ [Remote "get_job"])%list |}).

(** The [while True] loop. Each turn queries the job three times, for the
    state, the current progress and the maximal progress. The loop has no
    bound of its own: [fuel] bounds the number of turns of the model, and
    [None] is a loop that is still polling when the fuel is spent. The
    progress line, the quotient of the two counters times 100 rendered with
    no decimals, is recorded by its two counters. *)
Fixpoint poll (fuel : nat) : M (option bool) :=
  match fuel with
  | O => ret None
  | S fuel' =>
      state_reply <- get_job ;;
      progress_reply <- get_job ;;
      progress_max_reply <- get_job ;;
      let state := state state_reply in
      let progress := current_progress progress_reply in
      let progress_max := max_progress progress_max_reply in
      (if (progress_max =? 0)%Z then ret tt
       else emit (Progress progress progress_max)) ;;
      if (state =? "DONE")%string then
        log "SIRIUS job completed successfully." "VERBOSE" ;; ret (Some true)
      else if (state =? "CANCELED")%string then
        log "SIRIUS job cancelled." "ERROR" ;; ret (Some false)
      else if (state =? "FAILED")%string then
        log "SIRIUS job failed." "ERROR" ;; ret (Some false)
      else
        sleep 10 ;; poll fuel'
  end.

Definition start_job (fuel : nat) : M (option bool) :=
  log "Submitting SIRIUS job..." "TEMP" ;;
  try_except
    (jobs ;;
     submission <- remote "start_job" (jobs_start_job svc) ;;
     log "SIRIUS job started." "VERBOSE" ;;
     ret submission)
    (fun err => log "Could not submit SIRIUS job!" "ERROR" ;; raise err) ;;
  poll fuel.

(** The states at which the loop returns. *)
Definition terminal (state : string) : bool :=
  (state =? "DONE")%string || (state =? "CANCELED")%string || (state =? "FAILED")%string.

(** The state the loop reads in its k-th turn (from 0), when [from] queries
    of the job were made before the loop: the answer to the first of the
    three queries of that turn. *)
Definition polled_state (from k : nat) : string :=
  state (jobs_get_job svc (from + 3 * k)).

(** The calls to the service and the pauses in a trace, without the log. *)
Definition is_action (e : event) : bool :=
  match e with
  | Remote _ | Sleep _ => true
  | Log _ _ | Progress _ _ => false
  end.

Definition actions (t : list event) : list event := filter is_action t.

(** The progress line of a turn that starts after [q] queries. *)
Definition progress_line (q : nat) : list event :=
  let progress := current_progress (jobs_get_job svc (1 + q)) in
  let progress_max := max_progress (jobs_get_job svc (2 + q)) in
  if (progress_max =? 0)%Z then [] else [Progress progress progress_max].

(** The object after the three queries and the progress line of a turn. *)
Definition queried (s : sirius) : sirius :=
  {| _api := _api s;
     job_queries := 3 + job_queries s;
     trace := (trace s ++ [Remote "get_job"; Remote "get_job"; Remote "get_job"]
                       ++ progress_line (job_queries s))%list |}.

(** What a successful submission emits. *)
Definition submitted : list event :=
  [ Log "TEMP" "Submitting SIRIUS job..."; Remote "start_job";
    Log "VERBOSE" "SIRIUS job started." ].

(** One turn of the loop, on an object that holds a handle. *)
Lemma poll_turn (fuel : nat) (s : sirius) (h : handle) :
  _api s = Some h ->
  poll (S fuel) s =
  let state := state (jobs_get_job svc (job_queries s)) in
  if (state =? "DONE")%string then
    (Return (Some true),
     emitted (queried s) [Log "VERBOSE" "SIRIUS job completed successfully."])
  else if (state =? "CANCELED")%string then
    (Return (Some false), emitted (queried s) [Log "ERROR" "SIRIUS job cancelled."])
  else if (state =? "FAILED")%string then
    (Return (Some false), emitted (queried s) [Log "ERROR" "SIRIUS job failed."])
  else poll fuel (emitted (queried s) [Sleep 10]).
Proof.
  destruct s as [api q tr]. cbn [_api]. intros ->. cbn [poll].
  unfold get_job, jobs, queried, emitted, progress_line.
  run_M. cbv zeta. cbn [Nat.add].
  destruct (max_progress (jobs_get_job svc (S (S q))) =? 0)%Z;
    destruct (state (jobs_get_job svc q) =? "DONE")%string;
    destruct (state (jobs_get_job svc q) =? "CANCELED")%string;
    destruct (state (jobs_get_job svc q) =? "FAILED")%string;
    repeat rewrite <- app_assoc; reflexivity.
Qed.

Lemma polled_state_0 (q : nat) : polled_state q 0 = state (jobs_get_job svc q).
Proof. unfold polled_state. now rewrite Nat.mul_0_r, Nat.add_0_r. Qed.

Lemma polled_state_next (q k : nat) :
  polled_state (3 + q) k = polled_state q (S k).
Proof. unfold polled_state. f_equal. f_equal. lia. Qed.

Lemma not_terminal (state : string) :
  terminal state = false ->
  (state =? "DONE")%string = false /\ (state =? "CANCELED")%string = false /\
  (state =? "FAILED")%string = false.
Proof.
  unfold terminal. intros H.
  apply orb_false_iff in H as [H Hf]. now apply orb_false_iff in H as [Hd Hc].
Qed.

(** The loop returns at the first terminal state it reads. *)
Lemma poll_result (h : handle) (n : nat) :
  forall (s : sirius) (fuel : nat),
    _api s = Some h ->
    (forall k, k < n -> terminal (polled_state (job_queries s) k) = false) ->
    terminal (polled_state (job_queries s) n) = true ->
    n < fuel ->
    fst (poll fuel s)
    = Return (Some (polled_state (job_queries s) n =? "DONE")%string).
Proof.
  induction n as [|n IH]; intros s fuel Hs Hbefore Hn Hfuel;
    (destruct fuel as [|fuel]; [lia|]); rewrite (poll_turn fuel s h Hs); cbv zeta.
  - rewrite polled_state_0 in *. unfold terminal in Hn.
    destruct (state (jobs_get_job svc (job_queries s)) =? "DONE")%string; [reflexivity|].
    destruct (state (jobs_get_job svc (job_queries s)) =? "CANCELED")%string; [reflexivity|].
    destruct (state (jobs_get_job svc (job_queries s)) =? "FAILED")%string; [reflexivity|].
    discriminate.
  - pose proof (Hbefore 0 ltac:(lia)) as H0. rewrite polled_state_0 in H0.
    apply not_terminal in H0 as [Hd [Hc Hf]]. rewrite Hd, Hc, Hf.
    rewrite <- (polled_state_next (job_queries s) n).
    apply (IH (emitted (queried s) [Sleep 10]) fuel).
    + exact Hs.
    + intros k Hk. cbn [emitted queried job_queries]. rewrite polled_state_next.
      apply Hbefore. lia.
    + cbn [emitted queried job_queries]. now rewrite polled_state_next.
    + lia.
Qed.

(** As long as no terminal state is read, the loop goes on. *)
Lemma poll_still_polling (h : handle) (fuel : nat) :
  forall s : sirius,
    _api s = Some h ->
    (forall k, k < fuel -> terminal (polled_state (job_queries s) k) = false) ->
    fst (poll fuel s) = Return None.
Proof.
  induction fuel as [|fuel IH]; intros s Hs Hbefore; [reflexivity|].
  rewrite (poll_turn fuel s h Hs); cbv zeta.
  pose proof (Hbefore 0 ltac:(lia)) as H0. rewrite polled_state_0 in H0.
  apply not_terminal in H0 as [Hd [Hc Hf]]. rewrite Hd, Hc, Hf. apply IH; [exact Hs|].
  intros k Hk. cbn [emitted queried job_queries]. rewrite polled_state_next.
  apply Hbefore. lia.
Qed.

Lemma start_job_submitted (fuel : nat) (s : sirius) (h : handle) (submission : Z) :
  _api s = Some h ->
  jobs_start_job svc = Return submission ->
  start_job fuel s = poll fuel (emitted s submitted).
Proof.
  destruct s as [api q tr]. cbn [_api]. intros -> H.
  unfold start_job, jobs, emitted, submitted.
  run_M. rewrite H. now repeat rewrite <- app_assoc.
Qed.

(** Without a handle nothing is asked of the service: the loop raises the
    attribute error of [self._api.jobs()] at its first query, and
    [start_job] raises it where it would submit the job, after the line of
    the failed submission. *)
Lemma poll_without_handle (fuel : nat) (s : sirius) :
  _api s = None ->
  poll (S fuel) s
  = (Raise (AttributeError "'NoneType' object has no attribute 'jobs'"), s).
Proof.
  destruct s as [api q tr]. cbn [_api]. intros ->. cbn [poll]. unfold get_job, jobs.
  run_M. reflexivity.
Qed.

Lemma start_job_without_handle (fuel : nat) (s : sirius) :
  _api s = None ->
  start_job fuel s
  = (Raise (AttributeError "'NoneType' object has no attribute 'jobs'"),
     emitted s [ Log "TEMP" "Submitting SIRIUS job...";
                 Log "ERROR" "Could not submit SIRIUS job!" ]).
Proof.
  destruct s as [api q tr]. cbn [_api]. intros ->. unfold start_job, jobs, emitted.
  run_M. now repeat rewrite <- app_assoc.
Qed.

(** C6: on an object that holds a handle, once the job is submitted, the
    loop returns at the first terminal state it reads, say in turn [n]: it
    returns [True] when that state is [DONE] and [False] when it is
    [CANCELED] or [FAILED], and it raises nothing; every number of turns
    above [n] gives this result. While no terminal state is read the loop
    does not return. *)
Theorem start_job_result (s : sirius) (h : handle) (submission : Z) (fuel : nat) :
  _api s = Some h ->
  jobs_start_job svc = Return submission ->
  (forall n,
     (forall k, k < n -> terminal (polled_state (job_queries s) k) = false) ->
     terminal (polled_state (job_queries s) n) = true ->
     n < fuel ->
     fst (start_job fuel s)
     = Return (Some (polled_state (job_queries s) n =? "DONE")%string)) /\
  ((forall k, k < fuel -> terminal (polled_state (job_queries s) k) = false) ->
   fst (start_job fuel s) = Return None).
Proof.
  intros Hs Hsub. rewrite (start_job_submitted fuel s h submission Hs Hsub). split.
  - intros n Hbefore Hn Hfuel. now apply (poll_result h n (emitted s submitted) fuel).
  - intros Hbefore. now apply (poll_still_polling h fuel (emitted s submitted)).
Qed.

Lemma actions_app (t u : list event) : actions (t ++ u) = (actions t ++ actions u)%list.
Proof. apply filter_app. Qed.

Lemma actions_progress_line (q : nat) : actions (progress_line q) = [].
Proof.
  unfold progress_line. cbv zeta.
  now destruct (max_progress (jobs_get_job svc (2 + q)) =? 0)%Z.
Qed.

Lemma actions_queried (s : sirius) :
  actions (trace (queried s))
  = (actions (trace s) ++ [Remote "get_job"; Remote "get_job"; Remote "get_job"])%list.
Proof.
  unfold queried. cbn [trace].
  now rewrite !actions_app, actions_progress_line, app_nil_r.
Qed.

(** C4, as the code has it, on an object that holds a handle: when the
    states read in three turns in a row are [RUNNING], [RUNNING] and
    [DONE], the loop returns [True] in the third turn. Each turn queries
    the job three times, so the job was queried nine times, with one pause
    of 10 between two turns; [DONE] is the answer to the seventh query, and
    the eighth and ninth follow it. Nothing is called after the return. *)
Theorem start_job_running_running_done (s : sirius) (h : handle) (submission : Z)
  (fuel : nat) :
  _api s = Some h ->
  jobs_start_job svc = Return submission ->
  polled_state (job_queries s) 0 = "RUNNING" ->
  polled_state (job_queries s) 1 = "RUNNING" ->
  polled_state (job_queries s) 2 = "DONE" ->
  3 <= fuel ->
  exists s',
    start_job fuel s = (Return (Some true), s') /\
    job_queries s' = 9 + job_queries s /\
    actions (trace s') =
      (actions (trace s) ++
       [ Remote "start_job";
         Remote "get_job"; Remote "get_job"; Remote "get_job"; Sleep 10;
         Remote "get_job"; Remote "get_job"; Remote "get_job"; Sleep 10;
         Remote "get_job"; Remote "get_job"; Remote "get_job" ])%list.
Proof.
  intros Hs Hsub H0 H1 H2 Hfuel.
  rewrite (start_job_submitted fuel s h submission Hs Hsub).
  destruct fuel as [|[|[|fuel]]]; try lia.
  rewrite <- polled_state_next in H1. do 2 rewrite <- polled_state_next in H2.
  rewrite polled_state_0 in H0, H1, H2.
  rewrite (poll_turn _ _ h) by exact Hs. cbv zeta.
  replace (job_queries (emitted s submitted)) with (job_queries s) by reflexivity.
  rewrite H0. cbn [String.eqb Ascii.eqb Bool.eqb].
  rewrite (poll_turn _ _ h) by exact Hs. cbv zeta.
  replace (job_queries (emitted (queried (emitted s submitted)) [Sleep 10]))
    with (3 + job_queries s) by reflexivity.
  rewrite H1. cbn [String.eqb Ascii.eqb Bool.eqb].
  rewrite (poll_turn _ _ h) by exact Hs. cbv zeta.
  replace (job_queries
             (emitted (queried (emitted (queried (emitted s submitted)) [Sleep 10]))
                [Sleep 10]))
    with (3 + (3 + job_queries s)) by reflexivity.
  rewrite H2. cbn [String.eqb Ascii.eqb Bool.eqb].
  eexists. split; [reflexivity|]. split; [reflexivity|].
  cbn [emitted trace]. rewrite !actions_app, actions_queried.
  cbn [emitted trace]. rewrite !actions_app, actions_queried.
  cbn [emitted trace]. rewrite !actions_app, actions_queried.
  cbn [emitted trace]. rewrite !actions_app.
  cbn [actions filter is_action submitted]. rewrite <- !app_assoc. reflexivity.
Qed.

End WithService.

(** A service whose k-th answer to a query of the job carries the k-th
    state of [states], and [DONE] once the list is used up. *)
Definition answering (states : list string) : service :=
  {| attach_to_sirius := Return (Some SiriusApi);
     start_sirius := Return (Some SiriusApi);
     is_logged_in := true;
     account_login := fun _ _ => Return tt;
     jobs_start_job := Return 1%Z;
     jobs_get_job := fun k =>
       {| state := nth k states "DONE"; current_progress := 0; max_progress := 0 |} |}.

(** A service whose job is in the k-th state of [states] during the k-th
    turn of the loop: three answers in a row carry the same state. *)
Definition answering_per_turn (states : list string) : service :=
  {| attach_to_sirius := Return (Some SiriusApi);
     start_sirius := Return (Some SiriusApi);
     is_logged_in := true;
     account_login := fun _ _ => Return tt;
     jobs_start_job := Return 1%Z;
     jobs_get_job := fun k =>
       {| state := nth (k / 3) states "DONE"; current_progress := 0; max_progress := 0 |} |}.

(** C4 as stated fails. When the successive answers of the service carry
    [RUNNING], [RUNNING], [DONE], the loop returns after six queries in two
    turns: it reads [DONE] in the fourth answer and still makes two more
    queries. When the job keeps each state for a whole turn, the loop returns
    after nine queries. In neither case is it three queries, and in both two
    queries follow the one that reported [DONE]. *)
Lemma start_job_queries_thrice_per_turn :
  start_job (answering ["RUNNING"; "RUNNING"; "DONE"]) 5 attached_sirius
  = (Return (Some true),
     {| _api := Some SiriusApi;
        job_queries := 6;
        trace := [ Log "TEMP" "Submitting SIRIUS job...";
                   Remote "start_job";
                   Log "VERBOSE" "SIRIUS job started.";
                   Remote "get_job"; Remote "get_job"; Remote "get_job";
                   Sleep 10;
                   Remote "get_job"; Remote "get_job"; Remote "get_job";
                   Log "VERBOSE" "SIRIUS job completed successfully." ] |}) /\
  start_job (answering_per_turn ["RUNNING"; "RUNNING"; "DONE"]) 5 attached_sirius
  = (Return (Some true),
     {| _api := Some SiriusApi;
        job_queries := 9;
        trace := [ Log "TEMP" "Submitting SIRIUS job...";
                   Remote "start_job";
                   Log "VERBOSE" "SIRIUS job started.";
                   Remote "get_job"; Remote "get_job"; Remote "get_job";
                   Sleep 10;
                   Remote "get_job"; Remote "get_job"; Remote "get_job";
                   Sleep 10;
                   Remote "get_job"; Remote "get_job"; Remote "get_job";
                   Log "VERBOSE" "SIRIUS job completed successfully." ] |}).
Proof. split; vm_compute; reflexivity. Qed.

Lemma start_job_running_running_done_witness :
  exists s',
    start_job (answering_per_turn ["RUNNING"; "RUNNING"; "DONE"]) 3 attached_sirius
    = (Return (Some true), s') /\
    job_queries s' = 9 /\
    actions (trace s') =
       [ Remote "start_job";
         Remote "get_job"; Remote "get_job"; Remote "get_job"; Sleep 10;
         Remote "get_job"; Remote "get_job"; Remote "get_job"; Sleep 10;
         Remote "get_job"; Remote "get_job"; Remote "get_job" ].
Proof.
  exact (start_job_running_running_done
           (answering_per_turn ["RUNNING"; "RUNNING"; "DONE"]) attached_sirius SiriusApi
           1%Z 3 eq_refl eq_refl eq_refl eq_refl eq_refl (le_n 3)).
Defined.

Lemma start_job_result_witness :
  fst (start_job (answering_per_turn ["RUNNING"; "FAILED"]) 2 attached_sirius)
  = Return (Some false) /\
  fst (start_job (answering_per_turn ["RUNNING"; "RUNNING"; "DONE"]) 2 attached_sirius)
  = Return None.
Proof.
  split.
  - apply (proj1 (start_job_result (answering_per_turn ["RUNNING"; "FAILED"])
                    attached_sirius SiriusApi 1%Z 2 eq_refl eq_refl) 1).
    + intros k Hk. assert (k = 0) as -> by lia. reflexivity.
    + reflexivity.
    + lia.
  - apply (proj2 (start_job_result (answering_per_turn ["RUNNING"; "RUNNING"; "DONE"])
                    attached_sirius SiriusApi 1%Z 2 eq_refl eq_refl)).
    intros k Hk. destruct k as [|[|k]]; [reflexivity | reflexivity | lia].
Defined.

End Job.

(** ** pandas, as far as the harvest uses it

    A frame is the list of its rows, each under its index label. The frames
    of the harvest are built from lists of dictionaries and so start with
    the labels 0, 1, 2, ... *)

Module Pandas.

Definition frame (R : Type) : Type := list (nat * R).

Definition index {R : Type} (df : frame R) : list nat := map fst df.

Definition rows {R : Type} (df : frame R) : list R := map snd df.

(** [pandas.DataFrame.from_dict(records)] and [pandas.DataFrame(records)]. *)
Definition from_dict {R : Type} (records : list R) : frame R :=
  combine (seq 0 (length records)) records.

(** [df.empty]. *)
Definition empty {R : Type} (df : frame R) : bool :=
  match df with [] => true | _ :: _ => false end.

(** [df[mask]]: the rows that satisfy the mask, under their labels. *)
Definition where_ {R : Type} (mask : R -> bool) (df : frame R) : frame R :=
  filter (fun lr => mask (snd lr)) df.

(** [df.drop(labels)]: every row whose label is listed goes. *)
Definition drop {R : Type} (labels : list nat) (df : frame R) : frame R :=
  filter (fun lr => negb (existsb (Nat.eqb (fst lr)) labels)) df.

(** [df[column] = value] and the renaming of columns, row by row. *)
Definition assign {R S : Type} (f : R -> S) (df : frame R) : frame S :=
  map (fun lr => (fst lr, f (snd lr))) df.

Fixpoint lookup {R : Type} (label : nat) (df : frame R) : option R :=
  match df with
  | [] => None
  | (l, r) :: df' => if Nat.eqb l label then Some r else lookup label df'
  end.

(** [pandas.concat([left, right], axis=1)]: the rows of the two frames are
    put side by side label by label; a label that only one frame has gives a
    row whose other side is missing. The labels of [left] come first, in
    their order (pandas versions differ in where they put the others). *)
Definition concat_columns {A B : Type} (left : frame A) (right : frame B)
  : frame (option A * option B) :=
  (map (fun la => (fst la, (Some (snd la), lookup (fst la) right))) left
   ++ map (fun lb => (fst lb, (None, Some (snd lb))))
        (filter (fun lb => negb (existsb (Nat.eqb (fst lb)) (index left))) right))%list.

(** What the harvest hands to [pandas.concat]: a frame, [None], or, from
    [_retrieve_formulas], the tuple [(None, None)]. *)
Inductive pyval (A : Type) : Type :=
| PyNone
| PyNonePair
| PyFrame (df : A).
Arguments PyNone {A}.
Arguments PyNonePair {A}.
Arguments PyFrame {A} df.

(** [x is not None]. *)
Definition is_not_None {A : Type} (x : pyval A) : bool :=
  match x with PyNone => false | _ => true end.

Definition not_a_frame : string :=
  "cannot concatenate object of type '<class 'tuple'>'; only Series and DataFrame objs are valid".

Fixpoint frames_of {R : Type} (objs : list (pyval (frame R))) : outcome (list (frame R)) :=
  match objs with
  | [] => Return []
  | PyNone :: objs' => frames_of objs'
  | PyNonePair :: _ => Raise (TypeError not_a_frame)
  | PyFrame df :: objs' => obind (frames_of objs') (fun dfs => Return (df :: dfs))
  end.

(** [pandas.concat(objs, ignore_index=True)]: entries that are [None] are
    passed over, any other entry that is no frame is a type error, and the
    rows of the frames follow each other under fresh labels. *)
Definition concat {R : Type} (objs : list (pyval (frame R))) : outcome (frame R) :=
  match objs with
  | [] => Raise (ValueError "No objects to concatenate")
  | _ =>
      if forallb (fun x => negb (is_not_None x)) objs then
        Raise (ValueError "All objects passed were None")
      else obind (frames_of objs) (fun dfs => Return (from_dict (flat_map rows dfs)))
  end.

End Pandas.

(** ** sirius.py: the result harvester and the table finaliser

    The harvest of a run without fingerprint persistence
    ([fingerprint_prediction_save] is [False], its default): the branch of
    [_retrieve_formulas] that stores the top fingerprint is not taken and
    [_retrieve_fingerprints] returns [(None, None)]. The conversions of id
    and rank columns to nullable integers act on integers here and change
    nothing. *)

Module Harvest.

Import Pandas.

(** *** What the service delivers *)

Record class_node : Type := {
  node_id : Z;
  node_name : string;
  node_level : string;
  node_levelIndex : Z;
  node_description : string;
  node_probability : float
}.

(** A formula candidate; [compoundClasses] stands for the lineage
    [compoundClasses['classyFireLineage']] when classes were predicted.
    [get_formula_candidates] answers per feature and list of optional
    fields. *)
Record formula_candidate : Type := {
  formulaId : Z;
  molecularFormula : string;
  adduct : string;
  rank : Z;
  siriusScore : float;
  medianMassDeviation_ppm : float;
  compoundClasses : option (list class_node)
}.

Record db_link : Type := { link_name : string; link_id : string }.

Record structure_candidate : Type := {
  sc_formulaId : Z;
  sc_molecularFormula : string;
  sc_inchiKey : string;
  sc_smiles : string;
  sc_structureName : string;
  sc_rank : Z;
  sc_adduct : string;
  sc_dbLinks : list db_link
}.

Record formula_annotation_t : Type := {
  formula_id : Z;
  molecular_formula : string;
  sirius_score : float
}.

Record structure_annotation_t : Type := {
  structure_name : string;
  inchi_key : string;
  csi_score : float;
  tanimoto_similarity : float
}.

(** [classy_fire_lineage] is [None] also when there is no compound class
    annotation at all. *)
Record top_annotations_t : Type := {
  formula_annotation : option formula_annotation_t;
  structure_annotation : option structure_annotation_t;
  classy_fire_lineage : option (list class_node);
  confidence_exact_match : option float;
  confidence_approx_match : option float
}.

Record aligned_feature : Type := {
  external_feature_id : Z;
  feature_name : string;
  top_annotations : top_annotations_t
}.

Record api : Type := {
  get_aligned_features : list string;
  get_aligned_feature : string -> aligned_feature;
  get_formula_candidates : string -> list string -> list formula_candidate;
  get_structure_candidates : string -> list structure_candidate;
  get_de_novo_structure_candidates : string -> list structure_candidate
}.

(** The switches of the job that [init_job] sets from the configuration. *)
Record job : Type := {
  structure_db_search_params_enabled : bool;
  canopus_params_enabled : bool;
  ms_novelist_params_enabled : bool
}.

Definition init_job (config : SiriusConfig) : job :=
  {| structure_db_search_params_enabled := structure_db_search_enabled config;
     canopus_params_enabled :=
       if structure_db_search_enabled config then canopus_enabled config else false;
     ms_novelist_params_enabled :=
       if structure_db_search_enabled config then ms_novelist_enabled config else false |}.

(** *** The rows of the result tables *)

(** A missing value stands for the empty string of [_retrieve_annotation]
    as well as for what [_finalize_annotations] makes of it. *)
Record annotation : Type := {
  a_ExternalID : Z;
  a_FeatureName : string;
  a_Formula : string;
  a_FormulaScore : option float;
  a_CSIFingerIDName : string;
  a_CSIFingerIDInChIKey : string;
  a_CSIFingerIDScore : option float;
  a_CSIFingerIDTanimotoSimilarity : option float;
  a_CSIFingerIDConfidenceExact : option float;
  a_CSIFingerIDConfidenceApprox : option float;
  a_ClassyFireLevels : list string
}.

Record formula_row : Type := {
  f_ExternalID : Z;
  f_SiriusFormulaID : Z;
  f_Formula : string;
  f_Adduct : string;
  f_Rank : Z;
  f_SiriusScore : float;
  f_MS2ErrorPpm : float
}.

Record class_row : Type := {
  c_ExternalID : Z;
  c_SiriusFormulaID : Z;
  c_TreeID : Z;
  c_ClassID : Z;
  c_Name : string;
  c_Level : string;
  c_LevelIndex : Z;
  c_Description : string;
  c_Probability : float
}.

Record structure_columns : Type := {
  s_ExternalID : Z;
  s_SiriusFormulaID : Z;
  s_Formula : string;
  s_InChIKey : string;
  s_SMILES : string;
  s_Name : string;
  s_Rank : Z;
  s_Adduct : string
}.

(** A row of a structure table: the columns of the candidate and the
    columns of the database ids, either of which is missing when the two
    frames that were put side by side did not share the label. *)
Definition structure_row : Type :=
  (option structure_columns * option (list (string * option string)))%type.

(** *** [_retrieve_annotation] *)

Definition level_name (lineage : option (list class_node)) (i : nat) : string :=
  match lineage with
  | None => ""
  | Some nodes =>
      match nth_error nodes i with
      | Some node => node_name node
      | None => ""
      end
  end.

Definition _retrieve_annotation (ext_id : Z) (feat : aligned_feature)
  (top : formula_annotation_t) : annotation :=
  let structure := structure_annotation (top_annotations feat) in
  let lineage := classy_fire_lineage (top_annotations feat) in
  {| a_ExternalID := ext_id;
     a_FeatureName := feature_name feat;
     a_Formula := molecular_formula top;
     a_FormulaScore := Some (sirius_score top);
     a_CSIFingerIDName :=
       match structure with Some sa => structure_name sa | None => "" end;
     a_CSIFingerIDInChIKey :=
       match structure with Some sa => inchi_key sa | None => "" end;
     a_CSIFingerIDScore := option_map csi_score structure;
     a_CSIFingerIDTanimotoSimilarity := option_map tanimoto_similarity structure;
     a_CSIFingerIDConfidenceExact :=
       match structure with
       | Some _ => confidence_exact_match (top_annotations feat)
       | None => None
       end;
     a_CSIFingerIDConfidenceApprox :=
       match structure with
       | Some _ => confidence_approx_match (top_annotations feat)
       | None => None
       end;
     a_ClassyFireLevels := map (level_name lineage) (seq 0 6) |}.

(** *** [_retrieve_formulas]

    On an empty frame the function returns the tuple [(None, None)]. *)
Definition _retrieve_formulas (ext_id : Z) (candidates : list formula_candidate)
  : pyval (frame formula_row) :=
  let candidates_df := from_dict candidates in
  if empty candidates_df then PyNonePair
  else
    PyFrame
      (assign (fun c => {| f_ExternalID := ext_id;
                           f_SiriusFormulaID := formulaId c;
                           f_Formula := molecularFormula c;
                           f_Adduct := adduct c;
                           f_Rank := rank c;
                           f_SiriusScore := siriusScore c;
                           f_MS2ErrorPpm := medianMassDeviation_ppm c |})
              candidates_df).

(** *** [_retrieve_classes]

    The loop over the candidates, with the one-cell list [tree_id] as a
    counter that goes in and comes out. The frame of an empty lineage has
    none of the columns that are dropped next, so the drop raises. *)
Definition class_table (ext_id : Z) (cmpd_class : formula_candidate)
  (lineage : list class_node) (tree_id : Z) : frame class_row :=
  assign (fun node => {| c_ExternalID := ext_id;
                         c_SiriusFormulaID := formulaId cmpd_class;
                         c_TreeID := tree_id;
                         c_ClassID := node_id node;
                         c_Name := node_name node;
                         c_Level := node_level node;
                         c_LevelIndex := node_levelIndex node;
                         c_Description := node_description node;
                         c_Probability := node_probability node |})
         (from_dict lineage).

Fixpoint classes_loop (ext_id : Z) (candidates_dicts : list formula_candidate)
  (tree_id : Z) : outcome (list (frame class_row)) * Z :=
  match candidates_dicts with
  | [] => (Return [], tree_id)
  | cmpd_class :: rest =>
      match compoundClasses cmpd_class with
      | None => classes_loop ext_id rest tree_id
      | Some lineage =>
          let cmpd_class_df := class_table ext_id cmpd_class lineage tree_id in
          let tree_id := (tree_id + 1)%Z in
          if empty cmpd_class_df then
            (Raise (KeyError "['type', 'index', 'parentId', 'parentName'] not found in axis"),
             tree_id)
          else
            match classes_loop ext_id rest tree_id with
            | (Return classes, tree_id') => (Return (cmpd_class_df :: classes), tree_id')
            | (Raise e, tree_id') => (Raise e, tree_id')
            end
      end
  end.

Definition _retrieve_classes (enabled : bool) (ext_id : Z)
  (candidates_dicts : list formula_candidate) (tree_id : Z)
  : outcome (option (list (frame class_row))) * Z :=
  if negb enabled then (Return None, tree_id)
  else
    match candidates_dicts with
    | [] => (Return None, tree_id)
    | _ =>
        match classes_loop ext_id candidates_dicts tree_id with
        | (Return classes, tree_id') => (Return (Some classes), tree_id')
        | (Raise e, tree_id') => (Raise e, tree_id')
        end
    end.

(** *** [_retrieve_db_ids], [_retrieve_structures] and [_retrieve_denovo] *)

(** [ids[key] = value] on a dictionary kept in insertion order. *)
Fixpoint dict_set {V : Type} (key : string) (value : V) (d : list (string * V))
  : list (string * V) :=
  match d with
  | [] => [(key, value)]
  | (k, v) :: d' =>
      if (k =? key)%string then (k, value) :: d' else (k, v) :: dict_set key value d'
  end.

Definition db_ids (dbs : list string) (links : list db_link)
  : list (string * option string) :=
  fold_left
    (fun ids db_name =>
       let db_name := Py.upper db_name in
       let db_id := find (fun d => (Py.upper (link_name d) =? db_name)%string) links in
       dict_set db_name (option_map link_id db_id) ids)
    dbs [].

Definition _retrieve_db_ids (dbs : list string) (candidates_df : frame (Z * structure_candidate))
  : list (list (string * option string)) :=
  map (fun row => db_ids dbs (sc_dbLinks (snd row))) (rows candidates_df).

Definition structure_columns_of (row : Z * structure_candidate) : structure_columns :=
  {| s_ExternalID := fst row;
     s_SiriusFormulaID := sc_formulaId (snd row);
     s_Formula := sc_molecularFormula (snd row);
     s_InChIKey := sc_inchiKey (snd row);
     s_SMILES := sc_smiles (snd row);
     s_Name := sc_structureName (snd row);
     s_Rank := sc_rank (snd row);
     s_Adduct := sc_adduct (snd row) |}.

(** [candidates_df.drop(candidates_df[candidates_df['rank'] > max_rank].index)]. *)
Definition limit_rank (max_rank : Z) (candidates_df : frame structure_candidate)
  : frame structure_candidate :=
  drop (index (where_ (fun c => (sc_rank c >? max_rank)%Z) candidates_df)) candidates_df.

(** The body that the two functions share, from the frame of candidates to
    the returned table. *)
Definition structure_table (max_rank : Z) (dbs : list string) (ext_id : Z)
  (candidates : list structure_candidate) : pyval (frame structure_row) :=
  let candidates_df := from_dict candidates in
  if empty candidates_df then PyNone
  else
    let candidates_df := limit_rank max_rank candidates_df in
    let candidates_df := assign (fun c => (ext_id, c)) candidates_df in
    let db_links := _retrieve_db_ids dbs candidates_df in
    let link_df := from_dict db_links in
    let candidates_df := concat_columns candidates_df link_df in
    PyFrame (assign (fun row => (option_map structure_columns_of (fst row), snd row))
                    candidates_df).

Definition _retrieve_structures (config : SiriusConfig) (job : job) (ext_id : Z)
  (candidates : list structure_candidate) : pyval (frame structure_row) :=
  if negb (structure_db_search_params_enabled job) then PyNone
  else structure_table (structure_db_search_candidates config)
         (structure_db_search_dbs config) ext_id candidates.

Definition _retrieve_denovo (config : SiriusConfig) (job : job) (ext_id : Z)
  (candidates : list structure_candidate) : pyval (frame structure_row) :=
  if negb (ms_novelist_params_enabled job) then PyNone
  else structure_table (ms_novelist_candidates config)
         (structure_db_search_dbs config) ext_id candidates.

(** *** [retrieve_results]: the loop over the features *)

(** The buffers of the loop and the counter [class_tree_id]. *)
Record buffers : Type := {
  annotations : list annotation;
  formulas : list (pyval (frame formula_row));
  structures : list (pyval (frame structure_row));
  classes : list (frame class_row);
  denovo : list (pyval (frame structure_row));
  class_tree_id : Z
}.

Definition init_buffers : buffers :=
  {| annotations := []; formulas := []; structures := []; classes := [];
     denovo := []; class_tree_id := 1 |}.

(** [if table is not None: buffer.append(table)]. *)
Definition append_table {A : Type} (buffer : list (pyval A)) (table : pyval A)
  : list (pyval A) :=
  if is_not_None table then (buffer ++ [table])%list else buffer.

Section WithRun.

Variable config : SiriusConfig.
Variable job : job.
Variable api : api.

(** One turn of the loop. The top annotation is appended before the
    candidates are fetched; nothing changes it afterwards in a run without
    fingerprint persistence. *)
Definition harvest_feature (b : buffers) (feat_id : string) : outcome buffers :=
  let feature := get_aligned_feature api feat_id in
  match formula_annotation (top_annotations feature) with
  | None => Return b
  | Some top =>
      let ext_id := external_feature_id feature in
      let top_annotation := _retrieve_annotation ext_id feature top in
      let table :=
        _retrieve_formulas ext_id
          (get_formula_candidates api feat_id ["statistics"; "predictedFingerprint"]) in
      match _retrieve_classes (canopus_params_enabled job) ext_id
              (get_formula_candidates api feat_id ["compoundClasses"])
              (class_tree_id b) with
      | (Raise e, _) => Raise e
      | (Return tables, tree_id) =>
          Return
            {| annotations := (annotations b ++ [top_annotation])%list;
               formulas := append_table (formulas b) table;
               classes :=
                 match tables with
                 | Some tables => (classes b ++ tables)%list
                 | None => classes b
                 end;
               structures :=
                 append_table (structures b)
                   (_retrieve_structures config job ext_id
                      (get_structure_candidates api feat_id));
               denovo :=
                 append_table (denovo b)
                   (_retrieve_denovo config job ext_id
                      (get_de_novo_structure_candidates api feat_id));
               class_tree_id := tree_id |}
      end
  end.

Fixpoint harvest_loop (feature_ids : list string) (b : buffers) : outcome buffers :=
  match feature_ids with
  | [] => Return b
  | feat_id :: rest => obind (harvest_feature b feat_id) (harvest_loop rest)
  end.

Definition harvest : outcome buffers :=
  harvest_loop (get_aligned_features api) init_buffers.

End WithRun.

(** *** The table finaliser *)

Record results : Type := {
  SiriusTopAnnotations : option (frame annotation);
  SiriusFormulas : option (frame formula_row);
  SiriusClasses : option (frame class_row);
  SiriusStructures : option (frame structure_row);
  SiriusDeNovoStructures : option (frame structure_row);
  SiriusFingerprints : option (frame (list float));
  SiriusFingerprintDefinitions : option (frame string)
}.

(** [table.replace([numpy.inf, -numpy.inf], numpy.nan)] on one cell. *)
Definition no_infinity (x : option float) : option float :=
  match x with
  | Some v => if is_infinity v then None else Some v
  | None => None
  end.

(** The range of the 64-bit signed integers of [Int64]. *)
Definition in_int64 (v : Z) : bool := (- 2 ^ 63 <=? v)%Z && (v <? 2 ^ 63)%Z.

(** [table[column] = table[column].astype('Int64')]. A row that has no
    value in the column keeps none. The values are integers already, so
    the cast changes none of them; it raises when one of them lies outside
    the range. What pandas raises there goes by the values of the whole
    column, a [TypeError] for a column of unsigned 64-bit numbers and an
    [OverflowError] beyond; the model has the second for both. *)
Definition astype_Int64 {R : Type} (column : R -> option Z) (table : frame R)
  : outcome (frame R) :=
  if forallb (fun row => match column row with
                         | Some v => in_int64 v
                         | None => true
                         end) (rows table)
  then Return table
  else Raise (OverflowError "Python int too large to convert to C long").

Fixpoint astype_Int64_each {R : Type} (columns : list (R -> option Z)) (table : frame R)
  : outcome (frame R) :=
  match columns with
  | [] => Return table
  | column :: rest => obind (astype_Int64 column table) (astype_Int64_each rest)
  end.

Definition _finalize_annotations (annotations : list annotation)
  : outcome (option (frame annotation)) :=
  match annotations with
  | [] => Return None
  | _ =>
      obind (astype_Int64 (fun a => Some (a_ExternalID a)) (from_dict annotations))
        (fun table => Return
           (Some (assign (fun a =>
                      {| a_ExternalID := a_ExternalID a;
                         a_FeatureName := a_FeatureName a;
                         a_Formula := a_Formula a;
                         a_FormulaScore := no_infinity (a_FormulaScore a);
                         a_CSIFingerIDName := a_CSIFingerIDName a;
                         a_CSIFingerIDInChIKey := a_CSIFingerIDInChIKey a;
                         a_CSIFingerIDScore := no_infinity (a_CSIFingerIDScore a);
                         a_CSIFingerIDTanimotoSimilarity :=
                           no_infinity (a_CSIFingerIDTanimotoSimilarity a);
                         a_CSIFingerIDConfidenceExact :=
                           no_infinity (a_CSIFingerIDConfidenceExact a);
                         a_CSIFingerIDConfidenceApprox :=
                           no_infinity (a_CSIFingerIDConfidenceApprox a);
                         a_ClassyFireLevels := a_ClassyFireLevels a |})
                   table)))
  end.

(** [if not items: return None], then [pandas.concat(items, ignore_index=True)]
    and the cast of the listed columns to [Int64], one after the other. *)
Definition finalize_table {R : Type} (columns : list (R -> option Z))
  (items : list (pyval (frame R))) : outcome (option (frame R)) :=
  match items with
  | [] => Return None
  | _ =>
      obind (concat items) (fun table =>
      obind (astype_Int64_each columns table) (fun table =>
      Return (Some table)))
  end.

(** The columns that [_finalize_formulas] and [_finalize_classes] cast. *)
Definition formula_int_columns : list (formula_row -> option Z) :=
  [ fun row => Some (f_SiriusFormulaID row);
    fun row => Some (f_ExternalID row);
    fun row => Some (f_Rank row) ].

Definition class_int_columns : list (class_row -> option Z) :=
  [ fun row => Some (c_SiriusFormulaID row);
    fun row => Some (c_ExternalID row);
    fun row => Some (c_ClassID row) ].

Definition _finalize_formulas (formulas : list (pyval (frame formula_row)))
  : outcome (option (frame formula_row)) :=
  finalize_table formula_int_columns formulas.

Definition _finalize_classes (classes : list (frame class_row))
  : outcome (option (frame class_row)) :=
  finalize_table class_int_columns (map PyFrame classes).

(** The integer columns of a structure table belong to the candidate
    columns of a row, and are missing with them. *)
Definition structure_int_columns : list (structure_row -> option Z) :=
  [ fun row => option_map s_SiriusFormulaID (fst row);
    fun row => option_map s_ExternalID (fst row);
    fun row => option_map s_Rank (fst row) ].

Definition _finalize_structures (structures : list (pyval (frame structure_row)))
  : outcome (option (frame structure_row)) :=
  finalize_table structure_int_columns structures.

Definition _finalize_denovo (structures : list (pyval (frame structure_row)))
  : outcome (option (frame structure_row)) :=
  finalize_table structure_int_columns structures.

(** [_finalize_results], with the two fingerprint entries that
    [retrieve_results] has set to [None] before. *)
Definition _finalize_results (b : buffers) : outcome results :=
  obind (_finalize_annotations (annotations b)) (fun annotations_table =>
  obind (_finalize_formulas (formulas b)) (fun formulas_table =>
  obind (_finalize_classes (classes b)) (fun classes_table =>
  obind (_finalize_structures (structures b)) (fun structures_table =>
  obind (_finalize_denovo (denovo b)) (fun denovo_table =>
  Return {| SiriusTopAnnotations := annotations_table;
            SiriusFormulas := formulas_table;
            SiriusClasses := classes_table;
            SiriusStructures := structures_table;
            SiriusDeNovoStructures := denovo_table;
            SiriusFingerprints := None;
            SiriusFingerprintDefinitions := None |}))))).

Definition retrieve_results (config : SiriusConfig) (job : job) (api : api)
  : outcome results :=
  obind (harvest config job api) _finalize_results.

(** *** [_export_results] of node.py: the files that are written *)

Definition export_if {A : Type} (table : option A) (file : string) : list string :=
  match table with Some _ => [file] | None => [] end.

Definition _export_results (fingerprints_path : string) (r : results) : list string :=
  (export_if (SiriusTopAnnotations r) "sirius_top_annotations.json"
   ++ export_if (SiriusFormulas r) "sirius_formulas.json"
   ++ export_if (SiriusClasses r) "sirius_classes.json"
   ++ export_if (SiriusStructures r) "sirius_structures.json"
   ++ export_if (SiriusDeNovoStructures r) "sirius_denovo_structures.json"
   ++ export_if (SiriusFingerprints r) (fingerprints_path ++ "_fingerprints.txt")
   ++ export_if (SiriusFingerprintDefinitions r) (fingerprints_path ++ "_FPkey.txt"))%list.

Local Open Scope list_scope.

(** *** Facts about frames *)

Lemma combine_seq_index {R : Type} (records : list R) (start : nat) :
  map fst (combine (seq start (length records)) records) = seq start (length records).
Proof.
  revert start. induction records as [|r records IH]; intros start; simpl; [reflexivity|].
  now rewrite IH.
Qed.

Lemma combine_seq_rows {R : Type} (records : list R) (start : nat) :
  map snd (combine (seq start (length records)) records) = records.
Proof.
  revert start. induction records as [|r records IH]; intros start; simpl; [reflexivity|].
  now rewrite IH.
Qed.

Lemma from_dict_index {R : Type} (records : list R) :
  index (from_dict records) = seq 0 (length records).
Proof. apply combine_seq_index. Qed.

Lemma from_dict_rows {R : Type} (records : list R) : rows (from_dict records) = records.
Proof. apply combine_seq_rows. Qed.

Lemma from_dict_length {R : Type} (records : list R) :
  length (from_dict records) = length records.
Proof. unfold from_dict. rewrite length_combine, length_seq. apply Nat.min_id. Qed.

Lemma rows_filter {R : Type} (p : R -> bool) (df : frame R) :
  rows (filter (fun lr => p (snd lr)) df) = filter p (rows df).
Proof.
  induction df as [|[l r] df IH]; simpl; [reflexivity|].
  destruct (p r); simpl; now rewrite IH.
Qed.

Lemma unique_label {R : Type} (df : frame R) (l : nat) (a b : R) :
  NoDup (index df) -> In (l, a) df -> In (l, b) df -> a = b.
Proof.
  induction df as [|[l' r] df IH]; simpl; intros Hnd Ha Hb; [contradiction|].
  inversion Hnd as [|? ? Hnotin Hnd']; subst.
  destruct Ha as [Ha | Ha], Hb as [Hb | Hb].
  - congruence.
  - inversion Ha; subst. exfalso. apply Hnotin. now apply (in_map fst) in Hb.
  - inversion Hb; subst. exfalso. apply Hnotin. now apply (in_map fst) in Ha.
  - now apply IH.
Qed.

(** On a frame whose labels are all different, dropping the labels of the
    rows that satisfy a mask removes exactly these rows. *)
Lemma drop_where (R : Type) (mask : R -> bool) (df : frame R) :
  NoDup (index df) ->
  drop (index (where_ mask df)) df = filter (fun lr => negb (mask (snd lr))) df.
Proof.
  intros Hnd. unfold drop. apply filter_ext_in. intros [l r] Hin. cbn [fst snd].
  f_equal. destruct (mask r) eqn:Hm.
  - apply existsb_exists. exists l. split; [|apply Nat.eqb_refl].
    unfold index, where_. change l with (fst (l, r)). apply in_map.
    apply filter_In. now split.
  - apply not_true_is_false. intros He.
    apply existsb_exists in He as [l' [Hl' Heq]]. apply Nat.eqb_eq in Heq. subst l'.
    unfold index, where_ in Hl'. apply in_map_iff in Hl' as [[l' r'] [Hfst Hf]].
    cbn in Hfst. subst l'. apply filter_In in Hf as [Hin' Hm']. cbn in Hm'.
    rewrite (unique_label df l r r' Hnd Hin Hin') in Hm. congruence.
Qed.

Lemma from_dict_NoDup {R : Type} (records : list R) : NoDup (index (from_dict records)).
Proof. rewrite from_dict_index. apply seq_NoDup. Qed.

(** The rows that do not exceed the maximal rank. *)
Definition within_rank (max_rank : Z) (c : structure_candidate) : bool :=
  (sc_rank c <=? max_rank)%Z.

Lemma not_above (r m : Z) : negb (r >? m)%Z = (r <=? m)%Z.
Proof. rewrite Z.gtb_ltb, Z.leb_antisym. reflexivity. Qed.

Lemma limit_rank_filter (max_rank : Z) (candidates : list structure_candidate) :
  limit_rank max_rank (from_dict candidates)
  = filter (fun lr => within_rank max_rank (snd lr)) (from_dict candidates).
Proof.
  unfold limit_rank. rewrite drop_where by apply from_dict_NoDup.
  apply filter_ext. intros [l c]. apply not_above.
Qed.

(** The step that limits the rank drops exactly the candidates above the
    maximum and keeps the others in their order. *)
Lemma limit_rank_rows (max_rank : Z) (candidates : list structure_candidate) :
  rows (limit_rank max_rank (from_dict candidates))
  = filter (within_rank max_rank) candidates.
Proof.
  rewrite limit_rank_filter, rows_filter. now rewrite from_dict_rows.
Qed.

(** The candidates in a structure table: the rows whose candidate columns
    are present. *)
Definition candidate_rows (table : frame structure_row) : list structure_columns :=
  flat_map (fun lr => match fst (snd lr) with Some c => [c] | None => [] end) table.

Lemma candidate_rows_app (t u : frame structure_row) :
  candidate_rows (t ++ u) = (candidate_rows t ++ candidate_rows u)%list.
Proof. apply flat_map_app. Qed.

Lemma candidate_rows_table {A : Type} (f : A -> structure_columns)
  (left : frame A) (right : frame (list (string * option string))) :
  candidate_rows
    (assign (fun row => (option_map f (fst row), snd row)) (concat_columns left right))
  = map f (rows left).
Proof.
  unfold concat_columns, assign. rewrite map_app, candidate_rows_app.
  rewrite !map_map. cbn [fst snd option_map].
  replace (candidate_rows (map _ (filter _ right))) with (@nil structure_columns).
  - rewrite app_nil_r. induction left as [|[l a] left IH]; simpl; [reflexivity|].
    now rewrite IH.
  - induction (filter _ right) as [|lb t IH]; simpl; [reflexivity | exact IH].
Qed.

Lemma structure_table_candidates (max_rank : Z) (dbs : list string) (ext_id : Z)
  (candidates : list structure_candidate) :
  candidates <> [] ->
  exists table,
    structure_table max_rank dbs ext_id candidates = PyFrame table /\
    candidate_rows table
    = map (fun c => structure_columns_of (ext_id, c))
          (filter (within_rank max_rank) candidates).
Proof.
  intros Hne. unfold structure_table.
  destruct candidates as [|c0 cs]; [congruence|].
  cbn [from_dict empty length seq combine].
  eexists. split; [reflexivity|].
  rewrite candidate_rows_table.
  unfold assign, rows. rewrite !map_map. cbn [fst snd].
  change (combine (0 :: seq 1 (length cs)) (c0 :: cs)) with (from_dict (c0 :: cs)).
  rewrite <- (limit_rank_rows max_rank (c0 :: cs)). unfold rows. now rewrite map_map.
Qed.

(** When the candidates within the maximal rank come first, as in a list
    ordered by rank, the rows that remain carry the labels 0, 1, 2, ... of
    the frame of database ids, and the table has one full row for each. *)
Lemma combine_seq_app {R : Type} (a b : list R) (start : nat) :
  combine (seq start (length (a ++ b))) (a ++ b)
  = combine (seq start (length a)) a ++ combine (seq (start + length a) (length b)) b.
Proof.
  revert start. induction a as [|x a IH]; intros start; simpl.
  - now rewrite Nat.add_0_r.
  - rewrite IH. now rewrite Nat.add_succ_r.
Qed.

Lemma filter_rows_all {R : Type} (p : R -> bool) (labels : list nat) (xs : list R) :
  Forall (fun x => p x = true) xs ->
  filter (fun lr => p (snd lr)) (combine labels xs) = combine labels xs.
Proof.
  intros H. revert labels. induction H as [|x xs Hx H IH]; intros [|l labels];
    simpl; try reflexivity.
  now rewrite Hx, IH.
Qed.

Lemma filter_rows_none {R : Type} (p : R -> bool) (labels : list nat) (xs : list R) :
  Forall (fun x => p x = false) xs ->
  filter (fun lr => p (snd lr)) (combine labels xs) = [].
Proof.
  intros H. revert labels. induction H as [|x xs Hx H IH]; intros [|l labels];
    simpl; try reflexivity.
  now rewrite Hx, IH.
Qed.

Lemma limit_rank_prefix (max_rank : Z) (kept dropped : list structure_candidate) :
  Forall (fun c => within_rank max_rank c = true) kept ->
  Forall (fun c => within_rank max_rank c = false) dropped ->
  limit_rank max_rank (from_dict (kept ++ dropped)) = from_dict kept.
Proof.
  intros Hk Hd. rewrite limit_rank_filter. unfold from_dict.
  rewrite combine_seq_app, filter_app.
  rewrite (filter_rows_all (within_rank max_rank)) by assumption.
  rewrite (filter_rows_none (within_rank max_rank)) by assumption.
  apply app_nil_r.
Qed.

Lemma assign_from_dict {R S : Type} (f : R -> S) (records : list R) :
  assign f (from_dict records) = from_dict (map f records).
Proof.
  unfold assign, from_dict. rewrite length_map. generalize 0.
  induction records as [|r records IH]; intros start; simpl; [reflexivity|].
  now rewrite IH.
Qed.

Lemma lookup_combine_seq {B : Type} (ys : list B) :
  forall start i y,
    nth_error ys i = Some y ->
    lookup (start + i) (combine (seq start (length ys)) ys) = Some y.
Proof.
  induction ys as [|y0 ys IH]; intros start i y Hi; [now destruct i|].
  destruct i as [|i]; simpl in *.
  - rewrite Nat.add_0_r, Nat.eqb_refl. congruence.
  - replace (Nat.eqb start (start + S i)) with false
      by (symmetry; apply Nat.eqb_neq; lia).
    rewrite Nat.add_succ_r. now apply (IH (S start) i y).
Qed.

Lemma side_by_side {A B C : Type} (f1 : C -> A) (f2 : C -> B) (right : frame B)
  (cs : list C) :
  forall start,
    (forall i c, nth_error cs i = Some c -> lookup (start + i) right = Some (f2 c)) ->
    map (fun la => (fst la, (Some (snd la), lookup (fst la) right)))
        (combine (seq start (length cs)) (map f1 cs))
    = combine (seq start (length cs)) (map (fun c => (Some (f1 c), Some (f2 c))) cs).
Proof.
  induction cs as [|c cs IH]; intros start H; simpl; [reflexivity|].
  rewrite (IH (S start)).
  - pose proof (H 0 c eq_refl) as H0. rewrite Nat.add_0_r in H0. now rewrite H0.
  - intros i c' Hi. rewrite <- (H (S i) c' Hi). f_equal. lia.
Qed.

Lemma filter_nothing {R : Type} (p : R -> bool) (xs : list R) :
  (forall x, In x xs -> p x = false) -> filter p xs = [].
Proof.
  induction xs as [|x xs IH]; intros H; simpl; [reflexivity|].
  rewrite (H x (or_introl eq_refl)). apply IH. intros y Hy. apply H. now right.
Qed.

Lemma concat_columns_aligned {A B C : Type} (f1 : C -> A) (f2 : C -> B) (cs : list C) :
  concat_columns (from_dict (map f1 cs)) (from_dict (map f2 cs))
  = from_dict (map (fun c => (Some (f1 c), Some (f2 c))) cs).
Proof.
  unfold concat_columns. rewrite filter_nothing.
  - rewrite app_nil_r. unfold from_dict at 2 3. rewrite !length_map.
    apply side_by_side. intros i c Hi.
    unfold from_dict. apply lookup_combine_seq. now apply map_nth_error.
  - intros [l b] Hin. cbn [fst]. apply negb_false_iff, existsb_exists.
    exists l. split; [|apply Nat.eqb_refl].
    rewrite from_dict_index, length_map, <- (length_map f2), <- from_dict_index.
    change l with (fst (l, b)). unfold index. now apply in_map.
Qed.

Lemma structure_table_aligned (max_rank : Z) (dbs : list string) (ext_id : Z)
  (kept dropped : list structure_candidate) :
  kept ++ dropped <> [] ->
  Forall (fun c => within_rank max_rank c = true) kept ->
  Forall (fun c => within_rank max_rank c = false) dropped ->
  structure_table max_rank dbs ext_id (kept ++ dropped)
  = PyFrame (from_dict
               (map (fun c => (Some (structure_columns_of (ext_id, c)),
                               Some (db_ids dbs (sc_dbLinks c))))
                    kept)).
Proof.
  intros Hne Hk Hd. unfold structure_table.
  destruct (empty (from_dict (kept ++ dropped))) eqn:He.
  { destruct (kept ++ dropped); [congruence | discriminate]. }
  rewrite (limit_rank_prefix max_rank kept dropped Hk Hd).
  rewrite assign_from_dict. unfold _retrieve_db_ids. rewrite from_dict_rows, map_map.
  cbn [snd]. rewrite (concat_columns_aligned (fun c => (ext_id, c))
                        (fun c => db_ids dbs (sc_dbLinks c)) kept).
  rewrite assign_from_dict, map_map. reflexivity.
Qed.

(** C7: from a non-empty list of structure candidates the harvester keeps,
    in their order, exactly the candidates whose rank does not exceed the
    configured maximum and drops the others; the database structures are
    capped by [structure_db_search_candidates] and the de-novo structures by
    [ms_novelist_candidates]. With the ranks 1, 2, 3, 4, 5 and the maximum 3
    the table has exactly three rows, of ranks 1, 2 and 3. *)
Theorem rank_capping (config : SiriusConfig) (j : job) (ext_id : Z)
  (candidates : list structure_candidate) :
  candidates <> [] ->
  (structure_db_search_params_enabled j = true ->
   exists table,
     _retrieve_structures config j ext_id candidates = PyFrame table /\
     candidate_rows table
     = map (fun c => structure_columns_of (ext_id, c))
           (filter (fun c => (sc_rank c <=? structure_db_search_candidates config)%Z)
                   candidates)) /\
  (ms_novelist_params_enabled j = true ->
   exists table,
     _retrieve_denovo config j ext_id candidates = PyFrame table /\
     candidate_rows table
     = map (fun c => structure_columns_of (ext_id, c))
           (filter (fun c => (sc_rank c <=? ms_novelist_candidates config)%Z)
                   candidates)) /\
  (structure_db_search_params_enabled j = true ->
   map sc_rank candidates = [1; 2; 3; 4; 5]%Z ->
   structure_db_search_candidates config = 3%Z ->
   exists table,
     _retrieve_structures config j ext_id candidates = PyFrame table /\
     length table = 3 /\
     map s_Rank (candidate_rows table) = [1; 2; 3]%Z).
Proof.
  intros Hne. split; [|split].
  - intros He. unfold _retrieve_structures. rewrite He. cbn [negb].
    now apply structure_table_candidates.
  - intros He. unfold _retrieve_denovo. rewrite He. cbn [negb].
    now apply structure_table_candidates.
  - intros He Hranks Hmax. unfold _retrieve_structures. rewrite He, Hmax. cbn [negb].
    destruct candidates as [|c1 [|c2 [|c3 [|c4 [|c5 [|c6 cs]]]]]]; try discriminate.
    cbn [map] in Hranks. injection Hranks as H1 H2 H3 H4 H5.
    change [c1; c2; c3; c4; c5] with ([c1; c2; c3] ++ [c4; c5]).
    rewrite structure_table_aligned.
    + eexists. split; [reflexivity|]. split; [reflexivity|].
      cbn. now rewrite H1, H2, H3.
    + discriminate.
    + unfold within_rank. repeat constructor; [rewrite H1 | rewrite H2 | rewrite H3];
        reflexivity.
    + unfold within_rank. repeat constructor; [rewrite H4 | rewrite H5]; reflexivity.
Qed.

Definition candidate_ranked (r : Z) : structure_candidate :=
  {| sc_formulaId := 7; sc_molecularFormula := "C6H12O6"; sc_inchiKey := "WQZGKKKJIJFFOK";
     sc_smiles := "OCC1OC(O)C(O)C(O)C1O"; sc_structureName := "glucose";
     sc_rank := r; sc_adduct := "[M+H]+";
     sc_dbLinks := [ {| link_name := "PubChem"; link_id := "5793" |} ] |}.

Definition config_max_3 : SiriusConfig :=
  {| service_path := "sirius.exe"; service_port := 8080;
     account_username := ""; account_password := "";
     canopus_enabled := true;
     structure_db_search_enabled := true;
     structure_db_search_dbs := ["PUBCHEM"; "HMDB"];
     structure_db_search_candidates := 3;
     ms_novelist_enabled := true;
     ms_novelist_candidates := 2 |}.

Lemma rank_capping_witness :
  exists table,
    _retrieve_structures config_max_3 (init_job config_max_3) 12
      (map candidate_ranked [1; 2; 3; 4; 5]%Z) = PyFrame table /\
    length table = 3 /\
    map s_Rank (candidate_rows table) = [1; 2; 3]%Z.
Proof.
  apply (rank_capping config_max_3 (init_job config_max_3) 12
           (map candidate_ranked [1; 2; 3; 4; 5]%Z));
    [discriminate | reflexivity | reflexivity | reflexivity].
Defined.

(** The table of the rows that remain, on the example. *)
Example retrieve_structures_example :
  _retrieve_structures config_max_3 (init_job config_max_3) 12
    (map candidate_ranked [1; 2; 3; 4; 5]%Z)
  = PyFrame
      (from_dict
         (map (fun r => (Some (structure_columns_of (12%Z, candidate_ranked r)),
                         Some [("PUBCHEM", Some "5793"); ("HMDB", None)]))
              [1; 2; 3]%Z)).
Proof. reflexivity. Qed.

(** When a candidate above the maximum comes before one within it, the
    labels that remain no longer match those of the frame of database ids:
    the table gets a row without candidate columns, and the rows that
    remain get the database ids of their neighbours or none. *)
Example retrieve_structures_unordered :
  _retrieve_structures config_max_3 (init_job config_max_3) 12
    (map candidate_ranked [5; 1; 2]%Z)
  = PyFrame
      [ (1, (Some (structure_columns_of (12%Z, candidate_ranked 1)),
             Some [("PUBCHEM", Some "5793"); ("HMDB", None)]));
        (2, (Some (structure_columns_of (12%Z, candidate_ranked 2)), None));
        (0, (None, Some [("PUBCHEM", Some "5793"); ("HMDB", None)])) ].
Proof. reflexivity. Qed.

(** *** Tree ids *)










Section TreeIds.

Variable config : SiriusConfig.
Variable j : job.
Variable service : api.



Lemma frames_of_frames {R : Type} (tables : list (frame R)) :
  frames_of (map PyFrame tables) = Return tables.
Proof.
  induction tables as [|t ts IH]; cbn; [reflexivity | now rewrite IH].
Qed.

(** A cast that returns gives the table back as it was. *)
Lemma astype_Int64_returns {R : Type} (column : R -> option Z) (table cast : frame R) :
  astype_Int64 column table = Return cast -> cast = table.
Proof.
  unfold astype_Int64. destruct (forallb _ (rows table)); [|discriminate].
  intros H. now inversion H.
Qed.

Lemma astype_Int64_each_returns {R : Type} (columns : list (R -> option Z)) :
  forall table cast : frame R,
    astype_Int64_each columns table = Return cast -> cast = table.
Proof.
  induction columns as [|column rest IH]; intros table cast H; cbn [astype_Int64_each] in H.
  - now inversion H.
  - destruct (astype_Int64 column table) as [t|e] eqn:Hc; [|discriminate].
    cbn [obind] in H. apply astype_Int64_returns in Hc. subst t. now apply IH.
Qed.

(** The table that the finaliser returns for a list of frames. *)
Lemma finalize_table_of_frames {R : Type} (columns : list (R -> option Z))
  (groups : list (frame R)) (table : option (frame R)) :
  finalize_table columns (map PyFrame groups) = Return table ->
  table = match groups with
          | [] => None
          | _ => Some (from_dict (flat_map rows groups))
          end.
Proof.
  destruct groups as [|g gs]; [intros H; now inversion H|].
  unfold finalize_table, concat. cbn [map forallb is_not_None negb andb].
  change (PyFrame g :: map PyFrame gs) with (map PyFrame (g :: gs)).
  rewrite frames_of_frames. cbn [obind].
  destruct (astype_Int64_each columns _) as [cast|e] eqn:Hc; [|discriminate].
  cbn [obind]. intros H. inversion H. now rewrite (astype_Int64_each_returns _ _ _ Hc).
Qed.



End TreeIds.

(** *** A run of two features, each with one lineage of three levels *)

Definition lineage_of_three : list class_node :=
  [ {| node_id := 1; node_name := "Organic compounds"; node_level := "Kingdom";
       node_levelIndex := 0; node_description := "kingdom"; node_probability := 0.99%float |};
    {| node_id := 2; node_name := "Organic oxygen compounds"; node_level := "Superclass";
       node_levelIndex := 1; node_description := "superclass"; node_probability := 0.9%float |};
    {| node_id := 3; node_name := "Organooxygen compounds"; node_level := "Class";
       node_levelIndex := 2; node_description := "class"; node_probability := 0.8%float |} ].

Definition classified_candidate : formula_candidate :=
  {| formulaId := 7; molecularFormula := "C6H12O6"; adduct := "[M+H]+"; rank := 1;
     siriusScore := 12.5%float; medianMassDeviation_ppm := 0.5%float;
     compoundClasses := Some lineage_of_three |}.

Definition annotated_feature (ext_id : Z) : aligned_feature :=
  {| external_feature_id := ext_id;
     feature_name := "180.06339@1.750";
     top_annotations :=
       {| formula_annotation :=
            Some {| formula_id := 7; molecular_formula := "C6H12O6";
                    sirius_score := 12.5%float |};
          structure_annotation := None;
          classy_fire_lineage := None;
          confidence_exact_match := None;
          confidence_approx_match := None |} |}.

Definition two_features : api :=
  {| get_aligned_features := ["A"; "B"];
     get_aligned_feature :=
       fun feat_id => annotated_feature (if (feat_id =? "A")%string then 1 else 2);
     get_formula_candidates := fun _ _ => [classified_candidate];
     get_structure_candidates := fun _ => [];
     get_de_novo_structure_candidates := fun _ => [] |}.


(** The harvest returns whenever no lineage that the service delivers is
    empty. *)
Lemma classes_loop_returns (ext_id : Z) (candidates_dicts : list formula_candidate) :
  (forall c lineage, In c candidates_dicts -> compoundClasses c = Some lineage ->
                     lineage <> []) ->
  forall t, exists tables t',
    classes_loop ext_id candidates_dicts t = (Return tables, t').
Proof.
  induction candidates_dicts as [|c cs IH]; intros H t; cbn [classes_loop].
  - now exists [], t.
  - assert (Hcs : forall c' lineage, In c' cs -> compoundClasses c' = Some lineage ->
                                     lineage <> [])
      by (intros c' l Hin; apply H; now right).
    destruct (compoundClasses c) as [lineage|] eqn:Hc; [|now apply IH].
    cbv zeta. pose proof (H c lineage (or_introl eq_refl) Hc) as Hne.
    destruct lineage as [|n ns]; [congruence|]. cbn [class_table from_dict assign empty
      length seq combine map].
    destruct (IH Hcs (t + 1)%Z) as [tables [t' Hrec]]. rewrite Hrec.
    now eexists _, _.
Qed.

Lemma harvest_returns (config : SiriusConfig) (j : job) (service : api) :
  (forall feat_id c lineage,
     In feat_id (get_aligned_features service) ->
     In c (get_formula_candidates service feat_id ["compoundClasses"]) ->
     compoundClasses c = Some lineage -> lineage <> []) ->
  exists b, harvest config j service = Return b.
Proof.
  unfold harvest. generalize init_buffers.
  induction (get_aligned_features service) as [|feat_id rest IH]; intros b H;
    cbn [harvest_loop]; [now exists b|].
  assert (Hrest : forall f c l, In f rest ->
            In c (get_formula_candidates service f ["compoundClasses"]) ->
            compoundClasses c = Some l -> l <> [])
    by (intros f c l Hin; apply H; now right).
  assert (Hfeat : exists b1, harvest_feature config j service b feat_id = Return b1).
  { unfold harvest_feature. cbv zeta.
    destruct (formula_annotation _) as [top|]; [|now eexists].
    unfold _retrieve_classes. destruct (negb (canopus_params_enabled j)); [now eexists|].
    destruct (get_formula_candidates service feat_id ["compoundClasses"]) as [|c cs] eqn:Hcs;
      [now eexists|].
    destruct (classes_loop_returns (external_feature_id (get_aligned_feature service feat_id))
                (c :: cs)) with (t := class_tree_id b) as [tables [t' Hloop]].
    { intros c' l Hin. apply (H feat_id); [now left | now rewrite Hcs]. }
    rewrite Hloop. now eexists. }
  destruct Hfeat as [b1 Hb1]. rewrite Hb1. cbn [obind]. now apply IH.
Qed.

(** *** A harvest without formula candidates *)

Lemma retrieve_formulas_without_candidates (ext_id : Z) :
  _retrieve_formulas ext_id [] = PyNonePair.
Proof. reflexivity. Qed.

Lemma frames_of_pair {R : Type} (objs : list (pyval (frame R))) :
  In PyNonePair objs -> frames_of objs = Raise (TypeError not_a_frame).
Proof.
  induction objs as [|x objs IH]; intros Hin; [contradiction|].
  destruct x as [| |df]; cbn [frames_of].
  - destruct Hin as [Hx | Hin]; [discriminate | now apply IH].
  - reflexivity.
  - destruct Hin as [Hx | Hin]; [discriminate|]. now rewrite (IH Hin).
Qed.

(** A buffer of formulas that holds the tuple makes the finaliser raise. *)
Lemma finalize_formulas_rejects_pair (formulas : list (pyval (frame formula_row))) :
  In PyNonePair formulas ->
  _finalize_formulas formulas = Raise (TypeError not_a_frame).
Proof.
  intros Hin. unfold _finalize_formulas, finalize_table, concat.
  destruct formulas as [|x xs]; [contradiction|].
  destruct (forallb _ (x :: xs)) eqn:Hall.
  - rewrite forallb_forall in Hall. specialize (Hall _ Hin). discriminate.
  - now rewrite (frames_of_pair _ Hin).
Qed.

(** One feature with a formula annotation, for which the service lists no
    formula candidate. *)
Definition service_without_candidates : api :=
  {| get_aligned_features := ["A"];
     get_aligned_feature := fun _ => annotated_feature 12;
     get_formula_candidates := fun _ _ => [];
     get_structure_candidates := fun _ => [];
     get_de_novo_structure_candidates := fun _ => [] |}.

(** C2 fails on the code: with one annotated feature and no formula
    candidate, the buffer of formulas holds the tuple [(None, None)], which
    is not [None], and the finaliser raises a type error instead of
    returning [None]; no table is returned and nothing is exported. *)
Theorem retrieve_results_raises_without_candidates :
  (exists b,
     harvest Session.default_config (init_job Session.default_config)
       service_without_candidates = Return b /\
     formulas b = [PyNonePair]) /\
  retrieve_results Session.default_config (init_job Session.default_config)
    service_without_candidates
  = Raise (TypeError not_a_frame).
Proof.
  split; [eexists; split; reflexivity | reflexivity].
Qed.

(** What the claim says does hold when no feature has a formula annotation
    at all: every table is [None] and no file is written. *)
Lemma harvest_loop_skips (config : SiriusConfig) (j : job) (service : api)
  (feature_ids : list string) (b : buffers) :
  (forall feat_id, In feat_id feature_ids ->
     formula_annotation (top_annotations (get_aligned_feature service feat_id)) = None) ->
  harvest_loop config j service feature_ids b = Return b.
Proof.
  induction feature_ids as [|feat_id rest IH]; intros H; cbn [harvest_loop]; [reflexivity|].
  unfold harvest_feature. rewrite (H feat_id (or_introl eq_refl)). cbn [obind].
  apply IH. intros f Hf. apply H. now right.
Qed.

Lemma retrieve_results_without_annotations (config : SiriusConfig) (j : job)
  (service : api) (fingerprints_path : string) :
  (forall feat_id, In feat_id (get_aligned_features service) ->
     formula_annotation (top_annotations (get_aligned_feature service feat_id)) = None) ->
  exists res,
    retrieve_results config j service = Return res /\
    SiriusFormulas res = None /\
    _export_results fingerprints_path res = [].
Proof.
  intros H. unfold retrieve_results, harvest.
  rewrite (harvest_loop_skips config j service _ init_buffers H).
  eexists. repeat split; reflexivity.
Qed.
End Harvest.


(** ** More of node.py *)

Module NodeFacts.

Import Node.

(** *** The project name of [_load_params]

    [re.sub] with the class of everything but ASCII letters, digits, the
    underscore and the hyphen, and the empty replacement: every character
    outside the class goes. *)

Definition project_name_char (c : ascii) : bool :=
  is_lower c || is_upper c || is_digit c || (c =? "_")%char || (c =? "-")%char.

Fixpoint sanitize_project_name (project_name : string) : string :=
  match project_name with
  | EmptyString => EmptyString
  | String c rest =>
      if project_name_char c then String c (sanitize_project_name rest)
      else sanitize_project_name rest
  end.

Lemma sanitize_fixpoint (s : string) :
  all_chars project_name_char s = true -> sanitize_project_name s = s.
Proof.
  induction s as [|c s IH]; simpl; [reflexivity|].
  intros H. apply andb_true_iff in H as [Hc Hs]. now rewrite Hc, IH.
Qed.

Lemma sanitize_allowed (s : string) :
  all_chars project_name_char (sanitize_project_name s) = true.
Proof.
  induction s as [|c s IH]; simpl; [reflexivity|].
  destruct (project_name_char c) eqn:Hc; simpl; [now rewrite Hc|exact IH].
Qed.

Lemma sanitize_length (s : string) :
  String.length (sanitize_project_name s) <= String.length s.
Proof.
  induction s as [|c s IH]; simpl; [lia|].
  destruct (project_name_char c); simpl; lia.
Qed.

(** X1: The sanitised project name holds allowed characters only, sanitising
    it again changes nothing, and a name is left as it is exactly when all
    its characters are allowed. *)
Theorem sanitize_project_name_allowed (project_name : string) :
  all_chars project_name_char (sanitize_project_name project_name) = true /\
  sanitize_project_name (sanitize_project_name project_name)
  = sanitize_project_name project_name /\
  (sanitize_project_name project_name = project_name <->
   all_chars project_name_char project_name = true).
Proof.
  split; [apply sanitize_allowed|]. split.
  - apply sanitize_fixpoint, sanitize_allowed.
  - split; [|apply sanitize_fixpoint].
    intros H. rewrite <- H. apply sanitize_allowed.
Qed.

(** *** The scan of the elemental constraints, on any text *)

Lemma span_recompose (p : ascii -> bool) (s : string) :
  s = fst (span p s) ++ snd (span p s).
Proof.
  induction s as [|c s IH]; simpl; [reflexivity|].
  destruct (p c); simpl; [now rewrite <- IH | reflexivity].
Qed.

Lemma span_prefix_all (p : ascii -> bool) (s : string) :
  all_chars p (fst (span p s)) = true.
Proof.
  induction s as [|c s IH]; simpl; [reflexivity|].
  destruct (p c) eqn:Hc; simpl; [now rewrite Hc | reflexivity].
Qed.

Lemma findall_tokens_upto (n : nat) :
  forall text, String.length text <= n -> forallb constraint_token (findall text) = true.
Proof.
  induction n as [|n IH]; intros text Hlen.
  - destruct text; [reflexivity | simpl in Hlen; lia].
  - destruct text as [|c rest]; [reflexivity|]. simpl in Hlen. simp findall.
    destruct (is_upper c) eqn:Hu.
    + cbn [forallb]. apply andb_true_iff. split.
      * unfold constraint_token. cbn [fst snd element_symbol].
        now rewrite Hu, !span_prefix_all.
      * apply IH.
        pose proof (span_rest_length is_digit (snd (span is_lower rest))).
        pose proof (span_rest_length is_lower rest). lia.
    + apply IH. lia.
Qed.

(** X2: Whatever the text, every pair that the scan returns is an element
    symbol with a run of digits, and writing the pairs out and scanning
    again gives the same pairs: the constraint string depends on the
    elements and counts found, and on nothing else of the text. *)
Theorem findall_well_formed (text : string) :
  forallb constraint_token (findall text) = true /\
  findall (write_tokens (findall text)) = findall text /\
  elemental_constraints (write_tokens (findall text)) = elemental_constraints text.
Proof.
  assert (H : forallb constraint_token (findall text) = true)
    by (apply (findall_tokens_upto (String.length text)); lia).
  split; [exact H|]. split.
  - now apply findall_write_tokens.
  - unfold elemental_constraints. now rewrite findall_write_tokens.
Qed.

Lemma findall_nil (text : string) :
  findall text = [] <-> all_chars (fun c => negb (is_upper c)) text = true.
Proof.
  induction text as [|c rest IH]; [now split|].
  simp findall. cbn [all_chars]. destruct (is_upper c) eqn:Hu; cbn [negb andb].
  - split; discriminate.
  - exact IH.
Qed.

Lemma join_constraints_nil (constraints : list (string * string)) :
  join_constraints constraints = "" <-> constraints = [].
Proof.
  destruct constraints as [|[e c] rest]; [now split|].
  split; [|discriminate]. intros H. cbn in H.
  destruct e; discriminate.
Qed.

(** X3: The constraint string is empty exactly when the text has no upper-case
    letter: a text of lower-case letters and digits only gives no
    constraint at all, without an error. *)
Theorem elemental_constraints_empty (text : string) :
  elemental_constraints text = "" <->
  all_chars (fun c => negb (is_upper c)) text = true.
Proof.
  unfold elemental_constraints. rewrite join_constraints_nil. apply findall_nil.
Qed.

(** *** The adduct that is handed to the service *)

Lemma occurs_in_prefix (d s rest : string) :
  Py.occurs_in d s -> Py.occurs_in d (s ++ rest).
Proof.
  intros [pre [post ->]]. exists pre, (post ++ rest).
  clear. induction pre as [|c pre IH]; simpl.
  - induction d as [|c d IH]; simpl; [reflexivity | now rewrite IH].
  - now rewrite IH.
Qed.

Lemma slice_is_prefix (s : string) :
  exists rest, s = Py.slice_to_minus1 s ++ rest.
Proof.
  destruct (string_empty_or_snoc s) as [-> | [s' [c ->]]].
  - now exists "".
  - exists (String c ""). now rewrite Py.slice_to_minus1_snoc.
Qed.

Lemma normalized_not_blacklisted (mz mw : float) (z : Z) (adduct : string) :
  ~ blacklisted (snd (_normalize_adduct mz mw z adduct)).
Proof.
  unfold _normalize_adduct.
  destruct (Py.any _ invalid_adducts) eqn:Hany.
  - destruct (z <? 0)%Z; cbn [snd]; apply not_blacklisted_by_test; reflexivity.
  - cbn [snd]. intros [d [Hd Hocc]].
    destruct (slice_is_prefix adduct) as [rest Hrest].
    assert (Hb : blacklisted adduct).
    { exists d. split; [exact Hd|]. rewrite Hrest. now apply occurs_in_prefix. }
    apply any_invalid_blacklisted in Hb. congruence.
Qed.

(** X4: Whatever the input, the adduct that [_normalize_adduct] returns holds
    no blacklisted token: cutting the last character off an adduct without
    such a token brings none in, and the two replacement labels hold none. *)
Theorem normalize_adduct_supported (mz mw : float) (z : Z) (adduct : string) :
  ~ blacklisted (snd (_normalize_adduct mz mw z adduct)).
Proof. exact (normalized_not_blacklisted mz mw z adduct). Qed.

(** *** When [_load_features] raises *)

Section Loading.

Variable format_fixed : nat -> float -> string.
Variable str_float : float -> string.
Variable str_int : Z -> string.

Lemma omap_raises {A B : Type} (f : A -> outcome B) (xs : list A) (e : exn) :
  omap f xs = Raise e -> exists x, In x xs /\ f x = Raise e.
Proof.
  induction xs as [|x xs IH]; simpl; [discriminate|].
  destruct (f x) as [y|e'] eqn:Hx; simpl.
  - destruct (omap f xs) as [ys|e'']; simpl; [discriminate|].
    intros H. inversion H; subst. destruct (IH eq_refl) as [x' [Hin Hx']].
    exists x'. split; [now right | exact Hx'].
  - intros H. inversion H; subst. exists x. split; [now left | exact Hx].
Qed.

Lemma omap_returns {A B : Type} (f : A -> outcome B) (xs : list A) (ys : list B) :
  omap f xs = Return ys -> Forall2 (fun x y => f x = Return y) xs ys.
Proof.
  revert ys. induction xs as [|x xs IH]; simpl; intros ys H.
  - inversion H. constructor.
  - destruct (f x) as [y|e] eqn:Hx; simpl in H; [|discriminate].
    destruct (omap f xs) as [ys'|e]; simpl in H; [|discriminate].
    inversion H; subst. constructor; [exact Hx | now apply IH].
Qed.

Lemma ms2_of_raises (s : raw_spectrum) (e : exn) :
  ms2_of str_float s = Raise e ->
  CollisionEnergies s = [] /\ e = IndexError "list index out of range".
Proof.
  unfold ms2_of. destruct (CollisionEnergies s); [|discriminate].
  intros H. inversion H. now split.
Qed.

Lemma load_feature_raises (feat : raw_feature) (e : exn) :
  load_feature format_fixed str_float str_int feat = Raise e ->
  e = IndexError "list index out of range" /\
  exists s, In s (MS2Spectra feat) /\ CollisionEnergies s = [].
Proof.
  unfold load_feature. destruct (_normalize_adduct _ _ _ _) as [[mass charge] adduct].
  destruct (omap (ms2_of str_float) (MS2Spectra feat)) as [ms2|e'] eqn:Hms2; simpl;
    [discriminate|].
  intros H. inversion H; subst.
  destruct (omap_raises _ _ _ Hms2) as [s [Hin Hs]].
  destruct (ms2_of_raises s e Hs) as [Hce He]. split; [exact He|]. now exists s.
Qed.

(** X5: [_load_features] raises exactly when some MS2 spectrum of some feature
    has an empty list of collision energies, and what it raises then is the
    subscript error of the empty list; no other input makes it raise. *)
Theorem load_features_raises_iff (features_data : list raw_feature) :
  ((exists e, _load_features format_fixed str_float str_int features_data = Raise e) <->
   (exists feat s, In feat features_data /\ In s (MS2Spectra feat) /\
                   CollisionEnergies s = [])) /\
  (forall e, _load_features format_fixed str_float str_int features_data = Raise e ->
             e = IndexError "list index out of range").
Proof.
  split; [split|].
  - intros [e He]. unfold _load_features in He.
    destruct (omap_raises _ _ _ He) as [feat [Hin Hfeat]].
    destruct (load_feature_raises feat e Hfeat) as [_ [s [Hs Hce]]].
    now exists feat, s.
  - intros [feat [s [Hin [Hs Hce]]]].
    destruct (_load_features format_fixed str_float str_int features_data)
      as [features|e] eqn:Hload; [|now exists e].
    exfalso. unfold _load_features in Hload.
    apply omap_returns in Hload.
    assert (Hfeat : exists fi, load_feature format_fixed str_float str_int feat = Return fi).
    { clear -Hload Hin. induction Hload as [|x y xs ys Hxy _ IH]; [contradiction|].
      destruct Hin as [<- | Hin]; [now exists y | now apply IH]. }
    destruct Hfeat as [fi Hfi]. unfold load_feature in Hfi.
    destruct (_normalize_adduct _ _ _ _) as [[mass charge] adduct].
    destruct (omap (ms2_of str_float) (MS2Spectra feat)) as [ms2|e'] eqn:Hms2;
      [|discriminate].
    apply omap_returns in Hms2.
    assert (Hsp : exists si, ms2_of str_float s = Return si).
    { clear -Hms2 Hs. induction Hms2 as [|x y xs ys Hxy _ IH]; [contradiction|].
      destruct Hs as [<- | Hs]; [now exists y | now apply IH]. }
    destruct Hsp as [si Hsi]. unfold ms2_of in Hsi. rewrite Hce in Hsi. discriminate.
  - intros e He. unfold _load_features in He.
    destruct (omap_raises _ _ _ He) as [feat [Hin Hfeat]].
    now destruct (load_feature_raises feat e Hfeat).
Qed.

(** What a feature-import entry has of its feature. *)
Definition imports (feat : raw_feature) (fi : feat_input) : Prop :=
  in_externalFeatureId fi = str_int (ExternalID feat) /\
  in_rtStartSeconds fi = (LeftRT feat * 60)%float /\
  in_rtEndSeconds fi = (RightRT feat * 60)%float /\
  length (in_ms2Spectra fi) = length (MS2Spectra feat) /\
  map sp_scanNumber (in_ms2Spectra fi) = map ScanNumber (MS2Spectra feat) /\
  exists adduct, in_detectedAdducts fi = [adduct] /\ ~ blacklisted adduct.

Lemma omap_map {A B C : Type} (f : A -> outcome B) (g : A -> C) (h : B -> C)
  (xs : list A) (ys : list B) :
  (forall x y, f x = Return y -> h y = g x) ->
  omap f xs = Return ys -> map h ys = map g xs.
Proof.
  intros Hfg H. apply omap_returns in H.
  induction H as [|x y xs ys Hxy _ IH]; simpl; [reflexivity|].
  now rewrite (Hfg x y Hxy), IH.
Qed.

(** X6: When [_load_features] returns, it returns one entry for each feature,
    in the order of the input: the retention times are the minutes times
    60, the MS2 spectra are those of the feature in their order, and there
    is exactly one detected adduct, free of blacklisted tokens. *)
Theorem load_features_shape (features_data : list raw_feature)
  (features : list feat_input) :
  _load_features format_fixed str_float str_int features_data = Return features ->
  Forall2 imports features_data features.
Proof.
  intros H. unfold _load_features in H. apply omap_returns in H.
  eapply Forall2_impl; [|exact H]. clear. intros feat fi Hfi.
  unfold load_feature in Hfi.
  pose proof (normalized_not_blacklisted (Mass feat) (MW feat) (Charge feat) (Adduct feat))
    as Hsup.
  destruct (_normalize_adduct _ _ _ _) as [[mass charge] adduct]. cbn [snd] in Hsup.
  destruct (omap (ms2_of str_float) (MS2Spectra feat)) as [ms2|e] eqn:Hms2; [|discriminate].
  cbn [obind] in Hfi. inversion Hfi; subst. unfold imports. cbn.
  assert (Hscan : map sp_scanNumber ms2 = map ScanNumber (MS2Spectra feat)).
  { apply (omap_map (ms2_of str_float) ScanNumber sp_scanNumber); [|exact Hms2].
    intros s si Hs. unfold ms2_of in Hs. destruct (CollisionEnergies s); [discriminate|].
    now inversion Hs. }
  repeat split; try exact Hscan.
  - rewrite <- (length_map sp_scanNumber), Hscan. apply length_map.
  - now exists adduct.
Qed.

End Loading.

Lemma load_features_shape_witness :
  exists features,
    _load_features (fun _ _ => "") (fun _ => "") (fun _ => "") [lopsided_feature]
    = Return features /\
    Forall2 (imports (fun _ => "")) [lopsided_feature] features.
Proof.
  eexists. split; [reflexivity|].
  apply (load_features_shape (fun _ _ => "") (fun _ => "") (fun _ => "")
           [lopsided_feature] _ eq_refl).
Defined.

End NodeFacts.


(** ** More of the session *)

Module SessionFacts.

Import Session.

Local Open Scope list_scope.

(** The events that a computation adds to the trace of the object. *)
Definition emitted_by {A : Type} (m : M A) (s : sirius) : list event :=
  skipn (length (trace s)) (trace (snd (m s))).

Lemma skipn_emitted (t new : list event) : skipn (length t) (t ++ new) = new.
Proof. induction t as [|e t IH]; simpl; [reflexivity | exact IH]. Qed.

(** Brings a trace into the form [t ++ new] and reads [new] off. *)
Ltac read_trace :=
  cbn [snd trace]; repeat rewrite <- app_assoc; rewrite skipn_emitted; cbn [app].

Ltac in_trace :=
  let H := fresh in
  intros H; cbn [In] in H;
  repeat (destruct H as [H | H]; [discriminate|]); contradiction.

Section Entering.

Variable svc : service.
Variable config : SiriusConfig.


Lemma truthy_iff (x : string) : truthy x = true <-> x <> "".
Proof.
  unfold truthy. destruct (String.eqb_spec x ""); simpl; split; congruence.
Qed.




(** X8: A new service is started exactly when the attempt to attach came back
    without a handle and without an exception; when a running service is
    found, or the attempt raises, [start_sirius] is not called. *)
Theorem enter_starts_iff (s : sirius) :
  In (Remote "start_sirius") (emitted_by (__enter__ svc config) s) <->
  attach_to_sirius svc = Return None.
Proof.
  destruct s as [api q tr]. unfold emitted_by.
  unfold __enter__, connect, start, login, account.
  destruct (attach_to_sirius svc) as [[h|]|e] eqn:Hat;
    destruct (start_sirius svc) as [[h'|]|e'] eqn:Hst;
    destruct (is_logged_in svc) eqn:Hl;
    destruct (truthy (account_username config)) eqn:Hu;
    destruct (truthy (account_password config)) eqn:Hp;
    destruct (account_login svc (account_username config) (account_password config))
      as [u|e''] eqn:Hlog;
    run_M; rewrite ?Hat, ?Hst, ?Hl, ?Hu, ?Hp, ?Hlog; run_M;
    cbn [negb orb]; rewrite ?Hlog; read_trace;
    (split; [ first [ reflexivity | discriminate | in_trace ]
            | first [ discriminate | intros _; cbn [In]; tauto ] ]).
Qed.

(** X9: An exception of the attempt to attach, or of the start of a new
    service, is logged as an error and raised again as it is; no login is
    tried. When neither attempt gives a handle, [__enter__] raises its own
    error after the pause that follows the start. *)
Theorem enter_reraises (s : sirius) :
  (forall e, attach_to_sirius svc = Raise e ->
     __enter__ svc config s
     = (Raise e,
        emitted s [ Log "TEMP" "Connecting to SIRIUS service...";
                    Remote "attach_to_sirius";
                    Log "ERROR" "Unable to connect to SIRIUS service!" ])) /\
  (forall e, attach_to_sirius svc = Return None -> start_sirius svc = Raise e ->
     __enter__ svc config s
     = (Raise e,
        {| _api := None;
           job_queries := job_queries s;
           trace := trace s ++
                    [ Log "TEMP" "Connecting to SIRIUS service...";
                      Remote "attach_to_sirius";
                      Log "VERBOSE" "Unable to find running SIRIUS service.";
                      Log "TEMP" "Starting new SIRIUS service...";
                      Remote "start_sirius";
                      Log "ERROR" "Unable to start SIRIUS service!" ] |})) /\
  (attach_to_sirius svc = Return None -> start_sirius svc = Return None ->
     __enter__ svc config s
     = (Raise (RuntimeError "Unable to connect or start SIRIUS service!"),
        {| _api := None;
           job_queries := job_queries s;
           trace := trace s ++
                    [ Log "TEMP" "Connecting to SIRIUS service...";
                      Remote "attach_to_sirius";
                      Log "VERBOSE" "Unable to find running SIRIUS service.";
                      Log "TEMP" "Starting new SIRIUS service...";
                      Remote "start_sirius";
                      Sleep 10;
                      Log "VERBOSE" "Unable to start SIRIUS service." ] |})).
Proof.
  destruct s as [api q tr].
  unfold __enter__, connect, start, login, account, emitted.
  split; [|split]; intros; run_M;
    repeat match goal with H : _ = _ |- _ => rewrite H end; run_M;
    now repeat rewrite <- app_assoc.
Qed.

(** X10: The login call is made exactly when nobody is logged in yet and both
    credentials are set. *)
Theorem login_calls_iff (s : sirius) (h : handle) :
  _api s = Some h ->
  (In (Remote "login") (emitted_by (login svc config) s) <->
   is_logged_in svc = false /\ account_username config <> "" /\
   account_password config <> "").
Proof.
  destruct s as [api q tr]. cbn [_api]. intros ->. unfold emitted_by.
  unfold login, account. rewrite <- !truthy_iff.
  destruct (is_logged_in svc) eqn:Hl;
    destruct (truthy (account_username config)) eqn:Hu;
    destruct (truthy (account_password config)) eqn:Hp;
    destruct (account_login svc (account_username config) (account_password config))
      as [u|e''] eqn:Hlog;
    run_M; rewrite ?Hl, ?Hu, ?Hp, ?Hlog; run_M;
    cbn [negb orb]; rewrite ?Hlog; read_trace;
    (split; [ first [ in_trace | intros _; now repeat split ]
            | first [ intros [? [? ?]]; discriminate | intros _; cbn [In]; tauto ] ]).
Qed.

(** X11: With both credentials set and nobody logged in, [login] hands the
    configured name and password to the service: it returns [True] when the
    call returns, and logs an error and raises the exception of the call
    again when it raises. *)
Theorem login_with_credentials (s : sirius) (h : handle) :
  _api s = Some h -> is_logged_in svc = false ->
  account_username config <> "" -> account_password config <> "" ->
  login svc config s
  = match account_login svc (account_username config) (account_password config) with
    | Return _ =>
        (Return true,
         emitted s [ Log "TEMP" "Connecting to SIRIUS user account...";
                     Remote "is_logged_in"; Remote "login";
                     Log "VERBOSE" "SIRIUS account connected." ])
    | Raise e =>
        (Raise e,
         emitted s [ Log "TEMP" "Connecting to SIRIUS user account...";
                     Remote "is_logged_in"; Remote "login";
                     Log "ERROR" "Unable to login to SIRIUS account!" ])
    end.
Proof.
  destruct s as [api q tr]. cbn [_api]. intros -> Hl Hu Hp.
  apply truthy_iff in Hu. apply truthy_iff in Hp.
  unfold login, account, emitted. run_M. rewrite Hl, Hu, Hp. cbn [negb orb].
  destruct (account_login svc (account_username config) (account_password config));
    run_M; now repeat rewrite <- app_assoc.
Qed.

End Entering.

(** A service that answers the attempt to attach and the start as given,
    and every other call like [anonymous_service]. *)
Definition service_answering (attach start : outcome (option handle)) : service :=
  {| attach_to_sirius := attach;
     start_sirius := start;
     is_logged_in := is_logged_in anonymous_service;
     account_login := account_login anonymous_service;
     jobs_start_job := jobs_start_job anonymous_service;
     jobs_get_job := jobs_get_job anonymous_service |}.

(** The default configuration with the credentials of an account. *)
Definition account_config : SiriusConfig :=
  {| service_path := service_path default_config;
     service_port := service_port default_config;
     account_username := "user@example.org";
     account_password := "secret";
     canopus_enabled := canopus_enabled default_config;
     structure_db_search_enabled := structure_db_search_enabled default_config;
     structure_db_search_dbs := structure_db_search_dbs default_config;
     structure_db_search_candidates := structure_db_search_candidates default_config;
     ms_novelist_enabled := ms_novelist_enabled default_config;
     ms_novelist_candidates := ms_novelist_candidates default_config |}.

(** The object once it holds a handle. *)
Definition connected_sirius : sirius :=
  {| _api := Some SiriusApi; job_queries := 0; trace := [] |}.

Lemma enter_reraises_witness :
  fst (__enter__ (service_answering (Raise (ServiceError "connection refused"))
                                    (Return None))
                 default_config new_sirius)
  = Raise (ServiceError "connection refused") /\
  fst (__enter__ (service_answering (Return None) (Raise (ServiceError "no such file")))
                 default_config new_sirius)
  = Raise (ServiceError "no such file") /\
  fst (__enter__ (service_answering (Return None) (Return None)) default_config new_sirius)
  = Raise (RuntimeError "Unable to connect or start SIRIUS service!").
Proof.
  split; [|split].
  - exact (f_equal fst
             (proj1 (enter_reraises
                       (service_answering (Raise (ServiceError "connection refused"))
                                          (Return None))
                       default_config new_sirius)
                    (ServiceError "connection refused") eq_refl)).
  - exact (f_equal fst
             (proj1 (proj2 (enter_reraises
                              (service_answering (Return None)
                                                 (Raise (ServiceError "no such file")))
                              default_config new_sirius))
                    (ServiceError "no such file") eq_refl eq_refl)).
  - exact (f_equal fst
             (proj2 (proj2 (enter_reraises
                              (service_answering (Return None) (Return None))
                              default_config new_sirius))
                    eq_refl eq_refl)).
Defined.

Lemma account_config_credentials :
  account_username account_config <> "" /\ account_password account_config <> "".
Proof. split; discriminate. Defined.

Lemma login_calls_iff_witness :
  In (Remote "login") (emitted_by (login anonymous_service account_config) connected_sirius).
Proof.
  apply (login_calls_iff anonymous_service account_config connected_sirius SiriusApi eq_refl).
  split; [reflexivity | exact account_config_credentials].
Defined.

Lemma login_with_credentials_witness :
  login anonymous_service account_config connected_sirius
  = (Return true,
     emitted connected_sirius
       [ Log "TEMP" "Connecting to SIRIUS user account...";
         Remote "is_logged_in"; Remote "login";
         Log "VERBOSE" "SIRIUS account connected." ]).
Proof.
  exact (login_with_credentials anonymous_service account_config connected_sirius
           SiriusApi eq_refl eq_refl
           (proj1 account_config_credentials) (proj2 account_config_credentials)).
Defined.

End SessionFacts.


(** ** More of [start_job] *)

Module JobFacts.

Import Job.

Local Open Scope list_scope.

Section Submitting.

Variable svc : service.

(** The object after [n] turns of the loop that did not end it. *)
Fixpoint after_turns (n : nat) (s : sirius) : sirius :=
  match n with
  | O => s
  | S n' => after_turns n' (emitted (queried svc s) [Sleep 10])
  end.

(** The calls and pauses of [n] such turns. *)
Fixpoint turns (n : nat) : list event :=
  match n with
  | O => []
  | S n' => [Remote "get_job"; Remote "get_job"; Remote "get_job"; Sleep 10] ++ turns n'
  end.

(** The line that is logged for the state that ends the loop. *)
Definition final_log (state : string) : event :=
  if (state =? "DONE")%string then Log "VERBOSE" "SIRIUS job completed successfully."
  else if (state =? "CANCELED")%string then Log "ERROR" "SIRIUS job cancelled."
  else Log "ERROR" "SIRIUS job failed.".

Lemma after_turns_queries (n : nat) :
  forall s, job_queries (after_turns n s) = 3 * n + job_queries s.
Proof.
  induction n as [|n IH]; intros s; cbn [after_turns]; [reflexivity|].
  rewrite IH. cbn [emitted queried job_queries]. lia.
Qed.

Lemma after_turns_actions (n : nat) :
  forall s, actions (trace (after_turns n s)) = actions (trace s) ++ turns n.
Proof.
  induction n as [|n IH]; intros s; cbn [after_turns turns].
  - now rewrite app_nil_r.
  - rewrite IH. cbn [emitted trace]. rewrite actions_app, actions_queried.
    cbn [actions filter is_action]. now rewrite <- !app_assoc.
Qed.

Lemma poll_run (h : handle) (n : nat) :
  forall (s : sirius) (fuel : nat),
    _api s = Some h ->
    (forall k, k < n -> terminal (polled_state svc (job_queries s) k) = false) ->
    terminal (polled_state svc (job_queries s) n) = true ->
    n < fuel ->
    poll svc fuel s
    = (Return (Some (polled_state svc (job_queries s) n =? "DONE")%string),
       emitted (queried svc (after_turns n s))
         [final_log (polled_state svc (job_queries s) n)]).
Proof.
  induction n as [|n IH]; intros s fuel Hs Hbefore Hn Hfuel;
    (destruct fuel as [|fuel]; [lia|]); rewrite (poll_turn svc fuel s h Hs); cbv zeta.
  - rewrite polled_state_0 in *. unfold terminal in Hn. unfold final_log.
    cbn [after_turns].
    destruct (state (jobs_get_job svc (job_queries s)) =? "DONE")%string; [reflexivity|].
    destruct (state (jobs_get_job svc (job_queries s)) =? "CANCELED")%string; [reflexivity|].
    destruct (state (jobs_get_job svc (job_queries s)) =? "FAILED")%string; [reflexivity|].
    discriminate.
  - pose proof (Hbefore 0 ltac:(lia)) as H0. rewrite polled_state_0 in H0.
    apply not_terminal in H0 as [Hd [Hc Hf]]. rewrite Hd, Hc, Hf.
    rewrite <- (polled_state_next svc (job_queries s) n). cbn [after_turns].
    apply (IH (emitted (queried svc s) [Sleep 10]) fuel).
    + exact Hs.
    + intros k Hk. cbn [emitted queried job_queries]. rewrite polled_state_next.
      apply Hbefore. lia.
    + cbn [emitted queried job_queries]. now rewrite polled_state_next.
    + lia.
Qed.

(** X12: On an object that holds a handle, when the loop ends in its turn
    [n] (from 0), the job was queried [3 * (n + 1)] times, three times in
    each turn, and the loop paused [n] times, once after each turn but the
    last; the last line of the log tells how the job ended: as an error for
    [CANCELED] and [FAILED]. *)
Theorem start_job_effort (s : sirius) (h : handle) (submission : Z) (n fuel : nat) :
  _api s = Some h ->
  jobs_start_job svc = Return submission ->
  (forall k, k < n -> terminal (polled_state svc (job_queries s) k) = false) ->
  terminal (polled_state svc (job_queries s) n) = true ->
  n < fuel ->
  exists s',
    start_job svc fuel s
    = (Return (Some (polled_state svc (job_queries s) n =? "DONE")%string), s') /\
    job_queries s' = 3 * (n + 1) + job_queries s /\
    actions (trace s')
    = actions (trace s) ++ [Remote "start_job"] ++ turns n
      ++ [Remote "get_job"; Remote "get_job"; Remote "get_job"] /\
    exists before,
      trace s' = before ++ [final_log (polled_state svc (job_queries s) n)].
Proof.
  intros Hs Hsub Hbefore Hn Hfuel.
  rewrite (start_job_submitted svc fuel s h submission Hs Hsub).
  rewrite (poll_run h n (emitted s submitted) fuel Hs Hbefore Hn Hfuel).
  eexists. split; [reflexivity|]. cbn [snd emitted queried job_queries trace].
  split; [rewrite after_turns_queries; cbn [emitted job_queries]; lia|]. split.
  - rewrite !actions_app, actions_progress_line, after_turns_actions.
    cbn [emitted trace]. rewrite actions_app.
    cbn [actions filter is_action submitted app]. rewrite <- !app_assoc.
    cbn [app]. unfold final_log.
    now destruct (polled_state svc (job_queries s) n =? "DONE")%string,
      (polled_state svc (job_queries s) n =? "CANCELED")%string.
  - eexists. reflexivity.
Qed.

(** X13: When the submission raises, [start_job] logs the error and raises
    the same exception; the job is never queried. On an object that holds a
    handle the exception is that of the service; on an object without a
    handle it is the attribute error of [self._api.jobs()], and the service
    is not called at all. *)
Theorem start_job_not_submitted (s : sirius) (fuel : nat) :
  (forall h e,
     _api s = Some h -> jobs_start_job svc = Raise e ->
     start_job svc fuel s
     = (Raise e,
        emitted s [ Log "TEMP" "Submitting SIRIUS job..."; Remote "start_job";
                    Log "ERROR" "Could not submit SIRIUS job!" ])) /\
  (_api s = None ->
   start_job svc fuel s
   = (Raise (AttributeError "'NoneType' object has no attribute 'jobs'"),
      emitted s [ Log "TEMP" "Submitting SIRIUS job...";
                  Log "ERROR" "Could not submit SIRIUS job!" ])).
Proof.
  split.
  - intros h e Hs H. destruct s as [api q tr]. cbn [_api] in Hs. subst api.
    unfold start_job, jobs, emitted. run_M. rewrite H. now repeat rewrite <- app_assoc.
  - apply start_job_without_handle.
Qed.

End Submitting.

Lemma start_job_effort_witness :
  exists s',
    start_job (answering_per_turn ["RUNNING"; "RUNNING"; "FAILED"]) 5 attached_sirius
    = (Return (Some false), s') /\
    job_queries s' = 9 /\
    actions (trace s')
    = [ Remote "start_job";
        Remote "get_job"; Remote "get_job"; Remote "get_job"; Sleep 10;
        Remote "get_job"; Remote "get_job"; Remote "get_job"; Sleep 10;
        Remote "get_job"; Remote "get_job"; Remote "get_job" ] /\
    exists before, trace s' = before ++ [Log "ERROR" "SIRIUS job failed."].
Proof.
  apply (start_job_effort (answering_per_turn ["RUNNING"; "RUNNING"; "FAILED"])
           attached_sirius SiriusApi 1%Z 2 5 eq_refl eq_refl).
  - intros k Hk. destruct k as [|[|k]]; [reflexivity | reflexivity | lia].
  - reflexivity.
  - lia.
Defined.

(** A service that refuses the submission. *)
Definition refusing : service :=
  {| attach_to_sirius := Return (Some SiriusApi);
     start_sirius := Return (Some SiriusApi);
     is_logged_in := true;
     account_login := fun _ _ => Return tt;
     jobs_start_job := Raise (ServiceError "(409) Conflict");
     jobs_get_job := fun _ =>
       {| state := "DONE"; current_progress := 0; max_progress := 0 |} |}.

Lemma start_job_not_submitted_witness :
  start_job refusing 5 attached_sirius
  = (Raise (ServiceError "(409) Conflict"),
     emitted attached_sirius [ Log "TEMP" "Submitting SIRIUS job..."; Remote "start_job";
                               Log "ERROR" "Could not submit SIRIUS job!" ]) /\
  start_job refusing 5 new_sirius
  = (Raise (AttributeError "'NoneType' object has no attribute 'jobs'"),
     emitted new_sirius [ Log "TEMP" "Submitting SIRIUS job...";
                          Log "ERROR" "Could not submit SIRIUS job!" ]).
Proof.
  split.
  - exact (proj1 (start_job_not_submitted refusing attached_sirius 5)
                 SiriusApi (ServiceError "(409) Conflict") eq_refl eq_refl).
  - exact (proj2 (start_job_not_submitted refusing new_sirius 5) eq_refl).
Defined.

End JobFacts.


(** ** More of the harvest *)

Module HarvestFacts.

Import Pandas.
Import Harvest.

Local Open Scope list_scope.

(** *** The database ids of a candidate *)

(** [ids.get(key)] on a dictionary kept in insertion order. *)
Fixpoint dict_get {V : Type} (key : string) (d : list (string * V)) : option V :=
  match d with
  | [] => None
  | (k, v) :: d' => if (k =? key)%string then Some v else dict_get key d'
  end.

Lemma dict_get_set_same {V : Type} (key : string) (value : V) (d : list (string * V)) :
  dict_get key (dict_set key value d) = Some value.
Proof.
  induction d as [|[k v] d IH]; cbn [dict_set dict_get].
  - now rewrite String.eqb_refl.
  - destruct (k =? key)%string eqn:Hk; cbn [dict_get]; now rewrite Hk.
Qed.

Lemma dict_get_set_other {V : Type} (key key' : string) (value : V)
  (d : list (string * V)) :
  key <> key' -> dict_get key' (dict_set key value d) = dict_get key' d.
Proof.
  intros Hne. induction d as [|[k v] d IH]; cbn [dict_set dict_get].
  - destruct (String.eqb_spec key key'); [contradiction | reflexivity].
  - destruct (String.eqb_spec k key) as [-> | Hk]; cbn [dict_get].
    + destruct (String.eqb_spec key key'); [contradiction | reflexivity].
    + now rewrite IH.
Qed.

(** The id that [_retrieve_db_ids] finds for a database name. *)
Definition matching_id (db_name : string) (links : list db_link) : option string :=
  option_map link_id
    (find (fun d => (Py.upper (link_name d) =? db_name)%string) links).

Lemma db_ids_fold (links : list db_link) (dbs : list string) :
  forall (ids : list (string * option string)) (key : string),
    dict_get key
      (fold_left
         (fun ids db_name =>
            let db_name := Py.upper db_name in
            let db_id := find (fun d => (Py.upper (link_name d) =? db_name)%string) links in
            dict_set db_name (option_map link_id db_id) ids)
         dbs ids)
    = if existsb (fun db => (Py.upper db =? key)%string) dbs
      then Some (matching_id key links)
      else dict_get key ids.
Proof.
  induction dbs as [|db dbs IH]; intros ids key; cbn [fold_left existsb]; [reflexivity|].
  rewrite IH. cbv zeta.
  destruct (existsb (fun db0 => (Py.upper db0 =? key)%string) dbs).
  - now rewrite orb_true_r.
  - rewrite orb_false_r. destruct (String.eqb_spec (Py.upper db) key) as [<- | Hne].
    + apply dict_get_set_same.
    + now apply dict_get_set_other.
Qed.

Lemma find_none_iff {A : Type} (p : A -> bool) (xs : list A) :
  find p xs = None <-> forall x, In x xs -> p x = false.
Proof.
  induction xs as [|x xs IH]; cbn [find]; [now split|].
  destruct (p x) eqn:Hx.
  - split; [discriminate|]. intros H. specialize (H x (or_introl eq_refl)). congruence.
  - rewrite IH. split.
    + intros H y [<- | Hy]; [exact Hx | now apply H].
    + intros H y Hy. apply H. now right.
Qed.

Lemma find_first {A : Type} (p : A -> bool) (before after : list A) (x : A) :
  (forall y, In y before -> p y = false) -> p x = true ->
  find p (before ++ x :: after) = Some x.
Proof.
  intros Hb Hx. induction before as [|y before IH]; cbn [app find].
  - now rewrite Hx.
  - rewrite (Hb y (or_introl eq_refl)). apply IH. intros z Hz. apply Hb. now right.
Qed.

(** X14: For every configured database the dictionary of a candidate has an
    entry under the upper-case name of the database. The entry is the id of
    the first link whose name is that of the database up to the case of the
    letters, and it is [None], not an error, when no link has that name. *)
Theorem db_ids_lookup (dbs : list string) (links : list db_link) (db : string) :
  In db dbs ->
  ((forall d, In d links -> Py.upper (link_name d) <> Py.upper db) ->
   dict_get (Py.upper db) (db_ids dbs links) = Some None) /\
  (forall before d after,
     links = before ++ d :: after ->
     (forall d', In d' before -> Py.upper (link_name d') <> Py.upper db) ->
     Py.upper (link_name d) = Py.upper db ->
     dict_get (Py.upper db) (db_ids dbs links) = Some (Some (link_id d))).
Proof.
  intros Hin.
  assert (Hget : dict_get (Py.upper db) (db_ids dbs links)
                 = Some (matching_id (Py.upper db) links)).
  { unfold db_ids. rewrite db_ids_fold.
    replace (existsb _ dbs) with true; [reflexivity|].
    symmetry. apply existsb_exists. exists db. split; [exact Hin | apply String.eqb_refl]. }
  rewrite Hget. unfold matching_id. split.
  - intros Hnone.
    replace (find _ links) with (@None db_link); [reflexivity|].
    symmetry. apply find_none_iff. intros d Hd. apply String.eqb_neq. now apply Hnone.
  - intros before d after -> Hbefore Hd.
    rewrite (find_first _ before after d); [reflexivity| |now apply String.eqb_eq].
    intros d' Hd'. apply String.eqb_neq. now apply Hbefore.
Qed.

Lemma db_ids_lookup_witness :
  dict_get "PUBCHEM"
    (db_ids ["pubchem"; "HMDB"]
       [ {| link_name := "KEGG"; link_id := "C00031" |};
         {| link_name := "PubChem"; link_id := "5793" |};
         {| link_name := "PUBCHEM"; link_id := "64689" |} ])
  = Some (Some "5793") /\
  dict_get "HMDB"
    (db_ids ["pubchem"; "HMDB"]
       [ {| link_name := "KEGG"; link_id := "C00031" |};
         {| link_name := "PubChem"; link_id := "5793" |};
         {| link_name := "PUBCHEM"; link_id := "64689" |} ])
  = Some None.
Proof.
  split.
  - apply (proj2 (db_ids_lookup ["pubchem"; "HMDB"] _ "pubchem" (or_introl eq_refl))
             [ {| link_name := "KEGG"; link_id := "C00031" |} ]
             {| link_name := "PubChem"; link_id := "5793" |}
             [ {| link_name := "PUBCHEM"; link_id := "64689" |} ] eq_refl).
    + intros d' [<- | []]. discriminate.
    + reflexivity.
  - apply (proj1 (db_ids_lookup ["pubchem"; "HMDB"] _ "HMDB"
                    (or_intror (or_introl eq_refl)))).
    intros d [<- | [<- | [<- | []]]]; discriminate.
Defined.


(** *** Candidates in the order of their rank *)

Lemma sorted_by_rank_split (max_rank : Z) (candidates : list structure_candidate) :
  StronglySorted Z.le (map sc_rank candidates) ->
  exists dropped,
    candidates = filter (within_rank max_rank) candidates ++ dropped /\
    Forall (fun c => within_rank max_rank c = false) dropped.
Proof.
  induction candidates as [|c cs IH]; intros Hs; [now exists []|].
  cbn [map] in Hs. inversion Hs as [|? ? Hs' Hall]; subst. cbn [filter].
  destruct (within_rank max_rank c) eqn:Hc.
  - destruct (IH Hs') as [dropped [Heq Hd]]. exists dropped. split; [|exact Hd].
    cbn [app]. now rewrite <- Heq.
  - assert (Hcs : Forall (fun c' => within_rank max_rank c' = false) cs).
    { apply Forall_forall. intros c' Hc'. rewrite Forall_forall in Hall.
      specialize (Hall (sc_rank c') (in_map sc_rank cs c' Hc')).
      unfold within_rank in *. apply Z.leb_gt in Hc. apply Z.leb_gt. lia. }
    exists (c :: cs). split; [|now constructor].
    replace (filter (within_rank max_rank) cs) with (@nil structure_candidate);
      [reflexivity|].
    symmetry. clear -Hcs. induction Hcs as [|c' cs Hc' _ IH]; cbn [filter];
      [reflexivity | now rewrite Hc'].
Qed.

Lemma filter_within_all (max_rank : Z) (candidates : list structure_candidate) :
  Forall (fun c => within_rank max_rank c = true)
         (filter (within_rank max_rank) candidates).
Proof.
  apply Forall_forall. intros c Hc. now apply filter_In in Hc as [_ Hc].
Qed.

(** X15: For a list of candidates in the order of their rank, the table of
    [_retrieve_structures] has exactly one row for each candidate within
    the maximal rank, in order and under the labels 0, 1, 2, ..., and each
    row has the columns of its candidate together with the database ids of
    that same candidate. The same holds for [_retrieve_denovo]. *)
Theorem retrieve_structures_sorted (config : SiriusConfig) (j : job) (ext_id : Z)
  (candidates : list structure_candidate) :
  candidates <> [] ->
  StronglySorted Z.le (map sc_rank candidates) ->
  (structure_db_search_params_enabled j = true ->
   _retrieve_structures config j ext_id candidates
   = PyFrame
       (from_dict
          (map (fun c => (Some (structure_columns_of (ext_id, c)),
                          Some (db_ids (structure_db_search_dbs config) (sc_dbLinks c))))
               (filter (fun c => (sc_rank c <=? structure_db_search_candidates config)%Z)
                       candidates)))) /\
  (ms_novelist_params_enabled j = true ->
   _retrieve_denovo config j ext_id candidates
   = PyFrame
       (from_dict
          (map (fun c => (Some (structure_columns_of (ext_id, c)),
                          Some (db_ids (structure_db_search_dbs config) (sc_dbLinks c))))
               (filter (fun c => (sc_rank c <=? ms_novelist_candidates config)%Z)
                       candidates)))).
Proof.
  intros Hne Hs.
  assert (G : forall max_rank,
             structure_table max_rank (structure_db_search_dbs config) ext_id candidates
             = PyFrame
                 (from_dict
                    (map (fun c => (Some (structure_columns_of (ext_id, c)),
                                    Some (db_ids (structure_db_search_dbs config)
                                            (sc_dbLinks c))))
                         (filter (within_rank max_rank) candidates)))).
  { intros max_rank.
    destruct (sorted_by_rank_split max_rank candidates Hs) as [dropped [Heq Hd]].
    rewrite Heq at 1. apply structure_table_aligned.
    - now rewrite <- Heq.
    - apply filter_within_all.
    - exact Hd. }
  split; intros He.
  - unfold _retrieve_structures. rewrite He. cbn [negb]. apply G.
  - unfold _retrieve_denovo. rewrite He. cbn [negb]. apply G.
Qed.

Lemma retrieve_structures_sorted_witness :
  _retrieve_structures config_max_3 (init_job config_max_3) 12
    (map candidate_ranked [1; 2; 2; 4; 7]%Z)
  = PyFrame
      (from_dict
         (map (fun c => (Some (structure_columns_of (12%Z, c)),
                         Some (db_ids ["PUBCHEM"; "HMDB"] (sc_dbLinks c))))
              (map candidate_ranked [1; 2; 2]%Z))).
Proof.
  assert (Hs : StronglySorted Z.le
                 (map sc_rank (map candidate_ranked [1; 2; 2; 4; 7]%Z))).
  { cbn. repeat first [ apply SSorted_nil | apply SSorted_cons
                      | apply Forall_nil | apply Forall_cons; [lia|] ]. }
  apply (proj1 (retrieve_structures_sorted config_max_3 (init_job config_max_3) 12
                  (map candidate_ranked [1; 2; 2; 4; 7]%Z) ltac:(discriminate) Hs)).
  reflexivity.
Defined.

(** *** Candidates out of the order of their rank *)

Lemma kept_labels_positive {R : Type} (p : nat * R -> bool) (records : list R)
  (start : nat) :
  forall l, In l (index (filter p (combine (seq start (length records)) records))) ->
            start <= l.
Proof.
  intros l Hl. unfold index in Hl. apply in_map_iff in Hl as [[l' r] [Hfst Hin]].
  cbn in Hfst. subst l'. apply filter_In in Hin as [Hin _].
  apply in_combine_l in Hin. apply in_seq in Hin. lia.
Qed.

Lemma existsb_eqb_false (l : nat) (labels : list nat) :
  ~ In l labels -> existsb (Nat.eqb l) labels = false.
Proof.
  intros H. apply not_true_is_false. intros He.
  apply existsb_exists in He as [l' [Hl' Heq]]. apply Nat.eqb_eq in Heq. now subst.
Qed.

(** X16: When the first candidate is above the maximal rank and some later one
    is within it, the table of [_retrieve_structures] has a row that
    belongs to no candidate: under the label 0 it holds database ids and no
    candidate columns. The table then has more rows than there are
    candidates within the maximal rank. *)
Theorem retrieve_structures_misaligned (config : SiriusConfig) (j : job) (ext_id : Z)
  (first : structure_candidate) (rest : list structure_candidate) :
  structure_db_search_params_enabled j = true ->
  (structure_db_search_candidates config < sc_rank first)%Z ->
  (exists c, In c rest /\ (sc_rank c <= structure_db_search_candidates config)%Z) ->
  exists table ids,
    _retrieve_structures config j ext_id (first :: rest) = PyFrame table /\
    In (0, (None, Some ids)) table /\
    length (candidate_rows table) < length table.
Proof.
  intros He Hfirst [c [Hc Hrank]].
  unfold _retrieve_structures. rewrite He. cbn [negb]. unfold structure_table.
  set (max_rank := structure_db_search_candidates config) in *.
  set (dbs := structure_db_search_dbs config).
  change (empty (from_dict (first :: rest))) with false. cbv iota.
  rewrite limit_rank_filter. cbn [from_dict length seq combine filter snd].
  replace (within_rank max_rank first) with false
    by (symmetry; unfold within_rank; apply Z.leb_gt; lia).
  set (kept := filter (fun lr => within_rank max_rank (snd lr))
                      (combine (seq 1 (length rest)) rest)).
  assert (Hkept : exists l, In (l, c) kept).
  { destruct (In_nth_error rest c Hc) as [i Hi].
    exists (1 + i). unfold kept. apply filter_In. split.
    - clear -Hi. revert i Hi. generalize 1.
      induction rest as [|r rest IH]; intros start i Hi; [now destruct i|].
      destruct i as [|i]; cbn in *.
      + left. inversion Hi. f_equal. lia.
      + right. replace (start + S i) with (S start + i) by lia. now apply IH.
    - cbn [snd]. unfold within_rank. apply Z.leb_le. exact Hrank. }
  destruct Hkept as [l Hl].
  set (left := assign (fun c0 => (ext_id, c0)) kept).
  assert (Hleft : exists x xs, left = x :: xs).
  { unfold left, assign. destruct kept as [|k ks]; [contradiction|]. now eexists _, _. }
  destruct Hleft as [x [xs Hx]].
  set (links := _retrieve_db_ids dbs left).
  assert (Hlinks : exists ids ids', links = ids :: ids').
  { unfold links, _retrieve_db_ids, rows. rewrite Hx. cbn [map]. now eexists _, _. }
  destruct Hlinks as [ids [ids' Hids]].
  assert (Hzero : ~ In 0 (index left)).
  { unfold left, assign, index. rewrite map_map. cbn [fst].
    intros H0. apply (kept_labels_positive _ rest 1) in H0. lia. }
  set (table := assign (fun row => (option_map structure_columns_of (fst row), snd row))
                       (concat_columns left (from_dict links))).
  exists table, ids. split; [reflexivity|].
  assert (Hin : In (0, (@None structure_columns, Some ids)) table).
  { unfold table, assign, concat_columns. rewrite map_app, !map_map. cbn [fst snd].
    apply in_or_app. right. rewrite Hids. cbn [from_dict length seq combine filter fst].
    rewrite (existsb_eqb_false 0 (index left) Hzero). cbn [negb map option_map].
    now left. }
  split; [exact Hin|].
  unfold table. rewrite candidate_rows_table, length_map.
  unfold assign at 1. rewrite length_map. unfold concat_columns.
  rewrite length_app, !length_map. unfold rows. rewrite length_map.
  rewrite Hids. cbn [from_dict length seq combine filter fst].
  rewrite (existsb_eqb_false 0 (index left) Hzero). cbn [negb length]. lia.
Qed.

Lemma retrieve_structures_misaligned_witness :
  exists table ids,
    _retrieve_structures config_max_3 (init_job config_max_3) 12
      (candidate_ranked 5 :: map candidate_ranked [1; 2]%Z) = PyFrame table /\
    In (0, (None, Some ids)) table /\
    length (candidate_rows table) < length table.
Proof.
  apply (retrieve_structures_misaligned config_max_3 (init_job config_max_3) 12
           (candidate_ranked 5) (map candidate_ranked [1; 2]%Z) eq_refl).
  - cbn. lia.
  - exists (candidate_ranked 1). split; [now left | cbn; lia].
Defined.

(** *** The run as a whole *)

(** **** Ids and ranks within the range of [Int64] *)

(** No value of the listed columns of the row lies outside the range. *)
Definition fit {R : Type} (columns : list (R -> option Z)) (row : R) : Prop :=
  forall column v, In column columns -> column row = Some v -> in_int64 v = true.

Definition fits_table {R : Type} (columns : list (R -> option Z))
  (x : pyval (frame R)) : Prop :=
  forall df, x = PyFrame df -> Forall (fit columns) (rows df).

(** The formula id, the rank and the class ids of a formula candidate, and
    the formula id and the rank of a structure candidate, are within the
    range. *)
Definition bounded_candidate (c : formula_candidate) : Prop :=
  in_int64 (formulaId c) = true /\ in_int64 (rank c) = true /\
  forall lineage node,
    compoundClasses c = Some lineage -> In node lineage -> in_int64 (node_id node) = true.

Definition bounded_structure (c : structure_candidate) : Prop :=
  in_int64 (sc_formulaId c) = true /\ in_int64 (sc_rank c) = true.

Lemma retrieve_formulas_fit (ext_id : Z) (candidates : list formula_candidate) :
  in_int64 ext_id = true -> Forall bounded_candidate candidates ->
  fits_table formula_int_columns (_retrieve_formulas ext_id candidates).
Proof.
  intros Hext Hc df Hdf. unfold _retrieve_formulas in Hdf.
  destruct (empty (from_dict candidates)); [discriminate|]. inversion Hdf; subst df.
  rewrite assign_from_dict, from_dict_rows. apply Forall_map.
  eapply Forall_impl; [|exact Hc]. intros c (Hf & Hr & _) column v Hin Hv.
  cbn [formula_int_columns In] in Hin.
  destruct Hin as [<- | [<- | [<- | []]]]; inversion Hv; subst;
    cbn [f_SiriusFormulaID f_ExternalID f_Rank]; assumption.
Qed.

Lemma class_table_fit (ext_id : Z) (c : formula_candidate) (lineage : list class_node)
  (tree_id : Z) :
  in_int64 ext_id = true -> bounded_candidate c -> compoundClasses c = Some lineage ->
  Forall (fit class_int_columns) (rows (class_table ext_id c lineage tree_id)).
Proof.
  intros Hext (Hf & _ & Hn) Hl. unfold class_table.
  rewrite assign_from_dict, from_dict_rows. apply Forall_map, Forall_forall.
  intros node Hnode column v Hin Hv. cbn [class_int_columns In] in Hin.
  destruct Hin as [<- | [<- | [<- | []]]]; inversion Hv; subst;
    cbn [c_SiriusFormulaID c_ExternalID c_ClassID]; try assumption.
  exact (Hn lineage node Hl Hnode).
Qed.

Lemma classes_loop_fit (ext_id : Z) (candidates : list formula_candidate) :
  in_int64 ext_id = true -> Forall bounded_candidate candidates ->
  forall tree_id tables tree_id',
    classes_loop ext_id candidates tree_id = (Return tables, tree_id') ->
    Forall (fun df => Forall (fit class_int_columns) (rows df)) tables.
Proof.
  intros Hext Hc. induction Hc as [|c cs Hc _ IH]; intros t tables t' H;
    cbn [classes_loop] in H.
  - inversion H. constructor.
  - destruct (compoundClasses c) as [lineage|] eqn:Hl; [|exact (IH _ _ _ H)].
    cbv zeta in H. destruct (empty (class_table ext_id c lineage t)); [discriminate|].
    destruct (classes_loop ext_id cs (t + 1)) as [[rest|e] t''] eqn:Hrest;
      [|discriminate].
    inversion H; subst. constructor; [now apply class_table_fit | exact (IH _ _ _ Hrest)].
Qed.

Lemma structure_table_fit (max_rank : Z) (dbs : list string) (ext_id : Z)
  (candidates : list structure_candidate) :
  in_int64 ext_id = true -> Forall bounded_structure candidates ->
  fits_table structure_int_columns (structure_table max_rank dbs ext_id candidates).
Proof.
  intros Hext Hc df Hdf. unfold structure_table in Hdf.
  destruct (empty (from_dict candidates)); [discriminate|]. cbv zeta in Hdf.
  inversion Hdf; subst df. clear Hdf.
  set (left := assign (fun c => (ext_id, c)) (limit_rank max_rank (from_dict candidates))).
  assert (Hleft : Forall (fun row => fst row = ext_id /\ bounded_structure (snd row))
                         (rows left)).
  { unfold left, assign, rows. rewrite map_map. cbn [snd]. apply Forall_map.
    apply Forall_forall. intros [l c] Hin. cbn [fst snd]. split; [reflexivity|].
    unfold limit_rank, drop in Hin. apply filter_In in Hin as [Hin _].
    unfold from_dict in Hin. apply in_combine_r in Hin.
    rewrite Forall_forall in Hc. now apply Hc. }
  unfold concat_columns, assign, rows. rewrite !map_map, map_app, !map_map.
  cbn [fst snd option_map]. apply Forall_app. split.
  - apply Forall_map, Forall_forall. intros [l row] Hin.
    assert (Hrow : fst row = ext_id /\ bounded_structure (snd row)).
    { rewrite Forall_forall in Hleft. apply Hleft. unfold rows.
      exact (in_map snd left (l, row) Hin). }
    destruct Hrow as [He [Hf Hr]]. intros column v Hcol Hv.
    cbn [structure_int_columns In] in Hcol.
    destruct Hcol as [<- | [<- | [<- | []]]]; cbn [fst snd option_map] in Hv;
      inversion Hv; subst; unfold structure_columns_of;
      cbn [s_SiriusFormulaID s_ExternalID s_Rank]; congruence.
  - apply Forall_map, Forall_forall. intros lb _ column v Hcol Hv.
    cbn [structure_int_columns In] in Hcol.
    destruct Hcol as [<- | [<- | [<- | []]]]; discriminate.
Qed.

Lemma append_table_fits {R : Type} (columns : list (R -> option Z))
  (buffer : list (pyval (frame R))) (table : pyval (frame R)) :
  Forall (fits_table columns) buffer -> fits_table columns table ->
  Forall (fits_table columns) (append_table buffer table).
Proof.
  intros Hb Ht. unfold append_table. destruct (is_not_None table); [|exact Hb].
  apply Forall_app. split; [exact Hb | now constructor].
Qed.

Lemma retrieve_classes_fit (enabled : bool) (ext_id : Z)
  (candidates : list formula_candidate) (tree_id : Z)
  (tables : list (frame class_row)) (tree_id' : Z) :
  in_int64 ext_id = true -> Forall bounded_candidate candidates ->
  _retrieve_classes enabled ext_id candidates tree_id = (Return (Some tables), tree_id') ->
  Forall (fun df => Forall (fit class_int_columns) (rows df)) tables.
Proof.
  intros Hext Hc H. unfold _retrieve_classes in H.
  destruct (negb enabled); [discriminate|].
  destruct candidates as [|c cs]; [discriminate|].
  destruct (classes_loop ext_id (c :: cs) tree_id) as [[ts|e] t'] eqn:Hl; [|discriminate].
  inversion H; subst. exact (classes_loop_fit ext_id (c :: cs) Hext Hc _ _ _ Hl).
Qed.

(** Every buffered table, and every buffered annotation, is within the
    range in the columns that the finaliser casts. *)
Definition fits (b : buffers) : Prop :=
  Forall (fun a => in_int64 (a_ExternalID a) = true) (annotations b) /\
  Forall (fits_table formula_int_columns) (formulas b) /\
  Forall (fits_table structure_int_columns) (structures b) /\
  Forall (fun df => Forall (fit class_int_columns) (rows df)) (classes b) /\
  Forall (fits_table structure_int_columns) (denovo b).

Section Retrieving.

Variable config : SiriusConfig.
Variable j : job.
Variable service : api.

(** The feature has a top formula annotation. *)
Definition annotated (feat_id : string) : bool :=
  match formula_annotation (top_annotations (get_aligned_feature service feat_id)) with
  | Some _ => true
  | None => false
  end.

Definition ext_id_of (feat_id : string) : Z :=
  external_feature_id (get_aligned_feature service feat_id).

(** The two lists of formula candidates that are fetched for a feature. *)
Definition formula_candidates_of (feat_id : string) : list formula_candidate :=
  get_formula_candidates service feat_id ["statistics"; "predictedFingerprint"].

Definition class_candidates_of (feat_id : string) : list formula_candidate :=
  get_formula_candidates service feat_id ["compoundClasses"].

Definition formula_row_of (ext_id : Z) (c : formula_candidate) : formula_row :=
  {| f_ExternalID := ext_id;
     f_SiriusFormulaID := formulaId c;
     f_Formula := molecularFormula c;
     f_Adduct := adduct c;
     f_Rank := rank c;
     f_SiriusScore := siriusScore c;
     f_MS2ErrorPpm := medianMassDeviation_ppm c |}.

(** No lineage that is delivered for the feature is empty. *)
Definition lineages_filled (feat_id : string) : Prop :=
  forall c lineage,
    In c (class_candidates_of feat_id) -> compoundClasses c = Some lineage ->
    lineage <> [].

(** What the service must deliver for an annotated feature. *)
Definition delivered (feat_id : string) : Prop :=
  formula_candidates_of feat_id <> [] /\
  (canopus_params_enabled j = true -> lineages_filled feat_id).

Definition is_frame {A : Type} (x : pyval A) : Prop := exists df, x = PyFrame df.

Lemma retrieve_formulas_frame (ext_id : Z) (candidates : list formula_candidate) :
  candidates <> [] ->
  _retrieve_formulas ext_id candidates
  = PyFrame (from_dict (map (formula_row_of ext_id) candidates)).
Proof.
  intros Hne. unfold _retrieve_formulas.
  destruct candidates as [|c cs]; [congruence|].
  change (empty (from_dict (c :: cs))) with false. cbv iota.
  now rewrite assign_from_dict.
Qed.

Lemma structure_table_frame_or_none (max_rank : Z) (dbs : list string) (ext_id : Z)
  (candidates : list structure_candidate) :
  structure_table max_rank dbs ext_id candidates = PyNone \/
  is_frame (structure_table max_rank dbs ext_id candidates).
Proof.
  unfold structure_table. destruct (empty (from_dict candidates)); [now left|].
  right. now eexists.
Qed.

Lemma append_table_frames {A : Type} (buffer : list (pyval A)) (table : pyval A) :
  Forall is_frame buffer -> table = PyNone \/ is_frame table ->
  Forall is_frame (append_table buffer table).
Proof.
  intros Hb [-> | [df ->]]; unfold append_table; cbn [is_not_None]; [exact Hb|].
  apply Forall_app. split; [exact Hb|]. repeat constructor. now exists df.
Qed.

Lemma retrieve_structures_frame_or_none (ext_id : Z)
  (candidates : list structure_candidate) :
  _retrieve_structures config j ext_id candidates = PyNone \/
  is_frame (_retrieve_structures config j ext_id candidates).
Proof.
  unfold _retrieve_structures. destruct (negb _); [now left|].
  apply structure_table_frame_or_none.
Qed.

Lemma retrieve_denovo_frame_or_none (ext_id : Z)
  (candidates : list structure_candidate) :
  _retrieve_denovo config j ext_id candidates = PyNone \/
  is_frame (_retrieve_denovo config j ext_id candidates).
Proof.
  unfold _retrieve_denovo. destruct (negb _); [now left|].
  apply structure_table_frame_or_none.
Qed.

Lemma classes_loop_filled (ext_id : Z) (candidates_dicts : list formula_candidate) :
  forall t tables t',
    classes_loop ext_id candidates_dicts t = (Return tables, t') ->
    forall c lineage, In c candidates_dicts -> compoundClasses c = Some lineage ->
                      lineage <> [].
Proof.
  induction candidates_dicts as [|c0 cs IH]; intros t tables t' H c lineage Hin Hc;
    [contradiction|].
  cbn [classes_loop] in H.
  destruct (compoundClasses c0) as [lineage0|] eqn:Hc0.
  - cbv zeta in H.
    destruct (empty (class_table ext_id c0 lineage0 t)) eqn:He; [discriminate|].
    destruct (classes_loop ext_id cs (t + 1)) as [[tables0|e] t0] eqn:Hrec; [|discriminate].
    destruct Hin as [<- | Hin].
    + rewrite Hc0 in Hc. inversion Hc; subst. intros ->. discriminate.
    + now apply (IH _ _ _ Hrec c lineage).
  - destruct Hin as [<- | Hin]; [congruence|]. now apply (IH _ _ _ H c lineage).
Qed.

Lemma harvest_feature_unannotated (b : buffers) (feat_id : string) :
  annotated feat_id = false -> harvest_feature config j service b feat_id = Return b.
Proof.
  unfold annotated, harvest_feature. now destruct (formula_annotation _).
Qed.

(** What a turn of the loop does for an annotated feature. *)
Lemma harvest_feature_annotated (b : buffers) (feat_id : string) :
  annotated feat_id = true ->
  ((exists b', harvest_feature config j service b feat_id = Return b') <->
   (canopus_params_enabled j = true -> lineages_filled feat_id)) /\
  (forall b',
     harvest_feature config j service b feat_id = Return b' ->
     map a_ExternalID (annotations b')
     = map a_ExternalID (annotations b) ++ [ext_id_of feat_id] /\
     formulas b'
     = formulas b
       ++ [_retrieve_formulas (ext_id_of feat_id) (formula_candidates_of feat_id)] /\
     (Forall is_frame (structures b) -> Forall is_frame (structures b')) /\
     (Forall is_frame (denovo b) -> Forall is_frame (denovo b')) /\
     (canopus_params_enabled j = false -> classes b' = classes b) /\
     (structure_db_search_params_enabled j = false -> structures b' = structures b) /\
     (ms_novelist_params_enabled j = false -> denovo b' = denovo b)).
Proof.
  unfold annotated, harvest_feature, lineages_filled, class_candidates_of,
    formula_candidates_of, ext_id_of.
  destruct (formula_annotation _) as [top|]; [intros _ | discriminate]. cbv zeta.
  unfold _retrieve_classes.
  set (ext := external_feature_id (get_aligned_feature service feat_id)).
  set (cands := get_formula_candidates service feat_id ["compoundClasses"]).
  assert (Hshape : forall tables tree_id b',
    Return
      {| annotations := annotations b ++ [_retrieve_annotation ext
                                             (get_aligned_feature service feat_id) top];
         formulas :=
           append_table (formulas b)
             (_retrieve_formulas ext
                (get_formula_candidates service feat_id
                   ["statistics"; "predictedFingerprint"]));
         structures :=
           append_table (structures b)
             (_retrieve_structures config j ext (get_structure_candidates service feat_id));
         classes := match tables with
                    | Some tables0 => classes b ++ tables0
                    | None => classes b
                    end;
         denovo :=
           append_table (denovo b)
             (_retrieve_denovo config j ext
                (get_de_novo_structure_candidates service feat_id));
         class_tree_id := tree_id |} = Return b' ->
    map a_ExternalID (annotations b') = map a_ExternalID (annotations b) ++ [ext] /\
    formulas b'
    = formulas b
      ++ [_retrieve_formulas ext
            (get_formula_candidates service feat_id ["statistics"; "predictedFingerprint"])] /\
    (Forall is_frame (structures b) -> Forall is_frame (structures b')) /\
    (Forall is_frame (denovo b) -> Forall is_frame (denovo b')) /\
    (tables = None -> classes b' = classes b) /\
    (structure_db_search_params_enabled j = false -> structures b' = structures b) /\
    (ms_novelist_params_enabled j = false -> denovo b' = denovo b)).
  { intros tables tree_id b' H. inversion H; subst; clear H.
    cbn [annotations formulas structures denovo classes].
    split; [now rewrite map_app|]. split.
    { unfold append_table, _retrieve_formulas.
      now destruct (empty _). }
    split; [intros Hs; apply append_table_frames;
            [exact Hs | apply retrieve_structures_frame_or_none]|].
    split; [intros Hs; apply append_table_frames;
            [exact Hs | apply retrieve_denovo_frame_or_none]|].
    split; [now intros ->|]. split.
    - intros He. unfold _retrieve_structures. now rewrite He.
    - intros He. unfold _retrieve_denovo. now rewrite He. }
  destruct (canopus_params_enabled j) eqn:Hcan; cbn [negb].
  - destruct cands as [|c cs] eqn:Hcands.
    + split.
      * split; [intros _ _ c lineage [] | intros _; now eexists].
      * intros b' H. destruct (Hshape None _ b' H) as (H1 & H2 & H3 & H4 & _ & H6 & H7).
        repeat split; try assumption. discriminate.
    + destruct (classes_loop ext (c :: cs) (class_tree_id b)) as [[tables|e] t'] eqn:Hloop.
      * split.
        -- split; [|intros _; now eexists].
           intros _ _. now apply (classes_loop_filled _ _ _ _ _ Hloop).
        -- intros b' H.
           destruct (Hshape (Some tables) _ b' H) as (H1 & H2 & H3 & H4 & _ & H6 & H7).
           repeat split; try assumption. discriminate.
      * split; [|discriminate]. split; [intros [b' H]; discriminate|].
        intros Hfilled. exfalso.
        destruct (classes_loop_returns ext (c :: cs) (Hfilled eq_refl) (class_tree_id b))
          as [tables [t'' Hret]].
        congruence.
  - split.
    + split; [discriminate | intros _; now eexists].
    + intros b' H. destruct (Hshape None _ b' H) as (H1 & H2 & H3 & H4 & H5 & H6 & H7).
      repeat split; try assumption. intros _. now apply H5.
Qed.

Lemma harvest_loop_filter (feature_ids : list string) :
  forall b,
    harvest_loop config j service feature_ids b
    = harvest_loop config j service (filter annotated feature_ids) b.
Proof.
  induction feature_ids as [|feat_id rest IH]; intros b; [reflexivity|].
  cbn [harvest_loop filter]. destruct (annotated feat_id) eqn:Ha.
  - cbn [harvest_loop].
    destruct (harvest_feature config j service b feat_id); cbn [obind]; [apply IH | reflexivity].
  - rewrite (harvest_feature_unannotated b feat_id Ha). cbn [obind]. apply IH.
Qed.

Lemma harvest_loop_returns_iff (feature_ids : list string) :
  forall b,
    (exists b', harvest_loop config j service feature_ids b = Return b') <->
    (forall feat_id, In feat_id feature_ids -> annotated feat_id = true ->
                     canopus_params_enabled j = true -> lineages_filled feat_id).
Proof.
  induction feature_ids as [|feat_id rest IH]; intros b; cbn [harvest_loop].
  - split; [intros _ f [] | intros _; now exists b].
  - destruct (annotated feat_id) eqn:Ha.
    + destruct (harvest_feature_annotated b feat_id Ha) as [[Hret1 Hret2] _].
      destruct (harvest_feature config j service b feat_id) as [b1|e] eqn:Hf; cbn [obind].
      * rewrite IH. split.
        -- intros H f [<- | Hin]; [intros _; apply Hret1; now exists b1 | now apply H].
        -- intros H f Hin. apply H. now right.
      * split; [intros [b' H]; discriminate|].
        intros H. exfalso. destruct Hret2 as [b' Hb']; [|discriminate].
        apply (H feat_id (or_introl eq_refl) Ha).
    + rewrite (harvest_feature_unannotated b feat_id Ha). cbn [obind]. rewrite IH. split.
      * intros H f [<- | Hin]; [congruence | now apply H].
      * intros H f Hin. apply H. now right.
Qed.

Lemma harvest_loop_buffers (feature_ids : list string) :
  forall b b',
    harvest_loop config j service feature_ids b = Return b' ->
    map a_ExternalID (annotations b')
    = map a_ExternalID (annotations b) ++ map ext_id_of (filter annotated feature_ids) /\
    formulas b'
    = formulas b
      ++ map (fun feat_id => _retrieve_formulas (ext_id_of feat_id)
                               (formula_candidates_of feat_id))
             (filter annotated feature_ids) /\
    (Forall is_frame (structures b) -> Forall is_frame (structures b')) /\
    (Forall is_frame (denovo b) -> Forall is_frame (denovo b')) /\
    (canopus_params_enabled j = false -> classes b' = classes b) /\
    (structure_db_search_params_enabled j = false -> structures b' = structures b) /\
    (ms_novelist_params_enabled j = false -> denovo b' = denovo b).
Proof.
  induction feature_ids as [|feat_id rest IH]; intros b b' H; cbn [harvest_loop] in H.
  - inversion H; subst. cbn [filter map]. rewrite !app_nil_r. now repeat split.
  - cbn [filter]. destruct (annotated feat_id) eqn:Ha.
    + destruct (harvest_feature config j service b feat_id) as [b1|e] eqn:Hf;
        [|discriminate].
      cbn [obind] in H.
      destruct (harvest_feature_annotated b feat_id Ha) as [_ Hb1].
      destruct (Hb1 b1 Hf) as (A1 & A2 & A3 & A4 & A5 & A6 & A7).
      destruct (IH b1 b' H) as (B1 & B2 & B3 & B4 & B5 & B6 & B7).
      cbn [map]. rewrite B1, A1, B2, A2, <- !app_assoc. cbn [app].
      repeat split; auto.
      * intros Hc. now rewrite B5, A5.
      * intros Hc. now rewrite B6, A6.
      * intros Hc. now rewrite B7, A7.
    + rewrite (harvest_feature_unannotated b feat_id Ha) in H. cbn [obind] in H.
      now apply IH.
Qed.


Lemma frames_listed {A : Type} (xs : list (pyval A)) :
  Forall is_frame xs -> exists dfs, xs = map PyFrame dfs.
Proof.
  induction 1 as [|x xs [df ->] _ [dfs ->]]; [now exists [] | now exists (df :: dfs)].
Qed.

(** **** The casts of the finaliser *)

Lemma astype_Int64_fit {R : Type} (column : R -> option Z) (table : frame R) :
  Forall (fun row => forall v, column row = Some v -> in_int64 v = true) (rows table) ->
  astype_Int64 column table = Return table.
Proof.
  intros H. unfold astype_Int64.
  replace (forallb _ (rows table)) with true; [reflexivity|].
  symmetry. apply forallb_forall. intros row Hin. rewrite Forall_forall in H.
  specialize (H row Hin). destruct (column row) as [v|]; [now apply H | reflexivity].
Qed.

Lemma astype_Int64_each_fit {R : Type} (columns : list (R -> option Z))
  (table : frame R) :
  Forall (fit columns) (rows table) -> astype_Int64_each columns table = Return table.
Proof.
  induction columns as [|column rest IH]; intros H; cbn [astype_Int64_each];
    [reflexivity|].
  rewrite astype_Int64_fit.
  - cbn [obind]. apply IH. eapply Forall_impl; [|exact H].
    intros row Hrow c v Hc. apply Hrow. now right.
  - eapply Forall_impl; [|exact H]. intros row Hrow v. apply Hrow. now left.
Qed.

Lemma finalize_table_fits {R : Type} (columns : list (R -> option Z))
  (dfs : list (frame R)) :
  Forall (fun df => Forall (fit columns) (rows df)) dfs ->
  finalize_table columns (map PyFrame dfs)
  = Return match dfs with
           | [] => None
           | _ => Some (from_dict (flat_map rows dfs))
           end.
Proof.
  intros H. destruct dfs as [|df dfs]; [reflexivity|].
  unfold finalize_table, concat. cbn [map forallb is_not_None negb andb].
  change (PyFrame df :: map PyFrame dfs) with (map PyFrame (df :: dfs)).
  rewrite frames_of_frames. cbn [obind]. rewrite astype_Int64_each_fit; [reflexivity|].
  rewrite from_dict_rows. apply Forall_forall. intros row Hin.
  apply in_flat_map in Hin as [df' [Hdf Hrow]].
  rewrite Forall_forall in H. specialize (H df' Hdf). rewrite Forall_forall in H.
  now apply H.
Qed.

Lemma finalize_table_returns {R : Type} (columns : list (R -> option Z))
  (xs : list (pyval (frame R))) :
  Forall is_frame xs -> Forall (fits_table columns) xs ->
  exists t, finalize_table columns xs = Return t.
Proof.
  intros H Hfit. destruct (frames_listed xs H) as [dfs ->].
  rewrite finalize_table_fits; [now eexists|].
  apply Forall_forall. intros df Hdf. rewrite Forall_forall in Hfit.
  exact (Hfit (PyFrame df) (in_map PyFrame dfs df Hdf) df eq_refl).
Qed.

(** What [_finalize_annotations] returns has the external ids of the
    annotations, in their order. *)
Lemma finalize_annotations_ids (anns : list annotation)
  (table : option (frame annotation)) :
  _finalize_annotations anns = Return table ->
  option_map (fun t => map a_ExternalID (rows t)) table
  = match anns with
    | [] => None
    | _ => Some (map a_ExternalID anns)
    end.
Proof.
  unfold _finalize_annotations. destruct anns as [|a0 anns]; [intros H; now inversion H|].
  destruct (astype_Int64 _ (from_dict (a0 :: anns))) as [cast|e] eqn:Hc; [|discriminate].
  cbn [obind]. intros H. inversion H. apply astype_Int64_returns in Hc. subst cast.
  cbn [option_map]. f_equal. rewrite assign_from_dict, from_dict_rows, map_map.
  reflexivity.
Qed.

Lemma finalize_annotations_raises (anns : list annotation) (a : annotation) :
  In a anns -> in_int64 (a_ExternalID a) = false ->
  _finalize_annotations anns
  = Raise (OverflowError "Python int too large to convert to C long").
Proof.
  intros Hin Hout. unfold _finalize_annotations.
  destruct anns as [|a0 anns']; [contradiction|].
  unfold astype_Int64. rewrite from_dict_rows.
  replace (forallb _ (a0 :: anns')) with false; [reflexivity|].
  symmetry. apply not_true_is_false. intros Hall. rewrite forallb_forall in Hall.
  specialize (Hall a Hin). cbn in Hall. congruence.
Qed.

Lemma finalize_annotations_fits (anns : list annotation) :
  Forall (fun a => in_int64 (a_ExternalID a) = true) anns ->
  exists table, _finalize_annotations anns = Return table.
Proof.
  intros H. unfold _finalize_annotations. destruct anns as [|a0 anns']; [now eexists|].
  rewrite astype_Int64_fit; [now eexists|].
  rewrite from_dict_rows. eapply Forall_impl; [|exact H].
  intros a Ha v Hv. now inversion Hv; subst.
Qed.

Lemma finalize_results_formulas (b : buffers) (res : results) :
  _finalize_results b = Return res ->
  _finalize_formulas (formulas b) = Return (SiriusFormulas res) /\
  _finalize_structures (structures b) = Return (SiriusStructures res) /\
  _finalize_denovo (denovo b) = Return (SiriusDeNovoStructures res) /\
  _finalize_classes (classes b) = Return (SiriusClasses res) /\
  _finalize_annotations (annotations b) = Return (SiriusTopAnnotations res).
Proof.
  unfold _finalize_results. intros H.
  destruct (_finalize_annotations (annotations b)); [|discriminate]. cbn [obind] in H.
  destruct (_finalize_formulas (formulas b)); [|discriminate]. cbn [obind] in H.
  destruct (_finalize_classes (classes b)); [|discriminate]. cbn [obind] in H.
  destruct (_finalize_structures (structures b)); [|discriminate]. cbn [obind] in H.
  destruct (_finalize_denovo (denovo b)); [|discriminate]. cbn [obind] in H.
  inversion H; subst. now repeat split.
Qed.

(** The ids of the features that have a formula annotation, in order. *)
Definition annotated_features : list string :=
  filter annotated (get_aligned_features service).

(** The rows of the table of formulas that the delivered candidates give. *)
Definition formula_rows : list formula_row :=
  flat_map (fun feat_id => map (formula_row_of (ext_id_of feat_id))
                               (formula_candidates_of feat_id))
           annotated_features.

Lemma retrieve_results_harvest (res : results) :
  retrieve_results config j service = Return res ->
  exists b, harvest config j service = Return b /\ _finalize_results b = Return res.
Proof.
  unfold retrieve_results. destruct (harvest config j service) as [b|e]; [|discriminate].
  intros H. now exists b.
Qed.

Lemma harvest_buffers (b : buffers) :
  harvest config j service = Return b ->
  map a_ExternalID (annotations b) = map ext_id_of annotated_features /\
  formulas b
  = map (fun feat_id => _retrieve_formulas (ext_id_of feat_id)
                          (formula_candidates_of feat_id))
        annotated_features /\
  Forall is_frame (structures b) /\ Forall is_frame (denovo b).
Proof.
  intros H. unfold harvest in H.
  destruct (harvest_loop_buffers _ _ _ H) as (H1 & H2 & H3 & H4 & _).
  cbn [init_buffers annotations formulas structures denovo map app] in *.
  repeat split; auto.
Qed.

Lemma retrieve_results_delivered (res : results) :
  retrieve_results config j service = Return res ->
  forall feat_id, In feat_id (get_aligned_features service) ->
                  annotated feat_id = true -> delivered feat_id.
Proof.
  intros Hres. destruct (retrieve_results_harvest res Hres) as [b [Hb Hfin]].
  intros feat_id Hin Ha. split.
  - destruct (harvest_buffers b Hb) as (_ & Hf & _).
    destruct (finalize_results_formulas b res Hfin) as [Hform _].
    intros Hnil.
    rewrite finalize_formulas_rejects_pair in Hform; [discriminate|].
    rewrite Hf. apply in_map_iff. exists feat_id. split.
    + now rewrite Hnil.
    + apply filter_In. now split.
  - apply (proj1 (harvest_loop_returns_iff (get_aligned_features service) init_buffers));
      [now exists b | exact Hin | exact Ha].
Qed.

(** The external id of the feature and every id and rank that the service
    delivers for it are within the range of [Int64]. *)
Definition bounded_feature (feat_id : string) : Prop :=
  in_int64 (ext_id_of feat_id) = true /\
  Forall bounded_candidate (formula_candidates_of feat_id) /\
  Forall bounded_candidate (class_candidates_of feat_id) /\
  Forall bounded_structure (get_structure_candidates service feat_id) /\
  Forall bounded_structure (get_de_novo_structure_candidates service feat_id).

Lemma harvest_feature_fits (b b' : buffers) (feat_id : string) :
  bounded_feature feat_id -> fits b ->
  harvest_feature config j service b feat_id = Return b' -> fits b'.
Proof.
  unfold bounded_feature, ext_id_of, formula_candidates_of, class_candidates_of.
  intros (Hext & Hfc & Hcc & Hsc & Hdc) (Fa & Ff & Fs & Fc & Fd).
  unfold harvest_feature.
  destruct (formula_annotation _) as [top|];
    [|intros H; inversion H; subst; now repeat split].
  cbv zeta.
  destruct (_retrieve_classes _ _ _ _) as [[tables|e] t] eqn:Hcl; [|discriminate].
  intros H. inversion H; subst; clear H. unfold fits.
  cbn [annotations formulas structures classes denovo].
  split; [|split; [|split; [|split]]].
  - apply Forall_app. split; [exact Fa|]. constructor; [exact Hext | constructor].
  - apply append_table_fits; [exact Ff|]. now apply retrieve_formulas_fit.
  - apply append_table_fits; [exact Fs|]. unfold _retrieve_structures.
    destruct (negb _); [intros df; discriminate|]. now apply structure_table_fit.
  - destruct tables as [tables|]; [|exact Fc].
    apply Forall_app. split; [exact Fc|].
    exact (retrieve_classes_fit _ _ _ _ _ _ Hext Hcc Hcl).
  - apply append_table_fits; [exact Fd|]. unfold _retrieve_denovo.
    destruct (negb _); [intros df; discriminate|]. now apply structure_table_fit.
Qed.

Lemma harvest_loop_fits (feature_ids : list string) :
  (forall feat_id, In feat_id feature_ids -> annotated feat_id = true ->
                   bounded_feature feat_id) ->
  forall b b', fits b -> harvest_loop config j service feature_ids b = Return b' ->
               fits b'.
Proof.
  induction feature_ids as [|feat_id rest IH]; intros Hb b b' Hfit H;
    cbn [harvest_loop] in H.
  - now inversion H; subst.
  - destruct (harvest_feature config j service b feat_id) as [b1|e] eqn:Hf;
      [|discriminate].
    cbn [obind] in H. apply (IH (fun f Hin => Hb f (or_intror Hin)) b1 b'); [|exact H].
    destruct (annotated feat_id) eqn:Ha.
    + exact (harvest_feature_fits b b1 feat_id (Hb feat_id (or_introl eq_refl) Ha) Hfit Hf).
    + rewrite (harvest_feature_unannotated b feat_id Ha) in Hf. now inversion Hf; subst.
Qed.

Lemma init_buffers_fit : fits init_buffers.
Proof.
  unfold fits, init_buffers. cbn [annotations formulas structures classes denovo].
  repeat split; constructor.
Qed.

Lemma retrieve_results_overflows (feat_id : string) :
  In feat_id (get_aligned_features service) -> annotated feat_id = true ->
  in_int64 (ext_id_of feat_id) = false ->
  retrieve_results config j service
  = Raise (OverflowError "Python int too large to convert to C long") \/
  exists e, harvest config j service = Raise e /\
            retrieve_results config j service = Raise e.
Proof.
  intros Hin Ha Hout. unfold retrieve_results.
  destruct (harvest config j service) as [b|e] eqn:Hb; [left | right; now exists e].
  cbn [obind]. destruct (harvest_buffers b Hb) as (Hann & _).
  assert (Hx : In (ext_id_of feat_id) (map a_ExternalID (annotations b))).
  { rewrite Hann. apply in_map. apply filter_In. now split. }
  apply in_map_iff in Hx as [a [Hid Hina]].
  unfold _finalize_results.
  rewrite (finalize_annotations_raises (annotations b) a Hina); [reflexivity|].
  now rewrite Hid.
Qed.

Lemma retrieve_results_returns :
  (forall feat_id, In feat_id (get_aligned_features service) ->
                   annotated feat_id = true -> bounded_feature feat_id) ->
  (forall feat_id, In feat_id (get_aligned_features service) ->
                   annotated feat_id = true -> delivered feat_id) ->
  exists res, retrieve_results config j service = Return res.
Proof.
  intros Hbound H.
  destruct (proj2 (harvest_loop_returns_iff (get_aligned_features service) init_buffers))
    as [b Hb].
  { intros feat_id Hin Ha. now apply (H feat_id Hin Ha). }
  fold (harvest config j service) in Hb.
  destruct (harvest_buffers b Hb) as (_ & Hf & Hs & Hd).
  assert (Hff : Forall is_frame (formulas b)).
  { rewrite Hf. apply Forall_map, Forall_forall. intros feat_id Hin.
    apply filter_In in Hin as [Hin Ha].
    rewrite retrieve_formulas_frame by apply (H feat_id Hin Ha). now eexists. }
  assert (Hfit : fits b).
  { exact (harvest_loop_fits (get_aligned_features service) Hbound init_buffers b
             init_buffers_fit Hb). }
  destruct Hfit as (Fa & Ff & Fs & Fc & Fd).
  unfold retrieve_results. rewrite Hb. cbn [obind]. unfold _finalize_results.
  destruct (finalize_annotations_fits (annotations b) Fa) as [ta Hta].
  destruct (finalize_table_returns formula_int_columns _ Hff Ff) as [tf Htf].
  destruct (finalize_table_returns structure_int_columns _ Hs Fs) as [ts Hts].
  destruct (finalize_table_returns structure_int_columns _ Hd Fd) as [td Htd].
  unfold _finalize_formulas, _finalize_structures, _finalize_denovo, _finalize_classes.
  rewrite Hta, Htf, (finalize_table_fits class_int_columns _ Fc), Hts, Htd.
  cbn [obind]. now eexists.
Qed.

(** X17: When [retrieve_results] returns, the service has delivered, for every
    feature with a formula annotation, at least one formula candidate and,
    where compound classes are harvested, no empty class lineage: features
    without candidates and empty lineages are not passed over. Where the
    external ids, formula ids, ranks and class ids of these features are
    within the range of [Int64], that is also enough for it to return. An
    annotated feature whose external id is outside that range makes the
    cast of [_finalize_annotations] raise [OverflowError], unless the
    harvest has raised before. *)
Theorem retrieve_results_returns_iff :
  ((exists res, retrieve_results config j service = Return res) ->
   forall feat_id, In feat_id (get_aligned_features service) ->
                   annotated feat_id = true -> delivered feat_id) /\
  ((forall feat_id, In feat_id (get_aligned_features service) ->
                    annotated feat_id = true -> bounded_feature feat_id) ->
   ((exists res, retrieve_results config j service = Return res) <->
    (forall feat_id, In feat_id (get_aligned_features service) ->
                     annotated feat_id = true -> delivered feat_id))) /\
  (forall feat_id,
     In feat_id (get_aligned_features service) -> annotated feat_id = true ->
     in_int64 (ext_id_of feat_id) = false ->
     retrieve_results config j service
     = Raise (OverflowError "Python int too large to convert to C long") \/
     exists e, harvest config j service = Raise e /\
               retrieve_results config j service = Raise e).
Proof.
  split; [|split].
  - intros [res Hres]. exact (retrieve_results_delivered res Hres).
  - intros Hbound. split.
    + intros [res Hres]. exact (retrieve_results_delivered res Hres).
    + exact (retrieve_results_returns Hbound).
  - exact retrieve_results_overflows.
Qed.

Lemma flat_map_rows_from_dict {A R : Type} (f : A -> list R) (xs : list A) :
  flat_map rows (map (fun x => from_dict (f x)) xs) = flat_map f xs.
Proof.
  induction xs as [|x xs IH]; cbn [map flat_map]; [reflexivity|].
  now rewrite from_dict_rows, IH.
Qed.

(** X18: When [retrieve_results] returns, the table of top annotations has one
    row for each feature with a formula annotation, in the order of the
    features, and the table of formulas has one row for each formula
    candidate of these features, feature by feature, each under the
    external id of its feature; both are [None] when no feature is
    annotated. *)
Theorem retrieve_results_tables (res : results) :
  retrieve_results config j service = Return res ->
  option_map (fun table => map a_ExternalID (rows table)) (SiriusTopAnnotations res)
  = match annotated_features with
    | [] => None
    | _ => Some (map ext_id_of annotated_features)
    end /\
  SiriusFormulas res
  = match annotated_features with
    | [] => None
    | _ => Some (from_dict formula_rows)
    end.
Proof.
  intros Hres.
  assert (Hdel : forall feat_id, In feat_id annotated_features ->
                                 formula_candidates_of feat_id <> []).
  { intros feat_id Hin. apply filter_In in Hin as [Hin Ha].
    apply (retrieve_results_delivered res Hres feat_id Hin Ha). }
  destruct (retrieve_results_harvest res Hres) as [b [Hb Hfin]].
  destruct (harvest_buffers b Hb) as (Ha & Hf & _).
  destruct (finalize_results_formulas b res Hfin) as (Hform & _ & _ & _ & Hann).
  split.
  - rewrite (finalize_annotations_ids _ _ Hann).
    destruct (annotations b) as [|a0 anns] eqn:Hanns.
    + destruct annotated_features; [reflexivity | discriminate].
    + destruct annotated_features as [|f0 fs] eqn:Hfs; [discriminate|].
      f_equal. exact Ha.
  - assert (Hframes : formulas b
                      = map PyFrame
                          (map (fun feat_id =>
                                  from_dict (map (formula_row_of (ext_id_of feat_id))
                                                 (formula_candidates_of feat_id)))
                               annotated_features)).
    { rewrite Hf, map_map. apply map_ext_in. intros feat_id Hin.
      now rewrite retrieve_formulas_frame by now apply Hdel. }
    unfold _finalize_formulas in Hform. rewrite Hframes in Hform.
    apply finalize_table_of_frames in Hform. rewrite Hform. unfold formula_rows.
    destruct annotated_features as [|f0 fs]; [reflexivity|].
    cbn [map]. f_equal. f_equal.
    change (from_dict (map (formula_row_of (ext_id_of f0)) (formula_candidates_of f0))
              :: map (fun feat_id =>
                        from_dict (map (formula_row_of (ext_id_of feat_id))
                                       (formula_candidates_of feat_id))) fs)
      with (map (fun feat_id =>
                   from_dict (map (formula_row_of (ext_id_of feat_id))
                                  (formula_candidates_of feat_id))) (f0 :: fs)).
    apply (flat_map_rows_from_dict
             (fun feat_id => map (formula_row_of (ext_id_of feat_id))
                                 (formula_candidates_of feat_id))).
Qed.

Lemma harvest_unannotated (b : buffers) :
  harvest config j service = Return b -> annotated_features = [] -> b = init_buffers.
Proof.
  intros Hb Hnone. unfold harvest in Hb.
  rewrite harvest_loop_filter in Hb. fold annotated_features in Hb.
  rewrite Hnone in Hb. cbn [harvest_loop] in Hb. now inversion Hb.
Qed.

(** X19: What [_export_results] writes after [retrieve_results] has returned:
    nothing at all when no feature has a formula annotation; otherwise the
    table of top annotations and the table of formulas, in this order, and
    after them no other files than those of the classes, the structures and
    the de-novo structures. *)
Theorem export_after_retrieve (fingerprints_path : string) (res : results) :
  retrieve_results config j service = Return res ->
  (annotated_features = [] <-> _export_results fingerprints_path res = []) /\
  (annotated_features <> [] ->
   exists others,
     _export_results fingerprints_path res
     = "sirius_top_annotations.json" :: "sirius_formulas.json" :: others /\
     incl others ["sirius_classes.json"; "sirius_structures.json";
                  "sirius_denovo_structures.json"]).
Proof.
  intros Hres.
  destruct (retrieve_results_harvest res Hres) as [b [Hb Hfin]].
  destruct (harvest_buffers b Hb) as (Ha & Hf & _).
  destruct (finalize_results_formulas b res Hfin) as (Hform & _ & _ & _ & Hann).
  assert (Hfp : SiriusFingerprints res = None /\ SiriusFingerprintDefinitions res = None).
  { unfold _finalize_results in Hfin.
    destruct (_finalize_annotations (annotations b)); [|discriminate].
    cbn [obind] in Hfin.
    destruct (_finalize_formulas (formulas b)); [|discriminate]. cbn [obind] in Hfin.
    destruct (_finalize_classes (classes b)); [|discriminate]. cbn [obind] in Hfin.
    destruct (_finalize_structures (structures b)); [|discriminate]. cbn [obind] in Hfin.
    destruct (_finalize_denovo (denovo b)); [|discriminate]. cbn [obind] in Hfin.
    inversion Hfin. now split. }
  destruct Hfp as [Hfp Hfd].
  assert (Hsome : annotated_features <> [] ->
                  exists ta tf, SiriusTopAnnotations res = Some ta /\
                                SiriusFormulas res = Some tf).
  { intros Hne. pose proof (finalize_annotations_ids _ _ Hann) as Hids.
    destruct (annotations b) as [|a0 anns] eqn:Hanns.
    - destruct annotated_features; [contradiction | discriminate].
    - destruct (SiriusTopAnnotations res) as [ta|]; [|discriminate]. exists ta.
      unfold _finalize_formulas, finalize_table in Hform.
      destruct (formulas b) as [|f0 fs] eqn:Hfs.
      + destruct annotated_features; [contradiction | discriminate].
      + destruct (Pandas.concat (f0 :: fs)) as [table|e]; [|discriminate].
        cbn [obind] in Hform.
        destruct (astype_Int64_each _ table) as [cast|e]; [|discriminate].
        cbn [obind] in Hform. inversion Hform. now eexists. }
  split; [split|].
  - intros Hnone. pose proof (harvest_unannotated b Hb Hnone) as ->.
    cbn in Hfin. inversion Hfin. reflexivity.
  - intros Hfiles. destruct annotated_features as [|f0 fs] eqn:Hfeats; [reflexivity|].
    destruct Hsome as (ta & tf & Hta & _); [discriminate|].
    unfold _export_results in Hfiles. rewrite Hta in Hfiles. discriminate.
  - intros Hne. destruct (Hsome Hne) as (ta & tf & Hta & Htf).
    unfold _export_results. rewrite Hta, Htf, Hfp, Hfd. cbn [export_if app].
    eexists. split; [reflexivity|].
    rewrite !app_nil_r.
    destruct (SiriusClasses res), (SiriusStructures res), (SiriusDeNovoStructures res);
      cbn [export_if app]; intros file Hin; cbn [In] in *; tauto.
Qed.

(** The service with the features without formula annotation left out of
    its list. *)
Definition only_annotated : api :=
  {| get_aligned_features := annotated_features;
     get_aligned_feature := get_aligned_feature service;
     get_formula_candidates := get_formula_candidates service;
     get_structure_candidates := get_structure_candidates service;
     get_de_novo_structure_candidates := get_de_novo_structure_candidates service |}.

Lemma harvest_loop_only_annotated (feature_ids : list string) :
  forall b,
    harvest_loop config j only_annotated feature_ids b
    = harvest_loop config j service feature_ids b.
Proof.
  induction feature_ids as [|feat_id rest IH]; intros b; [reflexivity|].
  cbn [harvest_loop].
  change (harvest_feature config j only_annotated b feat_id)
    with (harvest_feature config j service b feat_id).
  destruct (harvest_feature config j service b feat_id); cbn [obind];
    [apply IH | reflexivity].
Qed.

(** X20: A feature without formula annotation is skipped as a whole: the run
    ends as it would if the service did not list the feature, with the same
    tables or the same exception. *)
Theorem retrieve_results_skips_unannotated :
  retrieve_results config j service = retrieve_results config j only_annotated.
Proof.
  unfold retrieve_results, harvest. f_equal.
  rewrite harvest_loop_only_annotated. cbn [only_annotated get_aligned_features].
  apply harvest_loop_filter.
Qed.

End Retrieving.

(** X21: When the search for structures in databases is switched off in the
    configuration, [init_job] switches the compound classes and the de-novo
    structures off with it: the harvest then returns for every service, and
    the tables of classes, structures and de-novo structures are [None]. *)
Theorem harvest_without_structure_search (config : SiriusConfig) (service : api) :
  structure_db_search_enabled config = false ->
  (exists b,
     harvest config (init_job config) service = Return b /\
     classes b = [] /\ structures b = [] /\ denovo b = []) /\
  (forall res,
     retrieve_results config (init_job config) service = Return res ->
     SiriusClasses res = None /\ SiriusStructures res = None /\
     SiriusDeNovoStructures res = None).
Proof.
  intros Hoff.
  assert (Hj : canopus_params_enabled (init_job config) = false /\
               structure_db_search_params_enabled (init_job config) = false /\
               ms_novelist_params_enabled (init_job config) = false).
  { unfold init_job. cbn. now rewrite Hoff. }
  destruct Hj as (Hc & Hs & Hm).
  assert (Hb : exists b, harvest config (init_job config) service = Return b).
  { apply (proj2 (harvest_loop_returns_iff config (init_job config) service
                    (get_aligned_features service) init_buffers)).
    intros feat_id _ _ Hcan. congruence. }
  destruct Hb as [b Hb].
  assert (Hempty : classes b = [] /\ structures b = [] /\ denovo b = []).
  { unfold harvest in Hb.
    destruct (harvest_loop_buffers config (init_job config) service _ _ _ Hb)
      as (_ & _ & _ & _ & H5 & H6 & H7).
    now rewrite (H5 Hc), (H6 Hs), (H7 Hm). }
  split; [now exists b|].
  intros res Hres.
  destruct (retrieve_results_harvest config (init_job config) service res Hres)
    as [b' [Hb' Hfin]].
  rewrite Hb in Hb'. inversion Hb'; subst b'.
  destruct (finalize_results_formulas b res Hfin) as (_ & H2 & H3 & H4 & _).
  destruct Hempty as (E1 & E2 & E3). rewrite E2 in H2. rewrite E3 in H3. rewrite E1 in H4.
  cbn in H2, H3, H4. inversion H2. inversion H3. inversion H4. now repeat split.
Qed.

(** The default configuration with the search for structures switched off. *)
Definition formulas_only : SiriusConfig :=
  {| service_path := service_path Session.default_config;
     service_port := service_port Session.default_config;
     account_username := account_username Session.default_config;
     account_password := account_password Session.default_config;
     canopus_enabled := canopus_enabled Session.default_config;
     structure_db_search_enabled := false;
     structure_db_search_dbs := structure_db_search_dbs Session.default_config;
     structure_db_search_candidates := structure_db_search_candidates Session.default_config;
     ms_novelist_enabled := ms_novelist_enabled Session.default_config;
     ms_novelist_candidates := ms_novelist_candidates Session.default_config |}.

Lemma harvest_without_structure_search_witness :
  structure_db_search_enabled formulas_only = false /\
  exists b,
    harvest formulas_only (init_job formulas_only) two_features = Return b /\
    classes b = [] /\ structures b = [] /\ denovo b = [].
Proof.
  split; [reflexivity|].
  exact (proj1 (harvest_without_structure_search formulas_only two_features eq_refl)).
Defined.

(** A service with one annotated feature whose external id is [2 ^ 63]. *)
Definition one_feature_beyond : api :=
  {| get_aligned_features := ["A"];
     get_aligned_feature := fun _ => annotated_feature (2 ^ 63);
     get_formula_candidates := fun _ _ => [classified_candidate];
     get_structure_candidates := fun _ => [];
     get_de_novo_structure_candidates := fun _ => [] |}.

Lemma two_features_bounded (feat_id : string) :
  bounded_feature two_features feat_id.
Proof.
  assert (Hc : bounded_candidate classified_candidate).
  { split; [reflexivity|]. split; [reflexivity|].
    intros lineage node Hl Hin. inversion Hl; subst lineage.
    destruct Hin as [<- | [<- | [<- | []]]]; reflexivity. }
  unfold bounded_feature, ext_id_of, formula_candidates_of, class_candidates_of.
  cbn [two_features get_aligned_feature get_formula_candidates
       get_structure_candidates get_de_novo_structure_candidates
       annotated_feature external_feature_id].
  split; [now destruct (feat_id =? "A")%string|].
  split; [exact (Forall_cons _ Hc (Forall_nil _))|].
  split; [exact (Forall_cons _ Hc (Forall_nil _))|].
  split; apply Forall_nil.
Qed.

Lemma two_features_delivered (feat_id : string) :
  delivered (init_job Session.default_config) two_features feat_id.
Proof.
  split; [discriminate|]. intros _ c lineage [<- | []] Hl.
  inversion Hl. discriminate.
Qed.

Lemma retrieve_results_returns_iff_witness :
  (exists res,
     retrieve_results Session.default_config (init_job Session.default_config)
       two_features = Return res) /\
  retrieve_results Session.default_config (init_job Session.default_config)
    one_feature_beyond
  = Raise (OverflowError "Python int too large to convert to C long").
Proof.
  split.
  - apply (proj1 (proj2 (retrieve_results_returns_iff Session.default_config
                           (init_job Session.default_config) two_features))).
    + intros feat_id _ _. exact (two_features_bounded feat_id).
    + intros feat_id _ _. exact (two_features_delivered feat_id).
  - destruct (proj2 (proj2 (retrieve_results_returns_iff Session.default_config
                              (init_job Session.default_config) one_feature_beyond))
                "A" (or_introl eq_refl) eq_refl eq_refl) as [H | [e [H _]]].
    + exact H.
    + discriminate H.
Defined.

Lemma retrieve_results_tables_witness :
  exists res,
    retrieve_results Session.default_config (init_job Session.default_config) two_features
    = Return res /\
    option_map (fun table => map a_ExternalID (rows table)) (SiriusTopAnnotations res)
    = Some [1; 2]%Z /\
    option_map (fun table => map f_ExternalID (rows table)) (SiriusFormulas res)
    = Some [1; 2]%Z.
Proof.
  eexists. split; [vm_compute; reflexivity|].
  split.
  - exact (proj1 (retrieve_results_tables Session.default_config
                    (init_job Session.default_config) two_features _ eq_refl)).
  - exact (f_equal (option_map (fun table => map f_ExternalID (rows table)))
                   (proj2 (retrieve_results_tables Session.default_config
                             (init_job Session.default_config) two_features _ eq_refl))).
Defined.

Lemma export_after_retrieve_witness :
  exists res,
    retrieve_results Session.default_config (init_job Session.default_config) two_features
    = Return res /\
    exists others,
      _export_results "fp" res
      = "sirius_top_annotations.json" :: "sirius_formulas.json" :: others /\
      incl others ["sirius_classes.json"; "sirius_structures.json";
                   "sirius_denovo_structures.json"].
Proof.
  eexists. split; [vm_compute; reflexivity|].
  apply (proj2 (export_after_retrieve Session.default_config
                  (init_job Session.default_config) two_features "fp" _ eq_refl)).
  discriminate.
Defined.

End HarvestFacts.

(** ** silencer.py: the [Silencer] context manager

    The descriptors of the process are a table: descriptor [fd] is the
    entry at position [fd], [None] when it is closed. [os.open] and
    [os.dup] take the lowest free descriptor; [os.dup], [os.dup2] and
    [os.close] raise [OSError] on a closed descriptor, which leaves the
    table as it is. *)

Module Silencer.

Local Open Scope list_scope.

(** What a descriptor is open on: the null device, or a stream of the
    process known by its name. *)
Inductive file : Type :=
| devnull
| stream (name : string).

Definition fds : Type := list (option file).

Definition lookup (fd : nat) (t : fds) : option file := nth fd t None.

Fixpoint lowest_free (t : fds) : nat :=
  match t with
  | Some _ :: t' => S (lowest_free t')
  | _ => 0
  end.

Fixpoint set (fd : nat) (f : option file) (t : fds) : fds :=
  match fd, t with
  | O, [] => [f]
  | O, _ :: t' => f :: t'
  | S fd', [] => None :: set fd' f []
  | S fd', x :: t' => x :: set fd' f t'
  end.

(** A computation on the table: a value, or [None] for [OSError]. *)
Definition os (A : Type) : Type := fds -> option A * fds.

Definition os_ret {A : Type} (a : A) : os A := fun t => (Some a, t).

Definition os_bind {A B : Type} (m : os A) (k : A -> os B) : os B :=
  fun t =>
    match m t with
    | (Some a, t') => k a t'
    | (None, t') => (None, t')
    end.

Declare Scope os_scope.
Delimit Scope os_scope with os.
Notation "x <- m ;; k" := (os_bind m (fun x => k))
  (at level 61, m at next level, right associativity) : os_scope.
Notation "m ;; k" := (os_bind m (fun _ => k))
  (at level 61, right associativity) : os_scope.
Local Open Scope os_scope.

(** [os.open(path, flags)]. *)
Definition os_open (f : file) : os nat :=
  fun t => let fd := lowest_free t in (Some fd, set fd (Some f) t).

(** [os.dup(fd)]. *)
Definition os_dup (fd : nat) : os nat :=
  fun t =>
    match lookup fd t with
    | Some f => os_open f t
    | None => (None, t)
    end.

(** [os.dup2(fd, fd2)]. *)
Definition os_dup2 (fd fd2 : nat) : os unit :=
  fun t =>
    match lookup fd t with
    | Some f => (Some tt, set fd2 (Some f) t)
    | None => (None, t)
    end.

(** [os.close(fd)]. *)
Definition os_close (fd : nat) : os unit :=
  fun t =>
    match lookup fd t with
    | Some _ => (Some tt, set fd None t)
    | None => (None, t)
    end.

Record Silencer : Type := {
  _stdout : bool;
  _stdout_null : nat;
  _stdout_save : nat;
  _stderr : bool;
  _stderr_null : nat;
  _stderr_save : nat
}.

Definition __init__ (stdout stderr : bool) : os Silencer :=
  stdout_null <- os_open devnull ;;
  stdout_save <- os_dup 1 ;;
  stderr_null <- os_open devnull ;;
  stderr_save <- os_dup 2 ;;
  os_ret {| _stdout := stdout;
            _stdout_null := stdout_null;
            _stdout_save := stdout_save;
            _stderr := stderr;
            _stderr_null := stderr_null;
            _stderr_save := stderr_save |}.

Definition __enter__ (self : Silencer) : os unit :=
  (if _stdout self then os_dup2 (_stdout_null self) 1 else os_ret tt) ;;
  (if _stderr self then os_dup2 (_stderr_null self) 2 else os_ret tt).

Definition __exit__ (self : Silencer) : os unit :=
  os_dup2 (_stdout_save self) 1 ;;
  os_dup2 (_stderr_save self) 2 ;;
  os_close (_stdout_null self) ;;
  os_close (_stdout_save self) ;;
  os_close (_stderr_null self) ;;
  os_close (_stderr_save self).

(** *** The table *)

Lemma lookup_nil (fd : nat) : lookup fd [] = None.
Proof. unfold lookup. now destruct fd. Qed.

Lemma lookup_set_same (fd : nat) (f : option file) :
  forall t, lookup fd (set fd f t) = f.
Proof.
  unfold lookup. induction fd as [|fd IH]; intros [|x t]; cbn; auto.
Qed.

Lemma lookup_set_other (fd fd' : nat) (f : option file) :
  fd <> fd' -> forall t, lookup fd' (set fd f t) = lookup fd' t.
Proof.
  unfold lookup. revert fd'.
  induction fd as [|fd IH]; intros [|fd'] Hne [|x t]; cbn; try congruence; auto.
  - now destruct fd'.
  - rewrite IH by congruence. now destruct fd'.
Qed.

Lemma lookup_set (fd fd' : nat) (f : option file) (t : fds) :
  lookup fd' (set fd f t) = if Nat.eqb fd fd' then f else lookup fd' t.
Proof.
  destruct (Nat.eqb_spec fd fd') as [<- | Hne];
    [apply lookup_set_same | now apply lookup_set_other].
Qed.

Lemma lowest_free_closed (t : fds) : lookup (lowest_free t) t = None.
Proof.
  unfold lookup. induction t as [|[f|] t IH]; cbn; auto.
Qed.

Lemma lowest_free_least (t : fds) (fd : nat) :
  fd < lowest_free t -> lookup fd t <> None.
Proof.
  unfold lookup. revert fd. induction t as [|[f|] t IH]; intros fd H; cbn in *; try lia.
  destruct fd as [|fd]; [discriminate | apply IH; lia].
Qed.

Lemma lowest_free_open (t : fds) (fd : nat) :
  lookup fd t <> None -> lowest_free t <> fd.
Proof. intros H <-. apply H, lowest_free_closed. Qed.

Lemma lowest_free_unique (t : fds) (fd : nat) :
  lookup fd t = None -> (forall k, k < fd -> lookup k t <> None) -> lowest_free t = fd.
Proof.
  intros Hclosed Hopen.
  destruct (Nat.lt_trichotomy (lowest_free t) fd) as [Hlt | [Heq | Hgt]].
  - exfalso. apply (Hopen _ Hlt), lowest_free_closed.
  - exact Heq.
  - exfalso. now apply (lowest_free_least t fd Hgt).
Qed.

(** Decides the comparisons of descriptors that a goal or a hypothesis
    about the table depends on. *)
Ltac table :=
  repeat match goal with
         | H : context [Nat.eqb ?a ?b] |- _ =>
             destruct (Nat.eqb_spec a b); try subst; try congruence; try lia
         | |- context [Nat.eqb ?a ?b] =>
             destruct (Nat.eqb_spec a b); try subst; try congruence; try lia
         end.

Ltac eqbs :=
  rewrite ?Nat.eqb_refl;
  repeat match goal with
         | |- context [Nat.eqb ?a ?b] =>
             replace (Nat.eqb a b) with false by (symmetry; apply Nat.eqb_neq; congruence)
         end.

(** The four descriptors that [__init__] takes, for a table with the
    descriptors 1 and 2 open. *)
Lemma init_opens (stdout stderr : bool) (t : fds) (out err : file) :
  lookup 1 t = Some out -> lookup 2 t = Some err ->
  exists self t',
    __init__ stdout stderr t = (Some self, t') /\
    _stdout self = stdout /\ _stderr self = stderr /\
    NoDup [1; 2; _stdout_null self; _stdout_save self; _stderr_null self;
           _stderr_save self] /\
    lookup (_stdout_null self) t = None /\ lookup (_stdout_save self) t = None /\
    lookup (_stderr_null self) t = None /\ lookup (_stderr_save self) t = None /\
    forall fd,
      lookup fd t'
      = if Nat.eqb fd (_stdout_null self) then Some devnull
        else if Nat.eqb fd (_stdout_save self) then Some out
        else if Nat.eqb fd (_stderr_null self) then Some devnull
        else if Nat.eqb fd (_stderr_save self) then Some err
        else lookup fd t.
Proof.
  intros H1 H2. unfold __init__, os_bind, os_dup, os_open, os_ret.
  set (n1 := lowest_free t).
  assert (Hn1 : lookup n1 t = None) by apply lowest_free_closed.
  set (t1 := set n1 (Some devnull) t).
  assert (L1 : forall fd, lookup fd t1 = if Nat.eqb n1 fd then Some devnull else lookup fd t)
    by (intros fd; apply lookup_set).
  rewrite (L1 1). destruct (Nat.eqb_spec n1 1) as [E | N11]; [congruence|]. rewrite H1.
  cbv beta iota zeta.
  set (s1 := lowest_free t1).
  assert (Hs1 : lookup s1 t1 = None) by apply lowest_free_closed.
  set (t2 := set s1 (Some out) t1).
  assert (L2 : forall fd, lookup fd t2 = if Nat.eqb s1 fd then Some out else lookup fd t1)
    by (intros fd; apply lookup_set).
  set (n2 := lowest_free t2).
  assert (Hn2 : lookup n2 t2 = None) by apply lowest_free_closed.
  set (t3 := set n2 (Some devnull) t2).
  assert (L3 : forall fd, lookup fd t3 = if Nat.eqb n2 fd then Some devnull else lookup fd t2)
    by (intros fd; apply lookup_set).
  set (s2 := lowest_free t3).
  assert (Hs2 : lookup s2 t3 = None) by apply lowest_free_closed.
  rewrite L1 in Hs1. rewrite L2, L1 in Hn2. rewrite L3, L2, L1 in Hs2.
  clearbody n1 s1 n2 s2.
  destruct (Nat.eqb_spec n1 s1); [discriminate|].
  destruct (Nat.eqb_spec s1 n2); [discriminate|].
  destruct (Nat.eqb_spec n1 n2); [discriminate|].
  destruct (Nat.eqb_spec n2 s2); [discriminate|].
  destruct (Nat.eqb_spec s1 s2); [discriminate|].
  destruct (Nat.eqb_spec n1 s2); [discriminate|].
  assert (D : s1 <> 1 /\ s1 <> 2 /\ n2 <> 1 /\ n2 <> 2 /\ s2 <> 1 /\ s2 <> 2 /\ n1 <> 2)
    by (repeat split; intros ->; congruence).
  destruct D as (? & ? & ? & ? & ? & ? & ?).
  rewrite (L3 2), (L2 2), (L1 2).
  destruct (Nat.eqb_spec n2 2); [congruence|].
  destruct (Nat.eqb_spec s1 2); [congruence|].
  destruct (Nat.eqb_spec n1 2); [congruence|].
  rewrite H2.
  eexists _, _. split; [reflexivity|]. cbn [_stdout _stderr _stdout_null _stdout_save
                                             _stderr_null _stderr_save].
  split; [reflexivity|]. split; [reflexivity|]. split.
  { repeat constructor; cbn [In]; intuition congruence. }
  repeat (split; [assumption|]).
  intros fd. rewrite lookup_set, L3, L2, L1. table.
Qed.

(** X22: In a process whose descriptors 1 and 2 are open, the three steps
    of [with Silencer(stdout, stderr):] raise nothing. Inside the block
    descriptor 1 is on the null device exactly when [stdout] is set, and
    descriptor 2 exactly when [stderr] is set; after the block every
    descriptor is as it was before the [Silencer] was made: the two streams
    are back, and the four descriptors that were taken are closed again. *)
Theorem silencer_restores (stdout stderr : bool) (t : fds) (out err : file) :
  lookup 1 t = Some out -> lookup 2 t = Some err ->
  exists self made inside after,
    __init__ stdout stderr t = (Some self, made) /\
    __enter__ self made = (Some tt, inside) /\
    lookup 1 inside = (if stdout then Some devnull else Some out) /\
    lookup 2 inside = (if stderr then Some devnull else Some err) /\
    __exit__ self inside = (Some tt, after) /\
    forall fd, lookup fd after = lookup fd t.
Proof.
  intros H1 H2.
  destruct (init_opens stdout stderr t out err H1 H2)
    as (self & made & Hinit & Hout & Herr & Hnd & Cn1 & Cs1 & Cn2 & Cs2 & Lmade).
  destruct self as [so n1 s1 se n2 s2].
  cbn [_stdout _stderr _stdout_null _stdout_save _stderr_null _stderr_save] in *.
  subst so se.
  assert (D : 1 <> n1 /\ 1 <> s1 /\ 1 <> n2 /\ 1 <> s2 /\ 2 <> n1 /\ 2 <> s1 /\
              2 <> n2 /\ 2 <> s2 /\ n1 <> s1 /\ n1 <> n2 /\ n1 <> s2 /\ s1 <> n2 /\
              s1 <> s2 /\ n2 <> s2).
  { inversion Hnd as [|? ? Ha Hnd1]; subst. inversion Hnd1 as [|? ? Hb Hnd2]; subst.
    inversion Hnd2 as [|? ? Hc Hnd3]; subst. inversion Hnd3 as [|? ? Hd Hnd4]; subst.
    inversion Hnd4 as [|? ? He _]; subst. cbn [In] in *. repeat split; intuition congruence. }
  destruct D as (? & ? & ? & ? & ? & ? & ? & ? & ? & ? & ? & ? & ? & ?).
  exists {| _stdout := stdout; _stdout_null := n1; _stdout_save := s1;
            _stderr := stderr; _stderr_null := n2; _stderr_save := s2 |}, made.
  (* the table inside the block *)
  assert (Hin : exists inside,
             __enter__ {| _stdout := stdout; _stdout_null := n1; _stdout_save := s1;
                          _stderr := stderr; _stderr_null := n2; _stderr_save := s2 |} made
             = (Some tt, inside) /\
             forall fd,
               lookup fd inside
               = if (Nat.eqb fd 1 && stdout)%bool then Some devnull
                 else if (Nat.eqb fd 2 && stderr)%bool then Some devnull
                 else lookup fd made).
  { unfold __enter__, os_bind, os_dup2, os_ret.
    cbn [_stdout _stderr _stdout_null _stdout_save _stderr_null _stderr_save].
    destruct stdout, stderr; repeat (rewrite ?lookup_set, ?Lmade; eqbs; cbv beta iota);
      eexists; (split; [reflexivity|]); intros fd; rewrite ?lookup_set, ?andb_true_r,
        ?andb_false_r; cbv beta iota; table; reflexivity. }
  destruct Hin as (inside & Henter & Linside).
  exists inside.
  assert (Hexit : exists after,
             __exit__ {| _stdout := stdout; _stdout_null := n1; _stdout_save := s1;
                         _stderr := stderr; _stderr_null := n2; _stderr_save := s2 |} inside
             = (Some tt, after) /\
             forall fd, lookup fd after = lookup fd t).
  { unfold __exit__, os_bind, os_dup2, os_close.
    cbn [_stdout _stderr _stdout_null _stdout_save _stderr_null _stderr_save].
    repeat (rewrite ?lookup_set, ?Linside, ?Lmade; eqbs; cbv beta iota; cbn [andb]).
    eexists. split; [reflexivity|].
    intros fd. rewrite !lookup_set, Linside, Lmade.
    destruct (Nat.eqb_spec s2 fd); [subst; congruence|].
    destruct (Nat.eqb_spec n2 fd); [subst; congruence|].
    destruct (Nat.eqb_spec s1 fd); [subst; congruence|].
    destruct (Nat.eqb_spec n1 fd); [subst; congruence|].
    destruct (Nat.eqb_spec 2 fd); [subst; congruence|].
    destruct (Nat.eqb_spec 1 fd); [subst; congruence|].
    destruct (Nat.eqb_spec fd 1); [congruence|].
    destruct (Nat.eqb_spec fd 2); [congruence|].
    destruct (Nat.eqb_spec fd n1); [congruence|].
    destruct (Nat.eqb_spec fd s1); [congruence|].
    destruct (Nat.eqb_spec fd n2); [congruence|].
    destruct (Nat.eqb_spec fd s2); [congruence|].
    reflexivity. }
  destruct Hexit as (after & Hexit & Lafter).
  exists after. split; [exact Hinit|]. split; [exact Henter|].
  split.
  { rewrite Linside, Lmade. destruct stdout, stderr; eqbs; cbn [andb]; cbv iota;
      rewrite ?H1; reflexivity. }
  split.
  { rewrite Linside, Lmade. destruct stdout, stderr; eqbs; cbn [andb]; cbv iota;
      rewrite ?H2; reflexivity. }
  split; [exact Hexit | exact Lafter].
Qed.

Lemma silencer_restores_witness :
  exists self made inside after,
    __init__ false true [Some (stream "stdin"); Some (stream "stdout"); Some (stream "stderr")]
    = (Some self, made) /\
    __enter__ self made = (Some tt, inside) /\
    lookup 1 inside = Some (stream "stdout") /\
    lookup 2 inside = Some devnull /\
    __exit__ self inside = (Some tt, after) /\
    forall fd,
      lookup fd after
      = lookup fd [Some (stream "stdin"); Some (stream "stdout"); Some (stream "stderr")].
Proof.
  exact (silencer_restores false true
           [Some (stream "stdin"); Some (stream "stdout"); Some (stream "stderr")]
           (stream "stdout") (stream "stderr") eq_refl eq_refl).
Defined.

(** X23: Making a [Silencer] raises [OSError] exactly when the descriptors
    0 and 1 of the process are both closed; the null device that was opened
    before the failing [os.dup(1)] then stays open on descriptor 0. With
    descriptor 0 or 1 open the constructor returns, also when descriptor 2
    is closed. *)
Theorem init_raises_iff (stdout stderr : bool) (t : fds) :
  (fst (__init__ stdout stderr t) = None <-> lookup 0 t = None /\ lookup 1 t = None) /\
  (fst (__init__ stdout stderr t) = None ->
   forall fd,
     lookup fd (snd (__init__ stdout stderr t))
     = if Nat.eqb fd 0 then Some devnull else lookup fd t).
Proof.
  unfold __init__, os_bind, os_dup, os_open, os_ret, lookup.
  destruct t as [|[f0|] [|[f1|] [|[f2|] t]]]; cbn;
    (split; [split; [try discriminate; now split | intros [? ?]; congruence]
            | try discriminate; intros _ [|[|[|fd]]]; reflexivity ]).
Qed.

(** X24: In a process with descriptor 1 open and the descriptors 0 and 2
    closed, [with Silencer(stdout, stderr=True):] raises nothing and does
    not give descriptor 1 back: after the block it is on the null device.
    The copy of descriptor 1 was saved on descriptor 2, which [__enter__]
    redirects. Every other descriptor is as before. *)
Theorem silencer_loses_stdout (stdout : bool) (t : fds) (out : file) :
  lookup 0 t = None -> lookup 1 t = Some out -> lookup 2 t = None ->
  exists self made inside after,
    __init__ stdout true t = (Some self, made) /\
    __enter__ self made = (Some tt, inside) /\
    __exit__ self inside = (Some tt, after) /\
    lookup 1 after = Some devnull /\
    forall fd, fd <> 1 -> lookup fd after = lookup fd t.
Proof.
  intros H0 H1 H2.
  assert (Hn1 : lowest_free t = 0) by (apply lowest_free_unique; [exact H0 | lia]).
  set (t1 := set 0 (Some devnull) t).
  assert (L1 : forall fd, lookup fd t1 = if Nat.eqb 0 fd then Some devnull else lookup fd t)
    by (intros fd; apply lookup_set).
  assert (Hs1 : lowest_free t1 = 2).
  { apply lowest_free_unique; [now rewrite L1|].
    intros [|[|k]] Hk; rewrite L1; cbn [Nat.eqb]; [discriminate | congruence | lia]. }
  set (t2 := set 2 (Some out) t1).
  assert (L2 : forall fd, lookup fd t2 = if Nat.eqb 2 fd then Some out else lookup fd t1)
    by (intros fd; apply lookup_set).
  set (n2 := lowest_free t2).
  assert (Hn2 : lookup n2 t2 = None) by apply lowest_free_closed.
  set (t3 := set n2 (Some devnull) t2).
  assert (L3 : forall fd, lookup fd t3 = if Nat.eqb n2 fd then Some devnull else lookup fd t2)
    by (intros fd; apply lookup_set).
  set (s2 := lowest_free t3).
  assert (Hs2 : lookup s2 t3 = None) by apply lowest_free_closed.
  set (made := set s2 (Some out) t3).
  assert (Lmade : forall fd, lookup fd made = if Nat.eqb s2 fd then Some out else lookup fd t3)
    by (intros fd; apply lookup_set).
  rewrite L2, L1 in Hn2. rewrite L3, L2, L1 in Hs2.
  assert (Hinit : __init__ stdout true t
                  = (Some {| _stdout := stdout; _stdout_null := 0; _stdout_save := 2;
                             _stderr := true; _stderr_null := n2; _stderr_save := s2 |},
                     made)).
  { unfold __init__, os_bind, os_dup, os_open, os_ret. rewrite Hn1. fold t1.
    rewrite (L1 1). cbn [Nat.eqb]. rewrite H1. cbv beta iota zeta. rewrite Hs1. fold t2.
    fold n2. fold t3. rewrite (L3 2), (L2 2). rewrite Nat.eqb_refl.
    destruct (Nat.eqb_spec n2 2) as [E | _]; [rewrite E in Hn2; discriminate|].
    cbv beta iota zeta. reflexivity. }
  clearbody n2 s2 t1 t2 t3 made.
  destruct (Nat.eqb_spec 2 n2); [discriminate|].
  destruct (Nat.eqb_spec 0 n2); [discriminate|].
  destruct (Nat.eqb_spec n2 s2); [discriminate|].
  destruct (Nat.eqb_spec 2 s2); [discriminate|].
  destruct (Nat.eqb_spec 0 s2); [discriminate|].
  assert (D : n2 <> 1 /\ s2 <> 1) by (split; intros ->; congruence).
  destruct D as [? ?].
  exists {| _stdout := stdout; _stdout_null := 0; _stdout_save := 2;
            _stderr := true; _stderr_null := n2; _stderr_save := s2 |}, made.
  assert (Hin : exists inside,
             __enter__ {| _stdout := stdout; _stdout_null := 0; _stdout_save := 2;
                          _stderr := true; _stderr_null := n2; _stderr_save := s2 |} made
             = (Some tt, inside) /\
             forall fd,
               lookup fd inside
               = if (Nat.eqb fd 1 && stdout)%bool then Some devnull
                 else if Nat.eqb fd 2 then Some devnull
                 else lookup fd made).
  { unfold __enter__, os_bind, os_dup2, os_ret.
    cbn [_stdout _stderr _stdout_null _stdout_save _stderr_null _stderr_save].
    destruct stdout;
      repeat (rewrite ?lookup_set, ?Lmade, ?L3, ?L2, ?L1; eqbs; cbv beta iota);
      eexists; (split; [reflexivity|]); intros fd; rewrite ?lookup_set, ?andb_true_r,
        ?andb_false_r; cbv beta iota; table; reflexivity. }
  destruct Hin as (inside & Henter & Linside).
  exists inside.
  assert (Hexit : exists after,
             __exit__ {| _stdout := stdout; _stdout_null := 0; _stdout_save := 2;
                         _stderr := true; _stderr_null := n2; _stderr_save := s2 |} inside
             = (Some tt, after) /\
             lookup 1 after = Some devnull /\
             forall fd, fd <> 1 -> lookup fd after = lookup fd t).
  { unfold __exit__, os_bind, os_dup2, os_close.
    cbn [_stdout _stderr _stdout_null _stdout_save _stderr_null _stderr_save].
    repeat (rewrite ?lookup_set, ?Linside, ?Lmade, ?L3, ?L2, ?L1; eqbs; cbv beta iota;
            cbn [andb]).
    eexists. split; [reflexivity|]. split.
    - repeat (rewrite ?lookup_set, ?Linside, ?Lmade, ?L3, ?L2, ?L1; eqbs; cbv beta iota;
              cbn [andb]). reflexivity.
    - intros fd Hfd. rewrite !lookup_set, Linside, Lmade, L3, L2, L1.
      destruct (Nat.eqb_spec s2 fd); [subst; congruence|].
      destruct (Nat.eqb_spec n2 fd); [subst; congruence|].
      destruct (Nat.eqb_spec 2 fd); [subst; congruence|].
      destruct (Nat.eqb_spec 0 fd); [subst; congruence|].
      destruct (Nat.eqb_spec 1 fd); [subst; congruence|].
      destruct (Nat.eqb_spec fd 1); [congruence|].
      destruct (Nat.eqb_spec fd 2); [congruence|].
      cbn [andb]. reflexivity. }
  destruct Hexit as (after & Hexit & Hone & Lafter).
  exists after. repeat split; assumption.
Qed.

Lemma silencer_loses_stdout_witness :
  exists self made inside after,
    __init__ false true [None; Some (stream "stdout")] = (Some self, made) /\
    __enter__ self made = (Some tt, inside) /\
    __exit__ self inside = (Some tt, after) /\
    lookup 1 after = Some devnull /\
    forall fd, fd <> 1 -> lookup fd after = lookup fd [None; Some (stream "stdout")].
Proof.
  exact (silencer_loses_stdout false [None; Some (stream "stdout")] (stream "stdout")
           eq_refl eq_refl eq_refl).
Defined.

(** *** The statement [with Silencer(stdout, stderr):] in any process *)









End Silencer.

(** ** sirius.py: [__enter__] under its [Silencer] *)

Module SilencedSession.

(** [with Silencer(stdout, stderr): block]. The constructor and the
    [__enter__] of the [Silencer] run before the block, and an [OSError] of
    theirs ends the statement before the block is entered. Its [__exit__]
    runs after the block however that ended, and an [OSError] of its own
    takes the place of the outcome of the block. The block works on the
    object and is taken to leave the descriptors alone. [None] stands for
    [OSError]. *)
Definition silenced {A : Type} (stdout stderr : bool) (block : M A)
  (t : Silencer.fds) (s : sirius) : option (outcome A) * Silencer.fds * sirius :=
  match Silencer.__init__ stdout stderr t with
  | (None, t) => (None, t, s)
  | (Some self, t) =>
      match Silencer.__enter__ self t with
      | (None, t) => (None, t, s)
      | (Some _, t) =>
          let (result, s) := block s in
          match Silencer.__exit__ self t with
          | (None, t) => (None, t, s)
          | (Some _, t) => (Some result, t, s)
          end
      end
  end.

(** [Sirius.__enter__]: the block of [Session.__enter__] inside
    [with Silencer(stdout=False, stderr=True):]. *)
Definition __enter__ (svc : service) (config : SiriusConfig)
  : Silencer.fds -> sirius -> option (outcome unit) * Silencer.fds * sirius :=
  silenced false true (Session.__enter__ svc config).



Section WithSilencer.

Variable svc : service.
Variable config : SiriusConfig.


End WithSilencer.

(** The descriptors of a process started from a terminal. *)
Definition terminal : Silencer.fds :=
  [Some (Silencer.stream "stdin"); Some (Silencer.stream "stdout");
   Some (Silencer.stream "stderr")]%list.



End SilencedSession.

(** ** sirius.py: projects, features and the end of the session

    The calls of [shutdown], [init_project], [close_project],
    [close_all_projects], [set_features] and [init_job] to the outside, with
    the answers these calls can give. A project is known by its
    [project_id]. *)

Module Project.

Local Open Scope list_scope.

(** What the service and the file system answer:
    - [os.path.exists(project_path)] and [os.remove(project_path)];
    - [projects().create_project], [projects().get_projects],
      [jobs().delete_jobs] and [projects().close_project];
    - [FeatureImport.from_dict] on a feature, and
      [features().add_aligned_features] on a project and the converted
      features;
    - [jobs().get_default_job_config];
    - the status code of [ActuatorApi.shutdown_with_http_info]. *)
Record workspace (FeatureImport : Type) : Type := {
  os_path_exists : bool;
  os_remove : outcome unit;
  projects_create_project : outcome string;
  projects_get_projects : outcome (list string);
  jobs_delete_jobs : string -> outcome unit;
  projects_close_project : string -> outcome unit;
  feature_import_from_dict : Node.feat_input -> outcome FeatureImport;
  features_add_aligned_features : string -> list FeatureImport -> outcome unit;
  jobs_get_default_job_config : outcome unit;
  actuator_shutdown : outcome Z
}.
Arguments os_path_exists {FeatureImport} w.
Arguments os_remove {FeatureImport} w.
Arguments projects_create_project {FeatureImport} w.
Arguments projects_get_projects {FeatureImport} w.
Arguments jobs_delete_jobs {FeatureImport} w.
Arguments projects_close_project {FeatureImport} w.
Arguments feature_import_from_dict {FeatureImport} w.
Arguments features_add_aligned_features {FeatureImport} w.
Arguments jobs_get_default_job_config {FeatureImport} w.
Arguments actuator_shutdown {FeatureImport} w.

(** Code that can raise and has no other effect, run on the object. *)
Definition lift {A : Type} (o : outcome A) : M A := fun s => (o, s).

(** [self._api.<name>()]: an attribute error when no handle is held. *)
Definition attribute (name : string) : M unit :=
  api <- get_api ;;
  if held api then ret tt
  else raise (AttributeError ("'NoneType' object has no attribute '" ++ name ++ "'")).

Section WithWorkspace.

Variable FeatureImport : Type.
Variable w : workspace FeatureImport.
Variable config : SiriusConfig.

(** [config.project_name] and [config.project_path]. *)
Variable project_name : string.
Variable project_path : string.

Definition shutdown : M unit :=
  log "Shutting down SIRIUS service..." "TEMP" ;;
  attribute "projects" ;;
  projects <- remote "get_projects" (projects_get_projects w) ;;
  match projects with
  | _ :: _ =>
      log "SIRIUS service cannot be shut down due to running projects!" "WARNING"
  | [] =>
      try_except
        (attribute "get_client" ;;
         status_code <- remote "shutdown" (actuator_shutdown w) ;;
         if (status_code =? 200)%Z then log "SIRIUS service stopped." "VERBOSE"
         else ret tt)
        (fun err => log "Unable to shut down SIRIUS service!" "ERROR" ;; raise err)
  end.

(** [__exit__]; the [Silencer] around its body is left out as in
    [__enter__]. *)
Definition __exit__ : M unit := shutdown.

Definition init_project : M string :=
  log "Creating SIRIUS project..." "TEMP" ;;
  (if os_path_exists w then remote "os.remove" (os_remove w) else ret tt) ;;
  try_except
    (attribute "projects" ;;
     project <- remote "create_project" (projects_create_project w) ;;
     log "SIRIUS project space created." "VERBOSE" ;;
     ret project)
    (fun err =>
       log ("Unable to initialize SIRIUS project space '" ++ project_name ++ "' at '"
            ++ project_path ++ "'!") "ERROR" ;;
       raise err).

(** [init_job]: the template comes from the service, the switches from the
    configuration. *)
Definition init_job : M Harvest.job :=
  log "Creating SIRIUS job..." "TEMP" ;;
  try_except
    (attribute "jobs" ;;
     remote "get_default_job_config" (jobs_get_default_job_config w) ;;
     ret (Harvest.init_job config))
    (fun err => log "Unable to initialize SIRIUS job!" "ERROR" ;; raise err).

Definition close_project (project : string) : M unit :=
  log "Closing SIRIUS jobs and project..." "TEMP" ;;
  try_except
    (attribute "jobs" ;;
     remote "delete_jobs" (jobs_delete_jobs w project) ;;
     attribute "projects" ;;
     remote "close_project" (projects_close_project w project))
    (fun err => log "Could not close the SIRIUS project!" "ERROR" ;; raise err).

(** [for project in projects: self.close_project(project)]. *)
Fixpoint close_each (projects : list string) : M unit :=
  match projects with
  | [] => ret tt
  | project :: rest => close_project project ;; close_each rest
  end.

Definition close_all_projects : M unit :=
  log "Closing all SIRIUS jobs and projects..." "TEMP" ;;
  projects <- try_except
                (attribute "projects" ;;
                 remote "get_projects" (projects_get_projects w))
                (fun err => log "Could not get current SIRIUS projects!" "ERROR" ;;
                            raise err) ;;
  close_each projects.

Definition set_features (project : string) (features : list Node.feat_input) : M unit :=
  log "Setting features to SIRIUS..." "TEMP" ;;
  sirius_features <- try_except
                       (lift (omap (feature_import_from_dict w) features))
                       (fun err =>
                          log "Unable to convert features for SIRIUS service!" "ERROR" ;;
                          raise err) ;;
  try_except
    (attribute "features" ;;
     remote "add_aligned_features" (features_add_aligned_features w project sirius_features))
    (fun err => log "Unable to set features to SIRIUS service!" "ERROR" ;; raise err).

End WithWorkspace.

(** *** Counting the events of a kind *)

Definition is_log (level message : string) (e : event) : bool :=
  match e with
  | Log l m => (l =? level)%string && (m =? message)%string
  | _ => false
  end.

Definition is_call (call : string) (e : event) : bool :=
  match e with
  | Remote c => (c =? call)%string
  | _ => false
  end.

Definition count (p : event -> bool) (t : list event) : nat := length (filter p t).

Lemma count_app (p : event -> bool) (t u : list event) :
  count p (t ++ u) = count p t + count p u.
Proof. unfold count. now rewrite filter_app, length_app. Qed.

Lemma count_In (p : event -> bool) (t : list event) :
  0 < count p t <-> exists e, In e t /\ p e = true.
Proof.
  unfold count. induction t as [|e t IH]; cbn [filter].
  - split; [cbn; lia | now intros [e [[] _]]].
  - destruct (p e) eqn:He.
    + split; [intros _; exists e; split; [now left | exact He] | cbn; lia].
    + rewrite IH. split; intros [e' [Hin He']].
      * exists e'. split; [now right | exact He'].
      * destruct Hin as [<- | Hin]; [congruence | now exists e'].
Qed.

(** A computation that emits no event of the kind [p], however it ends. *)
Definition silent {A : Type} (p : event -> bool) (m : M A) : Prop :=
  forall s, count p (trace (snd (m s))) = count p (trace s).

(** A computation that emits no event of the kind [p] when it returns. *)
Definition clean {A : Type} (p : event -> bool) (m : M A) : Prop :=
  forall s a s', m s = (Return a, s') -> count p (trace s') = count p (trace s).

Section Counting.

Variable p : event -> bool.

Lemma silent_clean {A : Type} (m : M A) : silent p m -> clean p m.
Proof. intros H s a s' Hm. specialize (H s). now rewrite Hm in H. Qed.

Lemma silent_ret {A : Type} (a : A) : silent p (ret a).
Proof. now intros s. Qed.

Lemma silent_raise {A : Type} (e : exn) : silent p (@raise A e).
Proof. now intros s. Qed.

Lemma silent_lift {A : Type} (o : outcome A) : silent p (lift o).
Proof. now intros s. Qed.

Lemma silent_get_api : silent p get_api.
Proof. now intros s. Qed.

Lemma silent_set_api (h : option handle) : silent p (set_api h).
Proof. now intros s. Qed.

Lemma silent_emit (e : event) : p e = false -> silent p (emit e).
Proof.
  intros He s. unfold emit. cbn [snd trace]. rewrite count_app.
  unfold count at 2. cbn [filter]. rewrite He. cbn. lia.
Qed.

Lemma silent_bind {A B : Type} (m : M A) (k : A -> M B) :
  silent p m -> (forall a, silent p (k a)) -> silent p (bind m k).
Proof.
  intros Hm Hk s. unfold bind. specialize (Hm s).
  destruct (m s) as [[a|e] s1]; cbn [snd] in *; [|exact Hm].
  now rewrite (Hk a s1).
Qed.

Lemma silent_try_except {A : Type} (body : M A) (handler : exn -> M A) :
  silent p body -> (forall e, silent p (handler e)) -> silent p (try_except body handler).
Proof.
  intros Hb Hh s. unfold try_except. specialize (Hb s).
  destruct (body s) as [[a|e] s1]; cbn [snd] in *; [exact Hb|].
  now rewrite (Hh e s1).
Qed.

Lemma silent_remote {A : Type} (call : string) (answer : outcome A) :
  p (Remote call) = false -> silent p (remote call answer).
Proof.
  intros Hc. unfold remote. apply silent_bind; [now apply silent_emit|].
  intros _. destruct answer; [apply silent_ret | apply silent_raise].
Qed.

Lemma silent_attribute (name : string) : silent p (attribute name).
Proof.
  unfold attribute. apply silent_bind; [apply silent_get_api|].
  intros api. destruct (held api); [apply silent_ret | apply silent_raise].
Qed.

Lemma clean_ret {A : Type} (a : A) : clean p (ret a).
Proof. apply silent_clean, silent_ret. Qed.

Lemma clean_raise {A : Type} (e : exn) : clean p (@raise A e).
Proof. intros s a s' H. discriminate. Qed.

Lemma clean_bind {A B : Type} (m : M A) (k : A -> M B) :
  clean p m -> (forall a, clean p (k a)) -> clean p (bind m k).
Proof.
  intros Hm Hk s b s' H. unfold bind in H.
  destruct (m s) as [[a|e] s1] eqn:Hms; [|discriminate].
  rewrite (Hk a s1 b s' H). exact (Hm s a s1 Hms).
Qed.

(** [try: body except Exception as err: ...; raise err]. *)
Lemma clean_reraise {A : Type} (body : M A) (note : M unit) :
  clean p body -> clean p (try_except body (fun err => note ;; raise err)).
Proof.
  intros Hb s a s' H. unfold try_except in H.
  destruct (body s) as [[a'|e] s1] eqn:Hbs.
  - inversion H; subst. exact (Hb s a s' Hbs).
  - unfold bind in H. destruct (note s1) as [[u|e'] s2]; discriminate.
Qed.

End Counting.

(** Splits a computation into its steps, for [silent]. *)
Ltac silence :=
  repeat match goal with
         | |- silent _ (ret _) => apply silent_ret
         | |- silent _ (raise _) => apply silent_raise
         | |- silent _ (lift _) => apply silent_lift
         | |- silent _ get_api => apply silent_get_api
         | |- silent _ (set_api _) => apply silent_set_api
         | |- silent _ (attribute _) => apply silent_attribute
         | |- silent _ (emit _) => apply silent_emit; reflexivity
         | |- silent _ (log _ _) => apply silent_emit; reflexivity
         | |- silent _ (sleep _) => apply silent_emit; reflexivity
         | |- silent _ (remote _ _) => apply silent_remote; reflexivity
         | |- silent _ (bind _ _) => apply silent_bind; [|intros ?]
         | |- silent _ (try_except _ _) => apply silent_try_except; [|intros ?]
         | |- silent _ (if ?b then _ else _) => destruct b
         | |- silent _ (match ?x with _ => _ end) => destruct x
         end.

(** The same for [clean]. *)
Ltac cleanse :=
  repeat match goal with
         | |- clean _ (raise _) => apply clean_raise
         | |- clean _ (try_except _ (fun err => _ ;; raise err)) => apply clean_reraise
         | |- clean _ (bind _ _) => apply clean_bind; [|intros ?]
         | |- clean _ (if ?b then _ else _) => destruct b
         | |- clean _ (match ?x with _ => _ end) => destruct x
         | |- clean _ _ => apply silent_clean; solve [silence]
         end.

Ltac run_P :=
  cbv beta iota delta
    [bind ret raise emit log sleep remote set_api get_api try_except held
     _api trace job_queries lift attribute].

Section Facts.

Variable FeatureImport : Type.
Variable w : workspace FeatureImport.

(** X25: [shutdown] asks the service to stop exactly when the service lists no
    open project; with a project open it logs a warning and returns. It
    takes any status code for an answer: only for 200 does it log that
    the service has stopped, and for another code it returns without a
    line. An exception of [get_projects] is raised again without the error
    line that the call to stop has. *)
Theorem shutdown_calls_iff (s : sirius) (h : handle) :
  _api s = Some h ->
  (In (Remote "shutdown") (SessionFacts.emitted_by (shutdown FeatureImport w) s) <->
   projects_get_projects w = Return []) /\
  (forall project rest,
     projects_get_projects w = Return (project :: rest) ->
     shutdown FeatureImport w s
     = (Return tt,
        emitted s [ Log "TEMP" "Shutting down SIRIUS service...";
                    Remote "get_projects";
                    Log "WARNING"
                      "SIRIUS service cannot be shut down due to running projects!" ])) /\
  (forall status_code,
     projects_get_projects w = Return [] ->
     actuator_shutdown w = Return status_code -> status_code <> 200%Z ->
     shutdown FeatureImport w s
     = (Return tt,
        emitted s [ Log "TEMP" "Shutting down SIRIUS service...";
                    Remote "get_projects"; Remote "shutdown" ])) /\
  (forall e,
     projects_get_projects w = Raise e ->
     shutdown FeatureImport w s
     = (Raise e,
        emitted s [ Log "TEMP" "Shutting down SIRIUS service...";
                    Remote "get_projects" ])).
Proof.
  destruct s as [api q tr]. cbn [_api]. intros ->.
  unfold SessionFacts.emitted_by, shutdown, emitted.
  split; [|split; [|split]].
  - destruct (projects_get_projects w) as [[|project rest]|e] eqn:Hp;
      destruct (actuator_shutdown w) as [status_code|e'] eqn:Hs;
      run_P; rewrite ?Hp; run_P; rewrite ?Hs; run_P;
      try destruct (status_code =? 200)%Z; run_P;
      cbn [snd trace]; repeat rewrite <- app_assoc;
      rewrite SessionFacts.skipn_emitted; cbn [app In];
      (split; [ intros H; first [ reflexivity | exfalso; intuition discriminate ]
              | intros H; first [ discriminate | tauto ] ]).
  - intros project rest Hp. run_P. rewrite Hp. run_P. now repeat rewrite <- app_assoc.
  - intros status_code Hp Hs Hne. run_P. rewrite Hp. run_P. rewrite Hs. run_P.
    apply Z.eqb_neq in Hne. rewrite Hne. run_P. now repeat rewrite <- app_assoc.
  - intros e Hp. run_P. rewrite Hp. run_P. now repeat rewrite <- app_assoc.
Qed.

(** Closing the project goes through. *)
Definition closes (project : string) : Prop :=
  jobs_delete_jobs w project = Return tt /\ projects_close_project w project = Return tt.

(** Closing the project raises [e]: when its jobs are deleted, or when the
    project itself is closed. *)
Definition fails_closing (project : string) (e : exn) : Prop :=
  jobs_delete_jobs w project = Raise e \/
  (jobs_delete_jobs w project = Return tt /\ projects_close_project w project = Raise e).

Lemma close_project_closes (s : sirius) (h : handle) (project : string) :
  _api s = Some h -> closes project ->
  close_project FeatureImport w project s
  = (Return tt,
     emitted s [ Log "TEMP" "Closing SIRIUS jobs and project...";
                 Remote "delete_jobs"; Remote "close_project" ]).
Proof.
  destruct s as [api q tr]. cbn [_api]. intros -> [Hd Hc].
  unfold close_project, emitted. run_P. rewrite Hd. run_P. rewrite Hc. run_P.
  now repeat rewrite <- app_assoc.
Qed.

Lemma close_project_fails (s : sirius) (h : handle) (project : string) (e : exn) :
  _api s = Some h -> fails_closing project e ->
  close_project FeatureImport w project s
  = (Raise e,
     emitted s ([ Log "TEMP" "Closing SIRIUS jobs and project..."; Remote "delete_jobs" ]
                ++ match jobs_delete_jobs w project with
                   | Return _ => [Remote "close_project"]
                   | Raise _ => []
                   end
                ++ [ Log "ERROR" "Could not close the SIRIUS project!" ])).
Proof.
  destruct s as [api q tr]. cbn [_api]. intros -> [Hd | [Hd Hc]];
    unfold close_project, emitted; run_P; rewrite Hd; run_P; rewrite ?Hc; run_P;
    cbn [app]; now repeat rewrite <- app_assoc.
Qed.

Lemma close_each_closes (projects : list string) (h : handle) :
  (forall project, In project projects -> closes project) ->
  forall s, _api s = Some h ->
    exists s',
      close_each FeatureImport w projects s = (Return tt, s') /\
      _api s' = Some h /\
      count (is_call "delete_jobs") (trace s')
      = count (is_call "delete_jobs") (trace s) + length projects /\
      count (is_call "close_project") (trace s')
      = count (is_call "close_project") (trace s) + length projects.
Proof.
  induction projects as [|project rest IH]; intros Hall s Hs; cbn [close_each].
  - exists s. cbn [length]. repeat split; auto.
  - unfold bind.
    rewrite (close_project_closes s h project Hs (Hall project (or_introl eq_refl))).
    destruct (IH (fun p Hp => Hall p (or_intror Hp))
                 (emitted s [ Log "TEMP" "Closing SIRIUS jobs and project...";
                              Remote "delete_jobs"; Remote "close_project" ]) Hs)
      as (s' & Hrun & Hapi & Hd & Hc).
    exists s'. split; [exact Hrun|]. split; [exact Hapi|].
    rewrite Hd, Hc. cbn [emitted trace length]. rewrite !count_app. cbn. lia.
Qed.

(** X26: [close_all_projects] closes the projects in the order in which the
    service lists them and stops at the first one that cannot be closed:
    its exception is raised, and the projects after it are left as they
    are, with their jobs. When every project can be closed, it returns
    after two calls for each. *)
Theorem close_all_projects_stops (s : sirius) (h : handle) :
  _api s = Some h ->
  (forall projects,
     projects_get_projects w = Return projects ->
     (forall project, In project projects -> closes project) ->
     exists s',
       close_all_projects FeatureImport w s = (Return tt, s') /\
       count (is_call "delete_jobs") (trace s')
       = count (is_call "delete_jobs") (trace s) + length projects /\
       count (is_call "close_project") (trace s')
       = count (is_call "close_project") (trace s) + length projects) /\
  (forall before project after e,
     projects_get_projects w = Return (before ++ project :: after) ->
     (forall project', In project' before -> closes project') ->
     fails_closing project e ->
     exists s',
       close_all_projects FeatureImport w s = (Raise e, s') /\
       count (is_call "delete_jobs") (trace s')
       = count (is_call "delete_jobs") (trace s) + length before + 1 /\
       count (is_call "close_project") (trace s')
       = count (is_call "close_project") (trace s) + length before
         + match jobs_delete_jobs w project with Return _ => 1 | Raise _ => 0 end).
Proof.
  intros Hs.
  assert (Hget : forall projects,
             projects_get_projects w = Return projects ->
             close_all_projects FeatureImport w s
             = close_each FeatureImport w projects
                 (emitted s [ Log "TEMP" "Closing all SIRIUS jobs and projects...";
                              Remote "get_projects" ])).
  { intros projects Hp. destruct s as [api q tr]. cbn [_api] in Hs. subst api.
    unfold close_all_projects, emitted. run_P. rewrite Hp. run_P.
    now repeat rewrite <- app_assoc. }
  split.
  - intros projects Hp Hall. rewrite (Hget projects Hp).
    destruct (close_each_closes projects h Hall
                (emitted s [ Log "TEMP" "Closing all SIRIUS jobs and projects...";
                             Remote "get_projects" ]) Hs)
      as (s' & Hrun & _ & Hd & Hc).
    exists s'. split; [exact Hrun|]. rewrite Hd, Hc. cbn [emitted trace].
    rewrite !count_app. cbn. lia.
  - intros before project after e Hp Hall Hfail. rewrite (Hget _ Hp).
    set (s0 := emitted s [ Log "TEMP" "Closing all SIRIUS jobs and projects...";
                           Remote "get_projects" ]).
    assert (Hcount : count (is_call "delete_jobs") (trace s0)
                     = count (is_call "delete_jobs") (trace s) /\
                     count (is_call "close_project") (trace s0)
                     = count (is_call "close_project") (trace s)).
    { unfold s0. cbn [emitted trace]. rewrite !count_app. cbn. lia. }
    destruct Hcount as [Hd0 Hc0]. rewrite <- Hd0, <- Hc0.
    assert (Hs0 : _api s0 = Some h) by exact Hs.
    clearbody s0. clear Hget Hd0 Hc0 Hp Hs. revert s0 Hs0.
    induction before as [|first before IH]; intros s0 Hs0; cbn [app close_each length].
    + unfold bind. rewrite (close_project_fails s0 h project e Hs0 Hfail).
      eexists. split; [reflexivity|]. cbn [emitted trace]. rewrite !count_app.
      destruct Hfail as [Hd | [Hd Hc]]; rewrite Hd; cbn; lia.
    + unfold bind.
      rewrite (close_project_closes s0 h first Hs0 (Hall first (or_introl eq_refl))).
      destruct (IH (fun p Hp => Hall p (or_intror Hp))
                   (emitted s0 [ Log "TEMP" "Closing SIRIUS jobs and project...";
                                 Remote "delete_jobs"; Remote "close_project" ]) Hs0)
        as (s' & Hrun & Hd & Hc).
      exists s'. split; [exact Hrun|]. rewrite Hd, Hc. cbn [emitted trace].
      rewrite !count_app. cbn. lia.
Qed.

(** X27: [set_features] hands the features to the service in one call, and
    only when every one of them could be converted: the service is called
    once when all conversions return, with the converted features in their
    order, and not at all when the conversion of a feature raises; the
    error is then logged and raised again. *)
Theorem set_features_sends_iff (s : sirius) (h : handle) (project : string)
  (features : list Node.feat_input) :
  _api s = Some h ->
  count (is_call "add_aligned_features")
        (SessionFacts.emitted_by (set_features FeatureImport w project features) s)
  = match omap (feature_import_from_dict w) features with
    | Return _ => 1
    | Raise _ => 0
    end /\
  (forall e,
     omap (feature_import_from_dict w) features = Raise e ->
     set_features FeatureImport w project features s
     = (Raise e,
        emitted s [ Log "TEMP" "Setting features to SIRIUS...";
                    Log "ERROR" "Unable to convert features for SIRIUS service!" ])) /\
  (forall sirius_features,
     omap (feature_import_from_dict w) features = Return sirius_features ->
     fst (set_features FeatureImport w project features s)
     = features_add_aligned_features w project sirius_features).
Proof.
  destruct s as [api q tr]. cbn [_api]. intros ->.
  unfold SessionFacts.emitted_by, set_features, emitted.
  split; [|split].
  - destruct (omap (feature_import_from_dict w) features) as [sirius_features|e] eqn:Hconv.
    + destruct (features_add_aligned_features w project sirius_features) as [u|e] eqn:Hadd;
        run_P; rewrite ?Hconv; run_P; rewrite ?Hadd; run_P;
        cbn [snd trace]; repeat rewrite <- app_assoc;
        rewrite SessionFacts.skipn_emitted; reflexivity.
    + run_P. rewrite ?Hconv. run_P. cbn [snd trace]. repeat rewrite <- app_assoc.
      rewrite SessionFacts.skipn_emitted. reflexivity.
  - intros e Hconv. run_P. rewrite Hconv. run_P. now repeat rewrite <- app_assoc.
  - intros sirius_features Hconv. run_P. rewrite Hconv. run_P.
    destruct (features_add_aligned_features w project sirius_features) as [[]|e];
      reflexivity.
Qed.

End Facts.

(** A service without open projects that answers every call. *)
Definition tidy : workspace unit :=
  {| os_path_exists := false;
     os_remove := Return tt;
     projects_create_project := Return "cdsirius";
     projects_get_projects := Return [];
     jobs_delete_jobs := fun _ => Return tt;
     projects_close_project := fun _ => Return tt;
     feature_import_from_dict := fun _ => Return tt;
     features_add_aligned_features := fun _ _ => Return tt;
     jobs_get_default_job_config := Return tt;
     actuator_shutdown := Return 200%Z |}.

(** A service with three open projects, the second of which cannot be
    closed. *)
Definition busy : workspace unit :=
  {| os_path_exists := os_path_exists tidy;
     os_remove := os_remove tidy;
     projects_create_project := projects_create_project tidy;
     projects_get_projects := Return ["first"; "locked"; "third"];
     jobs_delete_jobs := jobs_delete_jobs tidy;
     projects_close_project := fun project =>
       if (project =? "locked")%string then Raise (ServiceError "(423) Locked")
       else Return tt;
     feature_import_from_dict := feature_import_from_dict tidy;
     features_add_aligned_features := features_add_aligned_features tidy;
     jobs_get_default_job_config := jobs_get_default_job_config tidy;
     actuator_shutdown := actuator_shutdown tidy |}.

Lemma shutdown_calls_iff_witness :
  In (Remote "shutdown")
     (SessionFacts.emitted_by (shutdown unit tidy) SessionFacts.connected_sirius) /\
  shutdown unit busy SessionFacts.connected_sirius
  = (Return tt,
     emitted SessionFacts.connected_sirius
       [ Log "TEMP" "Shutting down SIRIUS service...";
         Remote "get_projects";
         Log "WARNING" "SIRIUS service cannot be shut down due to running projects!" ]).
Proof.
  split.
  - apply (proj1 (shutdown_calls_iff unit tidy SessionFacts.connected_sirius SiriusApi
                    eq_refl)).
    reflexivity.
  - exact (proj1 (proj2 (shutdown_calls_iff unit busy SessionFacts.connected_sirius
                           SiriusApi eq_refl))
                 "first" ["locked"; "third"] eq_refl).
Defined.

Lemma close_all_projects_stops_witness :
  exists s',
    close_all_projects unit busy SessionFacts.connected_sirius
    = (Raise (ServiceError "(423) Locked"), s') /\
    count (is_call "delete_jobs") (trace s') = 2 /\
    count (is_call "close_project") (trace s') = 2.
Proof.
  apply (proj2 (close_all_projects_stops unit busy SessionFacts.connected_sirius SiriusApi
                  eq_refl)
               ["first"] "locked" ["third"] (ServiceError "(423) Locked") eq_refl).
  - intros project [<- | []]. split; reflexivity.
  - right. split; reflexivity.
Defined.

(** Two features as [_load_features] hands them over, the second without
    a charge. *)
Definition charged (charge : Z) : Node.feat_input :=
  {| Node.in_name := "180.06339@1.750";
     Node.in_externalFeatureId := "12";
     Node.in_ionMass := 181.0707%float;
     Node.in_charge := charge;
     Node.in_detectedAdducts := ["[M+H]+"];
     Node.in_rtStartSeconds := 90%float;
     Node.in_rtEndSeconds := 120%float;
     Node.in_mergedMs1 :=
       {| Node.sp_name := "MS1"; Node.sp_msLevel := 1; Node.sp_collisionEnergy := None;
          Node.sp_precursorMz := None; Node.sp_scanNumber := 7;
          Node.sp_peaks := [ {| Node.mz := 181.0707%float;
                                Node.intensity := 1000%float |} ] |};
     Node.in_ms2Spectra := [] |}.

(** A service as [tidy] whose conversion refuses a feature without a
    charge. *)
Definition picky : workspace unit :=
  {| os_path_exists := os_path_exists tidy;
     os_remove := os_remove tidy;
     projects_create_project := projects_create_project tidy;
     projects_get_projects := projects_get_projects tidy;
     jobs_delete_jobs := jobs_delete_jobs tidy;
     projects_close_project := projects_close_project tidy;
     feature_import_from_dict := fun feat =>
       if (Node.in_charge feat =? 0)%Z then Raise (ValueError "charge must not be 0")
       else Return tt;
     features_add_aligned_features := features_add_aligned_features tidy;
     jobs_get_default_job_config := jobs_get_default_job_config tidy;
     actuator_shutdown := actuator_shutdown tidy |}.

Lemma set_features_sends_iff_witness :
  count (is_call "add_aligned_features")
        (SessionFacts.emitted_by
           (set_features unit picky "cdsirius" [charged 1; charged (-1)])
           SessionFacts.connected_sirius) = 1 /\
  count (is_call "add_aligned_features")
        (SessionFacts.emitted_by
           (set_features unit picky "cdsirius" [charged 1; charged 0; charged (-1)])
           SessionFacts.connected_sirius) = 0 /\
  set_features unit picky "cdsirius" [charged 1; charged 0; charged (-1)]
    SessionFacts.connected_sirius
  = (Raise (ValueError "charge must not be 0"),
     emitted SessionFacts.connected_sirius
       [ Log "TEMP" "Setting features to SIRIUS...";
         Log "ERROR" "Unable to convert features for SIRIUS service!" ]).
Proof.
  split; [|split].
  - exact (proj1 (set_features_sends_iff unit picky SessionFacts.connected_sirius SiriusApi
                    "cdsirius" [charged 1; charged (-1)] eq_refl)).
  - exact (proj1 (set_features_sends_iff unit picky SessionFacts.connected_sirius SiriusApi
                    "cdsirius" [charged 1; charged 0; charged (-1)] eq_refl)).
  - exact (proj1 (proj2 (set_features_sends_iff unit picky SessionFacts.connected_sirius
                           SiriusApi "cdsirius" [charged 1; charged 0; charged (-1)]
                           eq_refl))
                 (ValueError "charge must not be 0") eq_refl).
Defined.

End Project.

(** ** node.py: [run]

    [run] makes the [Sirius] object, so it starts from [new_sirius]. The
    two parameter files and the file of features are taken as read:
    [config], [project_name], [project_path] and [fingerprints_path] are
    what [_load_params] has made of the first two, [features_data] is the
    content of the third. [str_exn] is [str] on an exception. The calls of
    the harvest to the service are not part of the trace. *)

Module Run.

Import Project.

Local Open Scope list_scope.

(** How [run] ends: it returns after it has written [files]; [exit] has
    raised [SystemExit]; an exception leaves it; or, for the model only,
    the job is still polled when the fuel is spent. *)
Inductive ending : Type :=
| Exported (files : list string)
| Exit (status : Z)
| Uncaught (e : exn)
| Polling.

(** What is on its way out of the [try] statement. *)
Inductive pending : Type :=
| Fallthrough (results : Harvest.results)
| SystemExit (status : Z)
| Exception (e : exn).

Section WithService.

Variable FeatureImport : Type.
Variable svc : service.
Variable w : workspace FeatureImport.
Variable harvest_api : Harvest.api.
Variable config : SiriusConfig.
Variables project_name project_path fingerprints_path : string.
Variable features_data : list Node.raw_feature.
Variable format_fixed : nat -> float -> string.
Variable str_float : float -> string.
Variable str_int : Z -> string.
Variable str_exn : exn -> string.

(** [_load_features], with its line in the log. *)
Definition _load_features : M (list Node.feat_input) :=
  log "Loading SIRIUS features..." "TEMP" ;;
  lift (Node._load_features format_fixed str_float str_int features_data).

(** [retrieve_results] and [_finalize_results], with their lines in the
    log. *)
Definition retrieve_results (job : Harvest.job) : M Harvest.results :=
  log "Retrieving SIRIUS results..." "TEMP" ;;
  b <- lift (Harvest.harvest config job harvest_api) ;;
  log "Finalizing SIRIUS results..." "TEMP" ;;
  lift (Harvest._finalize_results b).

(** The [try] block after the assignment of [project]; [None] when the job
    is still polled. *)
Definition process (fuel : nat) (project : string) : M (option Harvest.results) :=
  features <- _load_features ;;
  set_features FeatureImport w project features ;;
  job <- init_job FeatureImport w config ;;
  success <- Job.start_job svc fuel ;;
  match success with
  | None => ret None
  | Some false => raise (RuntimeError "SIRIUS processing failed.")
  | Some true =>
      results <- retrieve_results job ;;
      ret (Some results)
  end.

(** [except Exception as e: self.log(e, "ERROR"); exit(1)]. *)
Definition handler (e : exn) (s : sirius) : pending * sirius :=
  (SystemExit 1, snd (log (str_exn e) "ERROR" s)).

(** [finally: if project is not None: sirius.close_project(project)]: an
    exception of [close_project] takes the place of what was on its way
    out. *)
Definition finally (project : option string) (p : pending) (s : sirius)
  : pending * sirius :=
  match project with
  | None => (p, s)
  | Some project =>
      match close_project FeatureImport w project s with
      | (Return _, s') => (p, s')
      | (Raise e, s') => (Exception e, s')
      end
  end.

(** The [try] statement. *)
Definition guarded (fuel : nat) (s : sirius) : option pending * sirius :=
  match init_project FeatureImport w project_name project_path s with
  | (Raise e, s1) =>
      let (p, s2) := handler e s1 in
      let (p', s3) := finally None p s2 in
      (Some p', s3)
  | (Return project, s1) =>
      match process fuel project s1 with
      | (Raise e, s2) =>
          let (p, s3) := handler e s2 in
          let (p', s4) := finally (Some project) p s3 in
          (Some p', s4)
      | (Return None, s2) => (None, s2)
      | (Return (Some results), s2) =>
          let (p', s3) := finally (Some project) (Fallthrough results) s2 in
          (Some p', s3)
      end
  end.

(** [_export_results], with its line in the log. *)
Definition _export_results (results : Harvest.results) (s : sirius)
  : list string * sirius :=
  (Harvest._export_results fingerprints_path results,
   snd (log "Exporting SIRIUS results..." "TEMP" s)).

Definition run (fuel : nat) : ending * sirius :=
  let s := snd (log "Loading SIRIUS config..." "TEMP" new_sirius) in
  (* with Sirius(sirius_config, self.log) as sirius: *)
  match Session.__enter__ svc config s with
  | (Raise e, s1) => (Uncaught e, s1)
  | (Return _, s1) =>
      match guarded fuel s1 with
      | (None, s2) => (Polling, s2)
      | (Some p, s2) =>
          (* __exit__ *)
          match __exit__ FeatureImport w s2 with
          | (Raise e, s3) => (Uncaught e, s3)
          | (Return _, s3) =>
              match p with
              | Fallthrough results =>
                  let (files, s4) := _export_results results s3 in
                  (Exported files, s4)
              | SystemExit status => (Exit status, s3)
              | Exception e => (Uncaught e, s3)
              end
          end
      end
  end.

End WithService.

End Run.


(** *** What the steps of a run add to the log *)

Module RunFacts.

Import Project.
Import Run.

Local Open Scope list_scope.

(** The line that opens [close_project], the line that tells that the
    project was made, the line that opens [_export_results], and the lines
    of level [ERROR]. *)
Definition closing : event -> bool := is_log "TEMP" "Closing SIRIUS jobs and project...".
Definition created : event -> bool := is_log "VERBOSE" "SIRIUS project space created.".
Definition exporting : event -> bool := is_log "TEMP" "Exporting SIRIUS results...".
Definition completed : event -> bool :=
  is_log "VERBOSE" "SIRIUS job completed successfully.".
Definition is_error (e : event) : bool :=
  match e with
  | Log level _ => (level =? "ERROR")%string
  | _ => false
  end.

(** A kind of event that the polling loop does not emit before the job has
    reached its end. *)
Definition not_of_job (p : event -> bool) : Prop :=
  p (Remote "get_job") = false /\ (forall a b, p (Progress a b) = false) /\
  p (Sleep 10) = false /\
  p (Log "VERBOSE" "SIRIUS job completed successfully.") = false.

Section Steps.

Variable FeatureImport : Type.
Variable svc : service.
Variable w : workspace FeatureImport.
Variable harvest_api : Harvest.api.
Variable config : SiriusConfig.
Variables project_name project_path fingerprints_path : string.
Variable features_data : list Node.raw_feature.
Variable format_fixed : nat -> float -> string.
Variable str_float : float -> string.
Variable str_int : Z -> string.
Variable str_exn : exn -> string.

Lemma count_queried (p : event -> bool) (s : sirius) :
  not_of_job p -> count p (trace (Job.queried svc s)) = count p (trace s).
Proof.
  intros (Hq & Hp & _). unfold Job.queried, Job.progress_line. cbn [trace].
  rewrite !count_app. cbv zeta.
  destruct (max_progress _ =? 0)%Z; unfold count; cbn [filter]; rewrite ?Hq, ?Hp; cbn; lia.
Qed.

Lemma count_emitted (p : event -> bool) (s : sirius) (e : event) :
  count p (trace (emitted s [e])) = count p (trace s) + if p e then 1 else 0.
Proof.
  cbn [emitted trace]. rewrite count_app. unfold count at 2. cbn [filter].
  now destruct (p e).
Qed.

(** The loop adds nothing of the kind [p] unless the job was cancelled or
    has failed. *)
Lemma poll_clean (p : event -> bool) :
  not_of_job p ->
  forall fuel s r s',
    Job.poll svc fuel s = (Return r, s') -> r <> Some false ->
    count p (trace s') = count p (trace s).
Proof.
  intros Hp. induction fuel as [|fuel IH]; intros s r s' H Hr.
  - inversion H; subst. reflexivity.
  - destruct (_api s) as [h|] eqn:Hs;
      [|rewrite (Job.poll_without_handle svc fuel s Hs) in H; discriminate].
    rewrite (Job.poll_turn svc fuel s h Hs) in H. cbv zeta in H.
    destruct (state (jobs_get_job svc (job_queries s)) =? "DONE")%string.
    { inversion H; subst. rewrite count_emitted, (count_queried p s Hp).
      destruct Hp as (_ & _ & _ & ->). lia. }
    destruct (state (jobs_get_job svc (job_queries s)) =? "CANCELED")%string.
    { inversion H; subst. congruence. }
    destruct (state (jobs_get_job svc (job_queries s)) =? "FAILED")%string.
    { inversion H; subst. congruence. }
    rewrite (IH _ r s' H Hr), count_emitted, (count_queried p s Hp).
    destruct Hp as (_ & _ & -> & _). lia.
Qed.

Lemma poll_silent (p : event -> bool) :
  not_of_job p ->
  p (Log "ERROR" "SIRIUS job cancelled.") = false ->
  p (Log "ERROR" "SIRIUS job failed.") = false ->
  forall fuel, silent p (Job.poll svc fuel).
Proof.
  intros Hp Hc Hf. induction fuel as [|fuel IH]; intros s; [reflexivity|].
  destruct (_api s) as [h|] eqn:Hs;
    [|now rewrite (Job.poll_without_handle svc fuel s Hs)].
  rewrite (Job.poll_turn svc fuel s h Hs). cbv zeta.
  destruct (state (jobs_get_job svc (job_queries s)) =? "DONE")%string.
  { cbn [snd]. rewrite count_emitted, (count_queried p s Hp).
    destruct Hp as (_ & _ & _ & ->). lia. }
  destruct (state (jobs_get_job svc (job_queries s)) =? "CANCELED")%string.
  { cbn [snd]. rewrite count_emitted, (count_queried p s Hp), Hc. lia. }
  destruct (state (jobs_get_job svc (job_queries s)) =? "FAILED")%string.
  { cbn [snd]. rewrite count_emitted, (count_queried p s Hp), Hf. lia. }
  rewrite IH, count_emitted, (count_queried p s Hp).
  destruct Hp as (_ & _ & -> & _). lia.
Qed.

(** The loop returns [True] only after it has logged, once, that the job
    was completed. *)
Lemma poll_done (fuel : nat) :
  forall s s',
    Job.poll svc fuel s = (Return (Some true), s') ->
    count completed (trace s') = count completed (trace s) + 1.
Proof.
  assert (Hq : forall s, count completed (trace (Job.queried svc s))
                         = count completed (trace s)).
  { intros s. unfold Job.queried, Job.progress_line. cbn [trace]. rewrite !count_app.
    cbv zeta. destruct (max_progress _ =? 0)%Z; cbn; lia. }
  induction fuel as [|fuel IH]; intros s s' H; [discriminate|].
  destruct (_api s) as [h|] eqn:Hs;
    [|rewrite (Job.poll_without_handle svc fuel s Hs) in H; discriminate].
  rewrite (Job.poll_turn svc fuel s h Hs) in H. cbv zeta in H.
  destruct (state (jobs_get_job svc (job_queries s)) =? "DONE")%string.
  { inversion H; subst. now rewrite count_emitted, Hq. }
  destruct (state (jobs_get_job svc (job_queries s)) =? "CANCELED")%string;
    [discriminate|].
  destruct (state (jobs_get_job svc (job_queries s)) =? "FAILED")%string;
    [discriminate|].
  rewrite (IH _ s' H), count_emitted, Hq. cbn. lia.
Qed.

(** **** The steps one by one *)

Ltac unfold_steps :=
  unfold Session.__enter__, Session.connect, Session.start, Session.login,
    Session.account, init_project, init_job, set_features, close_project, __exit__,
    shutdown, _load_features, retrieve_results.

Lemma enter_silent (p : event -> bool) :
  In p [closing; created; exporting; completed] ->
  silent p (Session.__enter__ svc config).
Proof.
  intros [<- | [<- | [<- | [<- | []]]]]; unfold_steps; silence.
Qed.

Lemma enter_clean : clean is_error (Session.__enter__ svc config).
Proof. unfold_steps. cleanse. Qed.

Lemma init_project_silent (p : event -> bool) :
  In p [closing; exporting; completed] ->
  silent p (init_project FeatureImport w project_name project_path).
Proof.
  intros [<- | [<- | [<- | []]]]; unfold_steps; silence.
Qed.

Lemma init_project_clean :
  clean is_error (init_project FeatureImport w project_name project_path).
Proof. unfold_steps. cleanse. Qed.

(** The line that tells that the project was made is there exactly when
    [init_project] returns. *)
Lemma init_project_created (s : sirius) :
  count created (trace (snd (init_project FeatureImport w project_name project_path s)))
  = count created (trace s)
    + match fst (init_project FeatureImport w project_name project_path s) with
      | Return _ => 1
      | Raise _ => 0
      end.
Proof.
  destruct s as [api q tr]. unfold init_project.
  destruct (os_path_exists w); destruct (os_remove w) as [[]|e0];
    destruct api as [h|]; destruct (projects_create_project w) as [project|e1];
    run_P; cbn [fst snd trace]; rewrite !count_app; cbn; lia.
Qed.

Lemma load_features_silent (p : event -> bool) :
  In p [closing; created; exporting; completed] ->
  silent p (_load_features features_data format_fixed str_float str_int).
Proof.
  intros [<- | [<- | [<- | [<- | []]]]]; unfold_steps; silence.
Qed.

Lemma load_features_clean :
  clean is_error (_load_features features_data format_fixed str_float str_int).
Proof. unfold_steps. cleanse. Qed.

Lemma set_features_silent (p : event -> bool) (project : string)
  (features : list Node.feat_input) :
  In p [closing; created; exporting; completed] ->
  silent p (set_features FeatureImport w project features).
Proof.
  intros [<- | [<- | [<- | [<- | []]]]]; unfold_steps; silence.
Qed.

Lemma set_features_clean (project : string) (features : list Node.feat_input) :
  clean is_error (set_features FeatureImport w project features).
Proof. unfold_steps. cleanse. Qed.

Lemma init_job_silent (p : event -> bool) :
  In p [closing; created; exporting; completed] ->
  silent p (init_job FeatureImport w config).
Proof.
  intros [<- | [<- | [<- | [<- | []]]]]; unfold_steps; silence.
Qed.

Lemma init_job_clean : clean is_error (init_job FeatureImport w config).
Proof. unfold_steps. cleanse. Qed.

Lemma init_job_returns (s s' : sirius) (job : Harvest.job) :
  init_job FeatureImport w config s = (Return job, s') -> job = Harvest.init_job config.
Proof.
  destruct s as [api q tr]. unfold init_job.
  destruct api as [h|]; destruct (jobs_get_default_job_config w) as [[]|e];
    run_P; intros H; now inversion H.
Qed.

Lemma start_job_silent (p : event -> bool) (fuel : nat) :
  In p [closing; created; exporting] -> silent p (Job.start_job svc fuel).
Proof.
  intros Hp. unfold Job.start_job.
  assert (Hpoll : silent p (Job.poll svc fuel)).
  { destruct Hp as [<- | [<- | [<- | []]]]; apply poll_silent; repeat split; reflexivity. }
  destruct Hp as [<- | [<- | [<- | []]]];
    (apply silent_bind; [silence|]; intros ?; apply silent_bind;
     [unfold Job.jobs; silence|]; intros ?; exact Hpoll).
Qed.

(** What [start_job] leaves in the log when it returns [True]: no error,
    and one line that tells that the job was completed. *)
Lemma start_job_done (fuel : nat) (s s' : sirius) :
  Job.start_job svc fuel s = (Return (Some true), s') ->
  count is_error (trace s') = count is_error (trace s) /\
  count completed (trace s') = count completed (trace s) + 1.
Proof.
  destruct (_api s) as [h|] eqn:Hs;
    [|rewrite (Job.start_job_without_handle svc fuel s Hs); discriminate].
  destruct (jobs_start_job svc) as [submission|e] eqn:Hsub.
  - rewrite (Job.start_job_submitted svc fuel s h submission Hs Hsub). intros H. split.
    + rewrite (poll_clean is_error ltac:(repeat split; reflexivity) fuel _ _ _ H
                 ltac:(discriminate)).
      cbn [emitted trace]. rewrite count_app. cbn. lia.
    + rewrite (poll_done fuel _ _ H). cbn [emitted trace]. rewrite count_app. cbn. lia.
  - destruct s as [api q tr]. cbn [_api] in Hs. subst api.
    unfold Job.start_job, Job.jobs. run_M. rewrite Hsub. discriminate.
Qed.

Lemma retrieve_results_silent (p : event -> bool) (job : Harvest.job) :
  In p [closing; created; exporting; completed] ->
  silent p (retrieve_results harvest_api config job).
Proof.
  intros [<- | [<- | [<- | [<- | []]]]]; unfold_steps; silence.
Qed.

Lemma retrieve_results_clean (job : Harvest.job) :
  clean is_error (retrieve_results harvest_api config job).
Proof. unfold_steps. cleanse. Qed.

(** The results that [retrieve_results] returns are those of the harvest
    and the finaliser. *)
Lemma retrieve_results_harvested (job : Harvest.job) (s : sirius) :
  fst (retrieve_results harvest_api config job s)
  = Harvest.retrieve_results config job harvest_api.
Proof.
  destruct s as [api q tr]. unfold retrieve_results, Harvest.retrieve_results. run_P.
  destruct (Harvest.harvest config job harvest_api) as [b|e]; cbn [obind fst];
    [|reflexivity].
  now destruct (Harvest._finalize_results b).
Qed.

Lemma close_project_silent (p : event -> bool) (project : string) :
  In p [created; exporting; completed] ->
  silent p (close_project FeatureImport w project).
Proof.
  intros [<- | [<- | [<- | []]]]; unfold_steps; silence.
Qed.

Lemma close_project_clean (project : string) :
  clean is_error (close_project FeatureImport w project).
Proof. unfold_steps. cleanse. Qed.

Lemma close_project_clean_of (message : string) (project : string) :
  clean (is_log "ERROR" message) (close_project FeatureImport w project).
Proof. unfold_steps. cleanse. Qed.

Lemma shutdown_clean_of (message : string) :
  clean (is_log "ERROR" message) (__exit__ FeatureImport w).
Proof. unfold_steps. cleanse. Qed.

(** [close_project] writes its opening line once, however it ends. *)
Lemma close_project_closing (project : string) (s : sirius) :
  count closing (trace (snd (close_project FeatureImport w project s)))
  = count closing (trace s) + 1.
Proof.
  unfold close_project.
  assert (H : silent closing
                (try_except
                   (attribute "jobs" ;;
                    remote "delete_jobs" (jobs_delete_jobs w project) ;;
                    attribute "projects" ;;
                    remote "close_project" (projects_close_project w project))
                   (fun err => log "Could not close the SIRIUS project!" "ERROR" ;;
                               raise err))) by silence.
  unfold bind at 1. unfold log at 1, emit at 1. rewrite H. cbn [trace].
  rewrite count_app. reflexivity.
Qed.

Lemma shutdown_silent (p : event -> bool) :
  In p [closing; created; exporting; completed] ->
  silent p (__exit__ FeatureImport w).
Proof.
  intros [<- | [<- | [<- | [<- | []]]]]; unfold_steps; silence.
Qed.

Lemma shutdown_clean : clean is_error (__exit__ FeatureImport w).
Proof. unfold_steps. cleanse. Qed.

(** **** The [try] block *)

Lemma silent_at {A : Type} (p : event -> bool) (m : M A) (s s' : sirius) (r : outcome A) :
  silent p m -> m s = (r, s') -> count p (trace s') = count p (trace s).
Proof. intros H Hm. specialize (H s). now rewrite Hm in H. Qed.

Local Abbreviation the_process :=
  (process FeatureImport svc w harvest_api config features_data format_fixed str_float
           str_int).
Local Abbreviation the_guarded :=
  (guarded FeatureImport svc w harvest_api config project_name project_path features_data
           format_fixed str_float str_int str_exn).
Local Abbreviation the_run :=
  (run FeatureImport svc w harvest_api config project_name project_path fingerprints_path
       features_data format_fixed str_float str_int str_exn).

Lemma process_silent (p : event -> bool) (fuel : nat) (project : string) :
  In p [closing; created; exporting] -> silent p (the_process fuel project).
Proof.
  intros Hp.
  assert (Hp4 : In p [closing; created; exporting; completed])
    by (cbn [In] in *; tauto).
  unfold process.
  apply silent_bind; [now apply load_features_silent|]. intros features.
  apply silent_bind; [now apply set_features_silent|]. intros _.
  apply silent_bind; [now apply init_job_silent|]. intros job.
  apply silent_bind; [now apply start_job_silent|]. intros [[|]|].
  - apply silent_bind; [now apply retrieve_results_silent | intros results; apply silent_ret].
  - apply silent_raise.
  - apply silent_ret.
Qed.

(** When the block returns results, they are those of [retrieve_results]
    on the job of [init_job]; the features were loaded, the job was
    completed, and no error was logged. *)
Lemma process_returns (fuel : nat) (project : string) (s s' : sirius)
  (results : Harvest.results) :
  the_process fuel project s = (Return (Some results), s') ->
  Harvest.retrieve_results config (Harvest.init_job config) harvest_api = Return results /\
  (exists features,
     Node._load_features format_fixed str_float str_int features_data = Return features) /\
  count is_error (trace s') = count is_error (trace s) /\
  count completed (trace s') = count completed (trace s) + 1.
Proof.
  unfold process, bind.
  destruct (_load_features features_data format_fixed str_float str_int s)
    as [[features|e] s1] eqn:H1; [|discriminate].
  destruct (set_features FeatureImport w project features s1)
    as [[[]|e] s2] eqn:H2; [|discriminate].
  destruct (init_job FeatureImport w config s2) as [[job|e] s3] eqn:H3; [|discriminate].
  destruct (Job.start_job svc fuel s3) as [[[[|]|]|e] s4] eqn:H4; try discriminate.
  destruct (retrieve_results harvest_api config job s4) as [[results'|e] s5] eqn:H5;
    [|discriminate].
  intros H. inversion H; subst results' s5. clear H.
  pose proof (init_job_returns s2 s3 job H3) as ->.
  pose proof (retrieve_results_harvested (Harvest.init_job config) s4) as Hres.
  rewrite H5 in Hres. cbn [fst] in Hres.
  destruct (start_job_done fuel s3 s4 H4) as [He4 Hc4].
  split; [now symmetry|]. split.
  { exists features. unfold _load_features, bind, log, emit, lift in H1. now inversion H1. }
  split.
  - rewrite (retrieve_results_clean _ s4 results s' H5), He4.
    rewrite (init_job_clean s2 _ s3 H3), (set_features_clean _ _ s1 tt s2 H2).
    exact (load_features_clean s features s1 H1).
  - rewrite (silent_at completed _ s4 s' _
               (retrieve_results_silent completed _ ltac:(cbn; tauto)) H5), Hc4.
    rewrite (silent_at completed _ s2 s3 _ (init_job_silent completed ltac:(cbn; tauto)) H3).
    rewrite (silent_at completed _ s1 s2 _
               (set_features_silent completed _ _ ltac:(cbn; tauto)) H2).
    now rewrite (silent_at completed _ s s1 _
                   (load_features_silent completed ltac:(cbn; tauto)) H1).
Qed.

(** **** The run *)

Lemma run_exported (fuel : nat) (files : list string) (s' : sirius) :
  the_run fuel = (Exported files, s') ->
  (exists results,
     Harvest.retrieve_results config (Harvest.init_job config) harvest_api
     = Return results /\
     files = Harvest._export_results fingerprints_path results) /\
  (exists features,
     Node._load_features format_fixed str_float str_int features_data = Return features) /\
  count is_error (trace s') = 0 /\
  count completed (trace s') = 1 /\
  count closing (trace s') = 1 /\
  exists before, trace s' = before ++ [Log "TEMP" "Exporting SIRIUS results..."].
Proof.
  unfold run. set (s0 := snd (log "Loading SIRIUS config..." "TEMP" new_sirius)).
  destruct (Session.__enter__ svc config s0) as [[[]|e] s1] eqn:He; [|discriminate].
  unfold guarded.
  destruct (init_project FeatureImport w project_name project_path s1)
    as [[project|e] s2] eqn:Hi.
  2:{ cbn [handler finally]. destruct (__exit__ FeatureImport w _) as [[[]|e'] s3];
      discriminate. }
  destruct (the_process fuel project s2) as [[[results|]|e] s3] eqn:Hp.
  3:{ cbn [handler finally].
      destruct (close_project FeatureImport w project _) as [[[]|e1] s4];
        destruct (__exit__ FeatureImport w _) as [[[]|e2] s5]; discriminate. }
  2:{ discriminate. }
  cbn [finally].
  destruct (close_project FeatureImport w project s3) as [[[]|e1] s4] eqn:Hc.
  2:{ destruct (__exit__ FeatureImport w _) as [[[]|e2] s5]; discriminate. }
  destruct (__exit__ FeatureImport w s4) as [[[]|e2] s5] eqn:Hx; [|discriminate].
  unfold _export_results. intros H. inversion H; subst files s'. clear H.
  destruct (process_returns fuel project s2 s3 results Hp) as (Hres & Hfeat & Herr & Hdone).
  split; [now exists results|]. split; [exact Hfeat|].
  assert (H0 : forall p, In p [closing; completed; is_error] -> count p (trace s0) = 0)
    by (intros p [<- | [<- | [<- | []]]]; reflexivity).
  split; [|split; [|split]].
  - unfold log, emit. cbn [snd trace]. rewrite count_app.
    rewrite (shutdown_clean s4 tt s5 Hx), (close_project_clean project s3 tt s4 Hc), Herr.
    rewrite (init_project_clean s1 project s2 Hi), (enter_clean s0 tt s1 He).
    rewrite (H0 is_error) by (cbn; tauto). reflexivity.
  - unfold log, emit. cbn [snd trace]. rewrite count_app.
    rewrite (silent_at completed _ s4 s5 _ (shutdown_silent completed ltac:(cbn; tauto)) Hx).
    rewrite (silent_at completed _ s3 s4 _
               (close_project_silent completed project ltac:(cbn; tauto)) Hc), Hdone.
    rewrite (silent_at completed _ s1 s2 _
               (init_project_silent completed ltac:(cbn; tauto)) Hi).
    rewrite (silent_at completed _ s0 s1 _ (enter_silent completed ltac:(cbn; tauto)) He).
    rewrite (H0 completed) by (cbn; tauto). reflexivity.
  - unfold log, emit. cbn [snd trace]. rewrite count_app.
    rewrite (silent_at closing _ s4 s5 _ (shutdown_silent closing ltac:(cbn; tauto)) Hx).
    pose proof (close_project_closing project s3) as Hclose. rewrite Hc in Hclose.
    cbn [snd] in Hclose. rewrite Hclose.
    rewrite (silent_at closing _ s2 s3 _
               (process_silent closing fuel project ltac:(cbn; tauto)) Hp).
    rewrite (silent_at closing _ s1 s2 _
               (init_project_silent closing ltac:(cbn; tauto)) Hi).
    rewrite (silent_at closing _ s0 s1 _ (enter_silent closing ltac:(cbn; tauto)) He).
    rewrite (H0 closing) by (cbn; tauto). reflexivity.
  - unfold log, emit. cbn [snd trace]. now eexists.
Qed.

(** X28: [run] writes files only at the end of a run in which everything went
    through: the features were loaded, the job was completed, the results
    were retrieved, and the files are those of [_export_results] on these
    results; the project was closed, once, and the log holds no line of
    the level [ERROR]. Writing the files is the last thing that is
    logged. *)
Theorem run_exports (fuel : nat) (files : list string) :
  fst (the_run fuel) = Exported files ->
  (exists results,
     Harvest.retrieve_results config (Harvest.init_job config) harvest_api
     = Return results /\
     files = Harvest._export_results fingerprints_path results) /\
  (exists features,
     Node._load_features format_fixed str_float str_int features_data = Return features) /\
  count is_error (trace (snd (the_run fuel))) = 0 /\
  count completed (trace (snd (the_run fuel))) = 1 /\
  count closing (trace (snd (the_run fuel))) = 1 /\
  exists before,
    trace (snd (the_run fuel)) = before ++ [Log "TEMP" "Exporting SIRIUS results..."].
Proof.
  destruct (the_run fuel) as [ending s'] eqn:Hrun. cbn [fst snd]. intros ->.
  exact (run_exported fuel files s' Hrun).
Qed.

(** What the [try] statement adds to the log: the line of the new project
    at most once, and the line of [close_project] once when the project
    was made and the block has come to its end, and not at all
    otherwise. *)
Lemma guarded_closes (fuel : nat) (s : sirius) :
  exists c k : nat,
    count created (trace (snd (the_guarded fuel s))) = count created (trace s) + c /\
    count closing (trace (snd (the_guarded fuel s))) = count closing (trace s) + k /\
    count exporting (trace (snd (the_guarded fuel s))) = count exporting (trace s) /\
    c <= 1 /\ k <= 1 /\ (k = 1 <-> c = 1 /\ fst (the_guarded fuel s) <> None).
Proof.
  unfold guarded.
  pose proof (init_project_created s) as Hcr.
  destruct (init_project FeatureImport w project_name project_path s)
    as [[project|e] s1] eqn:Hi; cbn [fst snd] in Hcr.
  - destruct (the_process fuel project s1) as [[[results|]|e] s2] eqn:Hp.
    + cbn [finally].
      pose proof (close_project_closing project s2) as Hcl.
      destruct (close_project FeatureImport w project s2) as [[[]|e1] s3] eqn:Hc;
        cbn [fst snd] in *; exists 1, 1;
        rewrite Hcl,
          (silent_at created _ s2 s3 _
             (close_project_silent created project ltac:(cbn; tauto)) Hc),
          (silent_at exporting _ s2 s3 _
             (close_project_silent exporting project ltac:(cbn; tauto)) Hc),
          (silent_at closing _ s1 s2 _
             (process_silent closing fuel project ltac:(cbn; tauto)) Hp),
          (silent_at created _ s1 s2 _
             (process_silent created fuel project ltac:(cbn; tauto)) Hp),
          (silent_at exporting _ s1 s2 _
             (process_silent exporting fuel project ltac:(cbn; tauto)) Hp),
          (silent_at closing _ s s1 _ (init_project_silent closing ltac:(cbn; tauto)) Hi),
          (silent_at exporting _ s s1 _
             (init_project_silent exporting ltac:(cbn; tauto)) Hi), Hcr;
        repeat split; try lia; discriminate.
    + cbn [fst snd]. exists 1, 0.
      rewrite (silent_at closing _ s1 s2 _
                 (process_silent closing fuel project ltac:(cbn; tauto)) Hp),
        (silent_at created _ s1 s2 _
           (process_silent created fuel project ltac:(cbn; tauto)) Hp),
        (silent_at exporting _ s1 s2 _
           (process_silent exporting fuel project ltac:(cbn; tauto)) Hp),
        (silent_at closing _ s s1 _ (init_project_silent closing ltac:(cbn; tauto)) Hi),
        (silent_at exporting _ s s1 _
           (init_project_silent exporting ltac:(cbn; tauto)) Hi), Hcr.
      repeat split; try lia. intros [_ H]. now contradiction H.
    + cbn [handler finally]. unfold log, emit. cbn [snd].
      set (s3 := {| _api := _api s2; job_queries := job_queries s2;
                    trace := trace s2 ++ [Log "ERROR" (str_exn e)] |}).
      assert (Hs3 : forall p, In p [closing; created; exporting] ->
                              count p (trace s3) = count p (trace s2)).
      { intros p Hin. unfold s3. cbn [trace]. rewrite count_app.
        destruct Hin as [<- | [<- | [<- | []]]]; cbn; lia. }
      pose proof (close_project_closing project s3) as Hcl.
      destruct (close_project FeatureImport w project s3) as [[[]|e1] s4] eqn:Hc;
        cbn [fst snd] in *; exists 1, 1;
        rewrite Hcl,
          (silent_at created _ s3 s4 _
             (close_project_silent created project ltac:(cbn; tauto)) Hc),
          (silent_at exporting _ s3 s4 _
             (close_project_silent exporting project ltac:(cbn; tauto)) Hc),
          !Hs3 by (cbn; tauto);
        rewrite (silent_at closing _ s1 s2 _
                   (process_silent closing fuel project ltac:(cbn; tauto)) Hp),
          (silent_at created _ s1 s2 _
             (process_silent created fuel project ltac:(cbn; tauto)) Hp),
          (silent_at exporting _ s1 s2 _
             (process_silent exporting fuel project ltac:(cbn; tauto)) Hp),
          (silent_at closing _ s s1 _ (init_project_silent closing ltac:(cbn; tauto)) Hi),
          (silent_at exporting _ s s1 _
             (init_project_silent exporting ltac:(cbn; tauto)) Hi), Hcr;
        repeat split; try lia; discriminate.
  - cbn [handler finally fst snd]. unfold log, emit. cbn [snd trace]. exists 0, 0.
    rewrite !count_app.
    rewrite (silent_at closing _ s s1 _ (init_project_silent closing ltac:(cbn; tauto)) Hi),
      (silent_at exporting _ s s1 _ (init_project_silent exporting ltac:(cbn; tauto)) Hi),
      Hcr.
    cbn. repeat split; try lia.
Qed.

(** X29: In every run the project is closed at most once, and it is closed
    exactly when it was made and the run has left the polling loop:
    whether the job was completed or not, and whether the results could be
    retrieved or not. Without a project nothing is closed. *)
Theorem run_closes_project (fuel : nat) :
  count closing (trace (snd (the_run fuel))) <= 1 /\
  (count closing (trace (snd (the_run fuel))) = 1 <->
   count created (trace (snd (the_run fuel))) = 1 /\ fst (the_run fuel) <> Polling).
Proof.
  unfold run. set (s0 := snd (log "Loading SIRIUS config..." "TEMP" new_sirius)).
  assert (H0 : forall p, In p [closing; created] -> count p (trace s0) = 0)
    by (intros p [<- | [<- | []]]; reflexivity).
  destruct (Session.__enter__ svc config s0) as [[[]|e] s1] eqn:He.
  2:{ cbn [fst snd].
      rewrite (silent_at closing _ s0 s1 _ (enter_silent closing ltac:(cbn; tauto)) He),
        (silent_at created _ s0 s1 _ (enter_silent created ltac:(cbn; tauto)) He),
        !H0 by (cbn; tauto).
      split; [lia|]. split; [discriminate | intros [? _]; discriminate]. }
  destruct (guarded_closes fuel s1) as (c & k & Hc & Hk & _ & Hc1 & Hk1 & Hiff).
  rewrite (silent_at closing _ s0 s1 _ (enter_silent closing ltac:(cbn; tauto)) He),
    (silent_at created _ s0 s1 _ (enter_silent created ltac:(cbn; tauto)) He),
    !H0 in * by (cbn; tauto).
  cbn [Nat.add] in Hc, Hk.
  destruct (the_guarded fuel s1) as [[p|] s2]; cbn [fst snd] in *.
  - assert (Hend : forall (r : ending * sirius),
               fst r <> Polling ->
               count closing (trace (snd r)) = k -> count created (trace (snd r)) = c ->
               count closing (trace (snd r)) <= 1 /\
               (count closing (trace (snd r)) = 1 <->
                count created (trace (snd r)) = 1 /\ fst r <> Polling)).
    { intros r Hr Hrk Hrc. rewrite Hrk, Hrc. split; [exact Hk1|].
      rewrite Hiff. split; intros [H1 _]; (split; [exact H1 | first [exact Hr | discriminate]]). }
    destruct (__exit__ FeatureImport w s2) as [[[]|e] s3] eqn:Hx;
      pose proof (silent_at closing _ s2 s3 _ (shutdown_silent closing ltac:(cbn; tauto)) Hx)
        as Hxk;
      pose proof (silent_at created _ s2 s3 _ (shutdown_silent created ltac:(cbn; tauto)) Hx)
        as Hxc;
      rewrite Hk in Hxk; rewrite Hc in Hxc.
    + destruct p as [results|status|e]; unfold _export_results; apply Hend;
        cbn [fst snd]; try discriminate; try assumption;
        unfold log, emit; cbn [snd trace]; rewrite count_app, ?Hxk, ?Hxc; cbn; lia.
    + apply Hend; cbn [fst snd]; try discriminate; assumption.
  - rewrite Hk, Hc. split; [exact Hk1|]. rewrite Hiff.
    split; intros [_ H]; now contradiction H.
Qed.

(** X30: When [run] ends by [exit], the status is 1, the log holds the text of
    an exception at the level [ERROR], and no file was written: the line
    that opens [_export_results] is not in the log. *)
Theorem run_exit_status (fuel : nat) (status : Z) :
  fst (the_run fuel) = Exit status ->
  status = 1%Z /\
  (exists e, In (Log "ERROR" (str_exn e)) (trace (snd (the_run fuel)))) /\
  count exporting (trace (snd (the_run fuel))) = 0.
Proof.
  unfold run. set (s0 := snd (log "Loading SIRIUS config..." "TEMP" new_sirius)).
  assert (H0 : count exporting (trace s0) = 0) by reflexivity.
  destruct (Session.__enter__ svc config s0) as [[[]|e] s1] eqn:He; [|discriminate].
  pose proof (silent_at exporting _ s0 s1 _ (enter_silent exporting ltac:(cbn; tauto)) He)
    as H1. rewrite H0 in H1.
  destruct (guarded_closes fuel s1) as (_ & _ & _ & _ & Hexp & _). rewrite H1 in Hexp.
  assert (Herr : forall (e : exn) (t : list event),
             0 < count (is_log "ERROR" (str_exn e)) t -> In (Log "ERROR" (str_exn e)) t).
  { intros e t Ht. apply count_In in Ht as [ev [Hev Hp]].
    destruct ev as [level message| | |]; try discriminate. cbn [is_log] in Hp.
    apply andb_true_iff in Hp as [Hl Hm].
    apply String.eqb_eq in Hl, Hm. now subst. }
  unfold guarded in *.
  destruct (init_project FeatureImport w project_name project_path s1)
    as [[project|e] s2] eqn:Hi.
  - destruct (the_process fuel project s2) as [[[results|]|e] s3] eqn:Hp.
    + cbn [finally] in *.
      destruct (close_project FeatureImport w project s3) as [[[]|e1] s4];
        destruct (__exit__ FeatureImport w s4) as [[[]|e2] s5]; discriminate.
    + discriminate.
    + cbn [handler finally] in *. unfold log, emit in *. cbn [snd] in *.
      set (s4 := {| _api := _api s3; job_queries := job_queries s3;
                    trace := trace s3 ++ [Log "ERROR" (str_exn e)] |}) in *.
      destruct (close_project FeatureImport w project s4) as [[[]|e1] s5] eqn:Hc;
        cbn [fst snd] in *;
        destruct (__exit__ FeatureImport w s5) as [[[]|e2] s6] eqn:Hx;
        try discriminate.
      intros H. inversion H; subst status. cbn [snd]. split; [reflexivity|]. split.
      * exists e. apply Herr.
        rewrite (shutdown_clean_of (str_exn e) s5 tt s6 Hx),
          (close_project_clean_of (str_exn e) project s4 tt s5 Hc).
        unfold s4. cbn [trace]. rewrite count_app. unfold count at 2.
        cbn [filter is_log]. rewrite !String.eqb_refl. cbn. lia.
      * now rewrite (silent_at exporting _ s5 s6 _
                       (shutdown_silent exporting ltac:(cbn; tauto)) Hx).
  - cbn [handler finally] in *. unfold log, emit in *. cbn [snd] in *.
    set (s3 := {| _api := _api s2; job_queries := job_queries s2;
                  trace := trace s2 ++ [Log "ERROR" (str_exn e)] |}) in *.
    destruct (__exit__ FeatureImport w s3) as [[[]|e2] s4] eqn:Hx; [|discriminate].
    intros H. inversion H; subst status. cbn [snd]. split; [reflexivity|]. split.
    + exists e. apply Herr. rewrite (shutdown_clean_of (str_exn e) s3 tt s4 Hx).
      unfold s3. cbn [trace]. rewrite count_app. unfold count at 2.
      cbn [filter is_log]. rewrite !String.eqb_refl. cbn. lia.
    + now rewrite (silent_at exporting _ s3 s4 _
                     (shutdown_silent exporting ltac:(cbn; tauto)) Hx).
Qed.

End Steps.

(** A run over one feature file entry and the two features of
    [Harvest.two_features], on a service whose job is in the given states
    turn by turn. *)
Definition run_on (states : list string) (fuel : nat) : ending * sirius :=
  run unit (Job.answering_per_turn states) tidy Harvest.two_features
      Session.default_config "cdsirius" "cdsirius.sirius" "fingerprints"
      [Node.lopsided_feature] (fun _ _ => "") (fun _ => "") (fun _ => "")
      (fun e => match e with
                | RuntimeError msg | TypeError msg | KeyError msg | IndexError msg
                | AttributeError msg | ValueError msg | OverflowError msg | ServiceError msg => msg
                end)
      fuel.

Lemma run_exports_witness :
  fst (run_on ["RUNNING"; "DONE"] 5)
  = Exported ["sirius_top_annotations.json"; "sirius_formulas.json"; "sirius_classes.json"] /\
  count is_error (trace (snd (run_on ["RUNNING"; "DONE"] 5))) = 0 /\
  count closing (trace (snd (run_on ["RUNNING"; "DONE"] 5))) = 1.
Proof.
  assert (H : fst (run_on ["RUNNING"; "DONE"] 5)
              = Exported ["sirius_top_annotations.json"; "sirius_formulas.json";
                          "sirius_classes.json"])
    by (vm_compute; reflexivity).
  split; [exact H|].
  destruct (run_exports _ _ _ _ _ _ _ _ _ _ _ _ _ _ _ H) as (_ & _ & He & _ & Hc & _).
  split; [exact He | exact Hc].
Defined.

Lemma run_exit_status_witness :
  fst (run_on ["RUNNING"; "FAILED"] 5) = Exit 1 /\
  In (Log "ERROR" "SIRIUS processing failed.") (trace (snd (run_on ["RUNNING"; "FAILED"] 5))) /\
  count exporting (trace (snd (run_on ["RUNNING"; "FAILED"] 5))) = 0.
Proof.
  assert (H : fst (run_on ["RUNNING"; "FAILED"] 5) = Exit 1) by (vm_compute; reflexivity).
  split; [exact H|].
  destruct (run_exit_status _ _ _ _ _ _ _ _ _ _ _ _ _ _ _ H) as (_ & _ & Hx).
  split; [|exact Hx].
  vm_compute. tauto.
Defined.

End RunFacts.
